(** * sdk-it: the schema serializer, the operation accumulator and the
      client artifact compiler

    A shallow embedding of [packages/core/src/lib/paths.ts] and
    [packages/typescript/src/lib/sdk.ts].

    Conventions of the embedding.
    - JavaScript strings are [string]s; template literals are written with
      [+:+]; [Array.prototype.join] is [String.concat].
    - A thrown exception is the [Throw] case of [result]; an [async]
      function whose awaits are sequential is its synchronous reading.
    - A JavaScript object whose property order is observable (it is
      serialized, or iterated with [Object.entries]) is an association list
      in iteration order, read with [obj_get] and written with [obj_set];
      an object only ever read by key is a [gmap].  The responses object and
      its [content] objects are read with keys taken from the input: there a
      key that names a member of [Object.prototype] finds the inherited
      member ([inherited]).  Elsewhere keys are taken not to be such names.
    - Code outside the two files is a parameter: the expression evaluator,
      the case conversions, the boilerplate texts and the hook of
      [getPaths], which is given a state of its own and is taken not to
      mutate the operation object it receives. *)

From Stdlib Require Import Ascii String List Bool Arith Lia.
From stdpp Require Import base option list strings gmap.

Set Default Proof Using "Type".
Set Warnings "-register-all".

(** ** Exceptions *)

Inductive JsError : Type :=
| TypeError (msg : string)
| Error (msg : string)
| Rejected (msg : string).

Inductive result (A : Type) : Type :=
| Ok (a : A)
| Throw (e : JsError).
Arguments Ok {A} a.
Arguments Throw {A} e.

Definition bind {A B : Type} (r : result A) (k : A -> result B) : result B :=
  match r with
  | Ok a => k a
  | Throw e => Throw e
  end.

Notation "x <- r ;; k" := (bind r (fun x => k))
  (at level 100, r at next level, right associativity, only parsing).

(** [for (const x of xs) { st = body(st, x) }] with a body that may throw. *)
Fixpoint foldM {S A : Type} (body : S -> A -> result S) (st : S) (xs : list A)
  : result S :=
  match xs with
  | [] => Ok st
  | x :: xs' => st' <- body st x ;; foldM body st' xs'
  end.

(** [xs.map(f)] with an [f] that may throw. *)
Definition mapM {A B : Type} (f : A -> result B) : list A -> result (list B) :=
  fix go (xs : list A) : result (list B) :=
    match xs with
    | [] => Ok []
    | x :: xs' => y <- f x ;; ys <- go xs' ;; Ok (y :: ys)
    end.

(** ** Strings *)

Definition dq : string := String "034"%char EmptyString.
Definition bs : string := String "092"%char EmptyString.
Definition nl : string := String "010"%char EmptyString.

Definition isEmpty (s : string) : bool :=
  match s with
  | EmptyString => true
  | String _ _ => false
  end.

(** [s.startsWith(p)] *)
Definition startsWith (p s : string) : bool := String.prefix p s.

(** [String.prototype.toUpperCase] on the ASCII letters (HTTP method names
    are ASCII tokens; other bytes are left as they are). *)
Definition upperChar (c : ascii) : ascii :=
  let n := nat_of_ascii c in
  if (97 <=? n) && (n <=? 122) then ascii_of_nat (n - 32) else c.

Fixpoint toUpperCase (s : string) : string :=
  match s with
  | EmptyString => EmptyString
  | String c s' => String (upperChar c) (toUpperCase s')
  end.

(** [String.prototype.trim]: white space and line terminators at both
    ends, here the ASCII ones. *)
Definition isWhite (c : ascii) : bool :=
  let n := nat_of_ascii c in
  (n =? 32) || ((9 <=? n) && (n <=? 13)).

Fixpoint trimStart (s : string) : string :=
  match s with
  | EmptyString => EmptyString
  | String c s' => if isWhite c then trimStart s' else s
  end.

Fixpoint trimEnd (s : string) : string :=
  match s with
  | EmptyString => EmptyString
  | String c s' =>
      let r := trimEnd s' in
      if isWhite c && isEmpty r then EmptyString else String c r
  end.

Definition trim (s : string) : string := trimEnd (trimStart s).

(** [s.replace(pat, rep)] with a string pattern: the first occurrence only. *)
Fixpoint dropChars (n : nat) (s : string) : string :=
  match n, s with
  | O, _ => s
  | S n', String _ s' => dropChars n' s'
  | S _, EmptyString => EmptyString
  end.

Fixpoint replaceFirst (pat rep s : string) : string :=
  if String.prefix pat s then rep +:+ dropChars (String.length pat) s
  else match s with
       | EmptyString => EmptyString
       | String c s' => String c (replaceFirst pat rep s')
       end.

(** ** JSON values and [JSON.stringify] *)

Inductive json : Type :=
| JUndefined
| JNull
| JBool (b : bool)
| JString (s : string)
| JArray (items : list json)
| JObject (props : list (string * json)).

(** Property read [o[k]] and property write [o[k] = v] on an object kept in
    iteration order: a write to an existing key keeps its position. *)
Fixpoint obj_get {V : Type} (k : string) (o : list (string * V)) : option V :=
  match o with
  | [] => None
  | (k', v) :: o' => if String.eqb k k' then Some v else obj_get k o'
  end.

Fixpoint obj_set {V : Type} (k : string) (v : V) (o : list (string * V))
  : list (string * V) :=
  match o with
  | [] => [(k, v)]
  | (k', v') :: o' =>
      if String.eqb k k' then (k, v) :: o' else (k', v') :: obj_set k v o'
  end.

Fixpoint obj_remove {V : Type} (k : string) (o : list (string * V))
  : list (string * V) :=
  match o with
  | [] => []
  | (k', v') :: o' =>
      if String.eqb k k' then obj_remove k o' else (k', v') :: obj_remove k o'
  end.

(** JavaScript truthiness of a JSON value. *)
Definition truthy (j : json) : bool :=
  match j with
  | JUndefined | JNull => false
  | JBool b => b
  | JString s => negb (isEmpty s)
  | JArray _ | JObject _ => true
  end.

Definition hexDigit (n : nat) : ascii :=
  ascii_of_nat (if n <? 10 then 48 + n else 87 + n).

Definition escapeChar (c : ascii) : string :=
  let n := nat_of_ascii c in
  if n =? 34 then bs +:+ dq
  else if n =? 92 then bs +:+ bs
  else if n =? 8 then bs +:+ "b"
  else if n =? 12 then bs +:+ "f"
  else if n =? 10 then bs +:+ "n"
  else if n =? 13 then bs +:+ "r"
  else if n =? 9 then bs +:+ "t"
  else if n <? 32 then
    bs +:+ "u00" +:+ String (hexDigit (n / 16)) (String (hexDigit (n mod 16)) EmptyString)
  else String c EmptyString.

Fixpoint escapeString (s : string) : string :=
  match s with
  | EmptyString => EmptyString
  | String c s' => escapeChar c +:+ escapeString s'
  end.

Definition quoteString (s : string) : string := dq +:+ escapeString s +:+ dq.

(** The text of a value inside an enclosing value: [None] is JavaScript's
    [undefined], which an array prints as [null] and an object leaves out
    together with its key. *)
Fixpoint stringifyValue (j : json) : option string :=
  match j with
  | JUndefined => None
  | JNull => Some "null"
  | JBool b => Some (if b then "true" else "false")
  | JString s => Some (quoteString s)
  | JArray items =>
      Some ("[" +:+ String.concat ","
              (map (fun x => default "null" (stringifyValue x)) items) +:+ "]")
  | JObject props =>
      Some ("{" +:+ String.concat ","
              (omap (fun kv =>
                       match kv with
                       | (k, v) =>
                           match stringifyValue v with
                           | Some t => Some (quoteString k +:+ ":" +:+ t)
                           | None => None
                           end
                       end) props) +:+ "}")
  end.

(** [JSON.stringify(j)]; the result is [undefined] for [undefined]. *)
Definition JSON_stringify (j : json) : option string := stringifyValue j.

(** [a === b] on two results of [JSON.stringify]. *)
Definition sameText (a b : option string) : bool :=
  match a, b with
  | Some x, Some y => String.eqb x y
  | None, None => true
  | _, _ => false
  end.

(** * [paths.ts]: serializer and operation accumulator *)

Module Paths.

Inductive Method : Type :=
| M_get | M_post | M_put | M_patch | M_delete | M_trace | M_head.

Definition methodName (m : Method) : string :=
  match m with
  | M_get => "get"
  | M_post => "post"
  | M_put => "put"
  | M_patch => "patch"
  | M_delete => "delete"
  | M_trace => "trace"
  | M_head => "head"
  end.

Definition methods : list Method :=
  [M_get; M_post; M_put; M_patch; M_delete; M_trace; M_head].

Inductive SemanticSource : Type :=
| S_query | S_queries | S_body | S_params | S_headers.

(** The table has no entry for [body]: reading it yields [undefined]. *)
Definition semanticSourceToOpenAPI (s : SemanticSource) : option string :=
  match s with
  | S_queries => Some "query"
  | S_query => Some "query"
  | S_headers => Some "header"
  | S_params => Some "path"
  | S_body => None
  end.

Record Selector : Type := {
  sel_name : string;
  sel_select : string;
  sel_against : string;
  sel_source : SemanticSource;
  sel_nullable : bool;
  sel_required : bool
}.

(** The argument of [toSchema]: [DateType | string | null | undefined].
    [DNode] is an object carrying the symbol-keyed child list [$types]; a
    node without [kind] is a node whose kind is none of the five tags.
    [DObject] is an object without [$types], given by its own enumerable
    string-keyed properties in [Object.entries] order. *)
Inductive DateType : Type :=
| DNull
| DUndefined
| DString (s : string)
| DNode (kind : string) (optional : bool) (value : option string)
        (types : list DateType)
| DObject (fields : list (string * DateType)).

Record ResponseItem : Type := {
  statusCode : string;
  response : option DateType;
  contentType : string;
  headers : list string
}.

Definition optString (v : option string) : json :=
  match v with
  | Some s => JString s
  | None => JUndefined
  end.

(** A child placed in a schema as it is, without serialization.  A node
    shows its string-keyed properties; its [$types] list is symbol-keyed
    and invisible to JSON. *)
Fixpoint rawJson (d : DateType) : json :=
  match d with
  | DNull => JNull
  | DUndefined => JUndefined
  | DString s => JString s
  | DNode kind optional value _ =>
      JObject [("kind", JString kind); ("optional", JBool optional);
               ("value", optString value)]
  | DObject fields =>
      JObject (map (fun kv => match kv with (k, v) => (k, rawJson v) end) fields)
  end.

Definition schemaAny : json := JObject [("type", JString "any")].
Definition schemaEmpty : json := JObject [].
Definition schemaBinary : json :=
  JObject [("type", JString "string"); ("format", JString "binary")].

(** The kinds whose branch reads [data[$types]] before [$types in data] is
    tested. *)
Definition isTag (k : string) : bool :=
  existsb (String.eqb k) ["literal"; "record"; "array"; "union"; "intersection"].

Definition firstOr (d : json) (l : list json) : json :=
  match l with
  | x :: _ => x
  | [] => d
  end.

Fixpoint toSchema (data : DateType) : result json :=
  match data with
  | DNull | DUndefined => Ok schemaAny
  | DString s =>
      if startsWith "#" s then Ok (JObject [("$ref", JString s)])
      else Ok (JObject [("type", JString s)])
  | DNode kind _ value types =>
      if String.eqb kind "literal" then
        Ok (JObject [("enum", JArray [optString value]);
                     ("type", match types with
                              | t :: _ => rawJson t
                              | [] => JUndefined
                              end)])
      else if String.eqb kind "record" then
        a <- match types with
             | t :: _ => toSchema t
             | [] => Ok schemaAny
             end ;;
        Ok (JObject [("type", JString "object"); ("additionalProperties", a)])
      else if String.eqb kind "array" then
        items <- mapM toSchema types ;;
        Ok (JObject [("type", JString "array"); ("items", firstOr schemaEmpty items)])
      else if String.eqb kind "union" then
        items <- mapM toSchema types ;;
        Ok (JObject [("anyOf", JArray items)])
      else if String.eqb kind "intersection" then
        items <- mapM toSchema types ;;
        Ok (JObject [("allOf", JArray items)])
      else
        items <- mapM toSchema types ;;
        Ok (firstOr schemaEmpty items)
  | DObject fields =>
      let composite :=
        props <- (fix go (l : list (string * DateType)) (props : list (string * json))
                    : result (list (string * json)) :=
                    match l with
                    | [] => Ok props
                    | (key, value) :: l' =>
                        s <- toSchema value ;; go l' (obj_set key s props)
                    end) fields [] ;;
        Ok (JObject [("type", JString "object"); ("properties", JObject props);
                     ("additionalProperties", JBool false)]) in
      match obj_get "kind" fields with
      | Some (DString k) =>
          if isTag k
          then Throw (TypeError "Cannot read properties of undefined")
          else composite
      | _ => composite
      end
  end.

(** [isHttpMethod] *)
Definition isHttpMethod (name : string) : bool :=
  existsb (String.eqb name) ["get"; "post"; "put"; "delete"; "patch"].

(** ** Response merging *)

Record MediaTypeObject : Type := { schema : json }.

Record ResponseObject : Type := {
  description : string;
  content : gmap string MediaTypeObject;
  ro_headers : option json
}.

Definition truthyNode (d : DateType) : bool :=
  match d with
  | DNull | DUndefined => false
  | DString s => negb (isEmpty s)
  | DNode _ _ _ _ | DObject _ => true
  end.

(** [item.response ? toSchema(item.response) : {}] *)
Definition itemSchema (item : ResponseItem) : result json :=
  match response item with
  | Some d => if truthyNode d then toSchema d else Ok schemaEmpty
  | None => Ok schemaEmpty
  end.

Definition headerSchemas (hs : list string) : option json :=
  match hs with
  | [] => None
  | _ :: _ =>
      Some (JObject
              (fold_left
                 (fun acc header =>
                    obj_set header (JObject [("schema", JObject [("type", JString "string")])]) acc)
                 hs []))
  end.

Definition isOctetStream (ct : string) : bool :=
  String.eqb ct "application/octet-stream".

(** The innermost branch: the pair [(statusCode, contentType)] already has
    a schema [existing]. *)
Definition mergeSchema (existing new : json) : result json :=
  match existing with
  | JNull | JUndefined => Throw (TypeError "Cannot read properties of undefined")
  | JObject props =>
      match obj_get "oneOf" props with
      | Some (JArray l) =>
          let found :=
            find (fun it => sameText (JSON_stringify it) (JSON_stringify new)) l in
          if negb (from_option truthy false found)
          then Ok (JObject (obj_set "oneOf" (JArray (l ++ [new])) props))
          else Ok existing
      | Some other =>
          if truthy other
          then Throw (TypeError "existing.oneOf.find is not a function")
          else if negb (sameText (JSON_stringify existing) (JSON_stringify new))
               then Ok (JObject [("oneOf", JArray [existing; new])])
               else Ok existing
      | None =>
          if negb (sameText (JSON_stringify existing) (JSON_stringify new))
          then Ok (JObject [("oneOf", JArray [existing; new])])
          else Ok existing
      end
  | JBool _ | JString _ | JArray _ =>
      if negb (sameText (JSON_stringify existing) (JSON_stringify new))
      then Ok (JObject [("oneOf", JArray [existing; new])])
      else Ok existing
  end.

Definition setContent (r : ResponseObject) (ct : string) (s : json) : ResponseObject :=
  {| description := description r;
     content := <[ct := {| schema := s |}]> (content r);
     ro_headers := ro_headers r |}.

(** The names a plain object inherits from [Object.prototype].  Reading
    one of them from an object that has no own property of that name yields
    the inherited member, a function or, for [__proto__], the prototype
    itself: a truthy value without [content] and without [schema]. *)
Definition inherited (key : string) : bool :=
  existsb (String.eqb key)
    ["constructor"; "__defineGetter__"; "__defineSetter__"; "hasOwnProperty";
     "__lookupGetter__"; "__lookupSetter__"; "isPrototypeOf";
     "propertyIsEnumerable"; "toString"; "valueOf"; "__proto__"; "toLocaleString"].

(** The body of the loop of [#responseItemToResponses].  When the status
    code has no own entry but names an inherited member, the test
    [!responsesObject[item.statusCode]] fails and [.content[ct]] is read
    from [undefined]; when the content type has no own entry but names an
    inherited member, [.schema] of that member is [undefined] and
    [existing.oneOf] is read from it. *)
Definition addResponse (responsesObject : gmap string ResponseObject)
    (item : ResponseItem) : result (gmap string ResponseObject) :=
  let ct := contentType item in
  schema <- itemSchema item ;;
  match responsesObject !! statusCode item with
  | None =>
      if inherited (statusCode item)
      then Throw (TypeError "Cannot read properties of undefined")
      else
        Ok (<[statusCode item :=
               {| description := "Response for " +:+ statusCode item;
                  content := {[ ct := {| schema := if isOctetStream ct
                                                    then schemaBinary else schema |} ]};
                  ro_headers := headerSchemas (headers item) |}]> responsesObject)
  | Some r =>
      match content r !! ct with
      | None =>
          if inherited ct
          then Throw (TypeError "Cannot read properties of undefined")
          else Ok (<[statusCode item := setContent r ct schema]> responsesObject)
      | Some m =>
          merged <- mergeSchema (Paths.schema m) schema ;;
          Ok (<[statusCode item := setContent r ct merged]> responsesObject)
      end
  end.

Definition responseItemToResponses (responses : list ResponseItem)
  : result (gmap string ResponseObject) :=
  foldM addResponse ∅ responses.

(** [responsesObject[sc].content[ct].schema] *)
Definition schemaAt (ro : gmap string ResponseObject) (sc ct : string) : option json :=
  r ← ro !! sc; m ← content r !! ct; Some (schema m).

(** ** Parameters, request bodies and [getPaths] *)

(** The runtime that loads the generated module and yields the object
    [zodToJsonSchema] returns, given the expression and the shared
    definitions import; it is outside this repository. *)
Class Evaluator : Type :=
  runModule : string -> option string -> result (list (string * json)).

(** [evalZod]: the first [.optional()] is cut from the expression, the
    import line is emitted for a truthy [commonZodImport] only, and the
    [$schema] marker is dropped from the result. *)
Definition evalZod `{Evaluator} (schema : string) (commonZodImport : option string)
  : result json :=
  props <- runModule (replaceFirst ".optional()" EmptyString schema)
             (match commonZodImport with
              | Some s => if isEmpty s then None else Some s
              | None => None
              end) ;;
  Ok (JObject (obj_remove "$schema" props)).

Record ParameterObject : Type := {
  p_in : option string;
  p_name : string;
  p_required : bool;
  p_schema : json
}.

Record OperationObject : Type := {
  operationId : string;
  parameters : list ParameterObject;
  oo_tags : option (list string);
  oo_description : option string;
  requestBody : option json;
  oo_responses : option (gmap string ResponseObject)
}.

Abbreviation PathsObject := (gmap string (gmap string OperationObject)).

(** The hook is external code: it is given its own state, threaded through
    the calls, so that each call and its order are visible.  [None] is a
    hook that returns [undefined] or [null]. *)
Definition OnOperation (HookState : Type) : Type :=
  HookState -> string -> Method -> string -> OperationObject ->
  option PathsObject * HookState.

Record OperationEntry : Type := {
  op_sourceFile : string;
  op_name : string;
  op_path : string;
  op_method : Method;
  op_selectors : list Selector;
  op_responses : gmap string ResponseObject;
  op_tags : option (list string);
  op_description : option string
}.

Record Paths (HookState : Type) : Type := {
  commonZodImport : option string;
  onOperation : option (OnOperation HookState);
  operations : list OperationEntry
}.
Arguments commonZodImport {HookState} _.
Arguments onOperation {HookState} _.
Arguments operations {HookState} _.

(** [new Paths(config)] *)
Definition new {HookState : Type} (commonZod : option string)
    (hook : option (OnOperation HookState)) : Paths HookState :=
  {| commonZodImport := commonZod; onOperation := hook; operations := [] |}.

Definition addPath {HookState : Type} (this : Paths HookState)
    (name path : string) (method : Method) (selectors : list Selector)
    (responses : list ResponseItem) (sourceFile : string)
    (tags : option (list string)) (description : option string)
  : result (Paths HookState) :=
  responsesObject <- responseItemToResponses responses ;;
  Ok {| commonZodImport := commonZodImport this;
        onOperation := onOperation this;
        operations :=
          operations this ++
          [{| op_sourceFile := sourceFile; op_name := name; op_path := path;
              op_method := method; op_selectors := selectors;
              op_responses := responsesObject; op_tags := tags;
              op_description := description |}] |}.

Definition selectosToParameters `{Evaluator} (commonZod : option string)
    (selectors : list Selector)
  : result (list ParameterObject * list (string * json)) :=
  foldM
    (fun acc selector =>
       match sel_source selector with
       | S_body =>
           s <- evalZod (sel_against selector) commonZod ;;
           Ok (acc.1, obj_set (sel_name selector) s acc.2)
       | S_query | S_queries | S_params | S_headers =>
           s <- evalZod (sel_against selector) commonZod ;;
           Ok (acc.1 ++ [{| p_in := semanticSourceToOpenAPI (sel_source selector);
                            p_name := sel_name selector;
                            p_required := sel_required selector;
                            p_schema := s |}], acc.2)
       end)
    ([], []) selectors.

Definition bodyContent (bodySchemaProps : list (string * json)) : json :=
  JObject
    [("content",
      JObject
        [("application/json",
          JObject
            [("schema",
              JObject [("type", JString "object");
                       ("properties", JObject bodySchemaProps)])])])].

Definition buildOperationObject (operation : OperationEntry)
    (params : list ParameterObject) (bodySchemaProps : list (string * json))
  : OperationObject :=
  {| operationId := op_name operation;
     parameters := params;
     oo_tags := op_tags operation;
     oo_description := op_description operation;
     requestBody := match bodySchemaProps with
                    | [] => None
                    | _ :: _ => Some (bodyContent bodySchemaProps)
                    end;
     oo_responses := if size (op_responses operation) =? 0 then None
                     else Some (op_responses operation) |}.

(** [operations[path][method] = operationObject], creating [operations[path]]
    when it is missing. *)
Definition insertOperation (operations : PathsObject) (path : string)
    (method : Method) (operationObject : OperationObject) : PathsObject :=
  <[path := <[methodName method := operationObject]> (default ∅ (operations !! path))]>
    operations.

(** [Object.assign(target, source)] on a paths object: the keys of
    [source] are written over [target]. *)
Definition Object_assign (target source : PathsObject) : PathsObject :=
  source ∪ target.

(** One iteration of the loop of [getPaths].  Inside the [if] block the
    declaration [const operations = this.#onOperation?.(...)] introduces a
    second, block-scoped [operations]: both arguments of [Object.assign]
    are that inner object, and the accumulator of the function is the outer
    one. *)
Definition getPathsStep `{Evaluator} {HookState : Type} (this : Paths HookState)
    (acc : PathsObject * HookState) (operation : OperationEntry)
  : result (PathsObject * HookState) :=
  ps <- selectosToParameters (commonZodImport this) (op_selectors operation) ;;
  let operationObject := buildOperationObject operation ps.1 ps.2 in
  let operations :=
    insertOperation acc.1 (op_path operation) (op_method operation) operationObject in
  match onOperation this with
  | Some hook =>
      let called := hook acc.2 (op_sourceFile operation) (op_method operation)
                      (op_path operation) operationObject in
      match called.1 with
      | Some inner =>
          let inner' := Object_assign inner inner in
          Ok (operations, called.2)
      | None => Throw (TypeError "Cannot convert undefined or null to object")
      end
  | None => Ok (operations, acc.2)
  end.

(** [getPaths]: the paths object returned, and the state in which the
    calls of the hook leave the hook. *)
Definition getPaths `{Evaluator} {HookState : Type} (this : Paths HookState)
    (hs : HookState) : result (PathsObject * HookState) :=
  foldM (getPathsStep this) (∅, hs) (operations this).

End Paths.

(** * [sdk.ts]: the client artifact compiler *)

Module Sdk.

Record NamedImport : Type := {
  ni_name : string;
  ni_alias : option string;
  ni_isTypeOnly : bool
}.

(** The interface [Import]; [namedImports] is read through [?? []]. *)
Record ImportDecl : Type := {
  isTypeOnly : bool;
  moduleSpecifier : string;
  defaultImport : option string;
  namedImports : option (list NamedImport);
  namespaceImport : option string
}.

(** ** The three text accumulators *)

Module SchemaEndpoint.
Record t : Type := { imports : list string; endpoints : list string }.

Definition new : t :=
  {| imports :=
       ["import z from 'zod';";
        "import type { Endpoints } from " +:+ dq +:+ "./endpoints" +:+ dq +:+ ";";
        "import { toRequest, json, urlencoded, formdata, createUrl } from './request';";
        "import type { ParseError } from './parser';"];
     endpoints := [] |}.

Definition entry (endpoint operation : string) : string :=
  "  " +:+ dq +:+ endpoint +:+ dq +:+ ": " +:+ operation +:+ ",".

Definition addEndpoint (this : t) (endpoint operation : string) : t :=
  {| imports := imports this;
     endpoints := endpoints this ++ [entry endpoint operation] |}.

Definition addImport (this : t) (value : string) : t :=
  {| imports := imports this ++ [value]; endpoints := endpoints this |}.

Definition complete (this : t) : string :=
  String.concat nl (imports this) +:+ nl +:+ "export default {" +:+ nl +:+
  String.concat nl (endpoints this) +:+ nl +:+ "}".
End SchemaEndpoint.

Module Emitter.
Record t : Type := { imports : list string; endpoints : list string }.

Definition new : t :=
  {| imports := ["import z from 'zod';";
                 "import type { ParseError } from './parser';"];
     endpoints := [] |}.

Definition entry (endpoint operation : string) : string :=
  "  " +:+ dq +:+ endpoint +:+ dq +:+ ": " +:+ operation +:+ ";".

Definition addEndpoint (this : t) (endpoint operation : string) : t :=
  {| imports := imports this;
     endpoints := endpoints this ++ [entry endpoint operation] |}.

Definition addImport (this : t) (value : string) : t :=
  {| imports := imports this ++ [value]; endpoints := endpoints this |}.

Definition complete (this : t) : string :=
  String.concat nl (imports this) +:+ nl +:+ "export interface Endpoints {" +:+ nl +:+
  String.concat nl (endpoints this) +:+ nl +:+ "}".
End Emitter.

(** [StreamEmitter extends Emitter]: the fields and the two [add] methods
  are inherited, [complete] is overridden. *)
Module StreamEmitter.
Definition complete (this : Emitter.t) : string :=
  String.concat nl (Emitter.imports this) +:+ nl +:+
  "export interface StreamEndpoints {" +:+ nl +:+
  String.concat nl (Emitter.endpoints this) +:+ nl +:+ "}".
End StreamEmitter.

(** ** The specification *)

Inductive SecurityScheme : Type := BearerAuth.

Record OperationInput : Type := { source : string; schema : string }.

Record Trigger : Type := { method : string; path : string }.

(** What [formatOutput()] returns. *)
Record Output : Type := { import : string; use : string }.

(** [errors] is read through [?? []] and [?? ['ServerError']]: [None] is a
    missing or null field.  [schemas] and [inputs] are objects iterated in
    property order. *)
Record Operation : Type := {
  name : string;
  errors : option (list string);
  type : string;
  imports : list ImportDecl;
  trigger : Trigger;
  contentType : option string;
  schemas : list (string * string);
  inputs : list (string * OperationInput);
  formatOutput : Output
}.

Record Spec : Type := {
  groups : list (string * list Operation);
  commonZod : option string;
  spec_name : option string;
  options : list (string * string);
  securityScheme : option SecurityScheme
}.

(** ** Collaborators outside this file *)

(** The case conversions of the [stringcase] package. *)
Class StringCase : Type := {
  camelcase : string -> string;
  pascalcase : string -> string;
  spinalcase : string -> string
}.

(** The boilerplate artifacts passed through unmodified, and the backend
    module generated elsewhere. *)
Class Boilerplate : Type := {
  backend : Spec -> string;
  clientTxt : string;
  parserTxt : string;
  requestTxt : string;
  responseTxt : string
}.

(** Modelled from the spec: [toLitObject] of [@sdk-it/core], whose source is
    not part of the files at hand; it renders "an object literal mapping
    variant tag to expression". *)
Definition toLitObject (obj : list (string * string)) : string :=
  "{" +:+ String.concat ", " (map (fun kv => kv.1 +:+ ": " +:+ kv.2) obj) +:+ "}".

(** Modelled from the spec: [removeDuplicates] of [@sdk-it/core], whose
    source is not part of the files at hand; identifiers are "deduplicated
    into one shared import list".  An item is kept at its first occurrence,
    items being compared through [accessor]. *)
Definition removeDuplicates {A : Type} (data : list A) (accessor : A -> string)
  : list A :=
  fold_left
    (fun acc x =>
       if existsb (fun y => String.eqb (accessor x) (accessor y)) acc
       then acc else acc ++ [x])
    data [].

(** ** Field buckets *)

Record Buckets : Type := {
  inputHeaders : list string;
  inputQuery : list string;
  inputBody : list string;
  inputParams : list string
}.

Definition noBuckets : Buckets :=
  {| inputHeaders := []; inputQuery := []; inputBody := []; inputParams := [] |}.

Definition quoted (name : string) : string := dq +:+ name +:+ dq.

Definition inputJson (prop : OperationInput) : json :=
  JObject [("source", JString (source prop)); ("schema", JString (schema prop))].

Definition unknownSourceMessage (fieldName : string) (prop : OperationInput)
    (operationName : string) : string :=
  "Unknown source " +:+ source prop +:+ " in " +:+ fieldName +:+ " " +:+
  default "undefined" (JSON_stringify (inputJson prop)) +:+ " in " +:+ operationName.

(** The body of the loop over [Object.entries(operation.inputs)]. *)
Definition classifyInput (operationName : string) (b : Buckets)
    (entry : string * OperationInput) : result Buckets :=
  let name := entry.1 in
  let prop := entry.2 in
  if String.eqb (source prop) "headers" || String.eqb (source prop) "header" then
    Ok {| inputHeaders := inputHeaders b ++ [quoted name]; inputQuery := inputQuery b;
          inputBody := inputBody b; inputParams := inputParams b |}
  else if String.eqb (source prop) "query" then
    Ok {| inputHeaders := inputHeaders b; inputQuery := inputQuery b ++ [quoted name];
          inputBody := inputBody b; inputParams := inputParams b |}
  else if String.eqb (source prop) "body" then
    Ok {| inputHeaders := inputHeaders b; inputQuery := inputQuery b;
          inputBody := inputBody b ++ [quoted name]; inputParams := inputParams b |}
  else if String.eqb (source prop) "path" then
    Ok {| inputHeaders := inputHeaders b; inputQuery := inputQuery b;
          inputBody := inputBody b; inputParams := inputParams b ++ [quoted name] |}
  else if String.eqb (source prop) "internal" then
    Ok b
  else
    Throw (Error (unknownSourceMessage name prop operationName)).

Definition classifyInputs (operation : Operation) : result Buckets :=
  foldM (classifyInput (name operation)) noBuckets (inputs operation).

(** ** Generated text *)

(** An array interpolated into a template literal. *)
Definition arrayText (l : list string) : string := String.concat "," l.

Definition initType : string :=
  "init: {baseUrl:string; headers?: Record<string, string>}".

Definition streamRequestText (schemaRef endpoint : string) (b : Buckets) : string :=
  String.concat nl
    ["{";
     "        schema: " +:+ schemaRef +:+ ",";
     "        toRequest(input: StreamEndpoints['" +:+ endpoint +:+ "']['input'], " +:+
       initType +:+ ") {";
     "          const endpoint = '" +:+ endpoint +:+ "';";
     "            return toRequest(endpoint, json(input, {";
     "            inputHeaders: [" +:+ arrayText (inputHeaders b) +:+ "],";
     "            inputQuery: [" +:+ arrayText (inputQuery b) +:+ "],";
     "            inputBody: [" +:+ arrayText (inputBody b) +:+ "],";
     "            inputParams: [" +:+ arrayText (inputParams b) +:+ "],";
     "          }), init);";
     "          },";
     "        }"].

Definition requestText (schemaText endpoint encoder : string) (b : Buckets) : string :=
  String.concat nl
    ["{";
     "          schema: " +:+ schemaText +:+ ",";
     "          toRequest(input: Endpoints['" +:+ endpoint +:+ "']['input'], " +:+
       initType +:+ ") {";
     "            const endpoint = '" +:+ endpoint +:+ "';";
     "              return toRequest(endpoint, " +:+ encoder +:+ "(input, {";
     "              inputHeaders: [" +:+ arrayText (inputHeaders b) +:+ "],";
     "              inputQuery: [" +:+ arrayText (inputQuery b) +:+ "],";
     "              inputBody: [" +:+ arrayText (inputBody b) +:+ "],";
     "              inputParams: [" +:+ arrayText (inputParams b) +:+ "],";
     "            }), init);";
     "            },";
     "          }"].

(** [operation.contentType || 'json'] *)
Definition encoderOf (operation : Operation) : string :=
  match contentType operation with
  | Some ct => if isEmpty ct then "json" else ct
  | None => "json"
  end.

(** [(operation.errors ?? ['ServerError']).concat(`ParseError<${input}>`)] *)
Definition errorUnion (operation : Operation) (input : string) : list string :=
  default ["ServerError"] (errors operation) ++ ["ParseError<" +:+ input +:+ ">"].

Definition endpointText (input use : string) (union : list string) : string :=
  "{input: z.infer<" +:+ input +:+ ">; output: " +:+ use +:+ "; error: " +:+
  String.concat "|" union +:+ "}".

Definition streamEndpointText (input use : string) : string :=
  "{input: " +:+ input +:+ ", output: " +:+ use +:+ "}".

Definition groupImport (featureSchemaFileName : string) : string :=
  "import * as " +:+ featureSchemaFileName +:+ " from './inputs/" +:+
  featureSchemaFileName +:+ "';".

(** ** The compiler *)

Record State : Type := {
  emitter : Emitter.t;
  streamEmitter : Emitter.t;
  st_schemas : list (string * list string);
  schemasImports : list string;
  schemaEndpoint : SchemaEndpoint.t;
  st_errors : list string
}.

Definition initial : State :=
  {| emitter := Emitter.new; streamEmitter := Emitter.new; st_schemas := [];
     schemasImports := []; schemaEndpoint := SchemaEndpoint.new; st_errors := [] |}.

(** [operation.imports.map((it) => (it.namedImports ?? []).map((it) => it.name)).flat()] *)
Definition namedImportNames (operation : Operation) : list string :=
  concat (map (fun it => map ni_name (default [] (namedImports it))) (imports operation)).

Definition schemaDeclaration `{StringCase} (operation : Operation) : string :=
  "export const " +:+ camelcase (name operation +:+ " schema") +:+ " = " +:+
  (match schemas operation with
   | [(_, v)] => v
   | _ => toLitObject (schemas operation)
   end) +:+ ";".

Definition endpointOf (typePrefix : string) (operation : Operation) : string :=
  typePrefix +:+ toUpperCase (method (trigger operation)) +:+ " " +:+
  path (trigger operation).

(** The body of [for (const type in operation.schemas ?? {})]. *)
Definition addVariant (operation : Operation) (schemaRef : string) (b : Buckets)
    (acc : Emitter.t * SchemaEndpoint.t) (type : string)
  : Emitter.t * SchemaEndpoint.t :=
  let addTypeParser := 1 <? length (schemas operation) in
  let typePrefix :=
    if addTypeParser && negb (String.eqb type "json") then type +:+ " "
    else EmptyString in
  let variant := if addTypeParser then "." +:+ type else EmptyString in
  let input := "typeof " +:+ schemaRef +:+ variant in
  let endpoint := endpointOf typePrefix operation in
  (Emitter.addEndpoint acc.1 endpoint
     (endpointText input (use (formatOutput operation)) (errorUnion operation input)),
   SchemaEndpoint.addEndpoint acc.2 endpoint
     (requestText (schemaRef +:+ variant) endpoint (encoderOf operation) b)).

(** [schemas[key].push(line)]; the key is missing only if the group loop
    has not created it. *)
Definition pushSchema (key line : string) (all : list (string * list string))
  : result (list (string * list string)) :=
  match obj_get key all with
  | Some lines => Ok (obj_set key (lines ++ [line]) all)
  | None => Throw (TypeError "Cannot read properties of undefined (reading 'push')")
  end.

(** The body of [for (const operation of operations)]. *)
Definition processOperation `{StringCase} (featureSchemaFileName : string)
    (st : State) (operation : Operation) : result State :=
  let schemaName := camelcase (name operation +:+ " schema") in
  all <- pushSchema featureSchemaFileName (schemaDeclaration operation) (st_schemas st) ;;
  let imported := schemasImports st ++ namedImportNames operation in
  let schemaRef := featureSchemaFileName +:+ "." +:+ schemaName in
  let output := formatOutput operation in
  b <- classifyInputs operation ;;
  if String.eqb (type operation) "sse" then
    let input := "z.infer<typeof " +:+ schemaRef +:+ ">" in
    let endpoint := endpointOf EmptyString operation in
    Ok {| emitter := emitter st;
          streamEmitter :=
            Emitter.addEndpoint
              (Emitter.addImport (streamEmitter st)
                 ("import type {" +:+ pascalcase (name operation) +:+ "} from './outputs/" +:+
                  spinalcase (name operation) +:+ "';"))
              endpoint (streamEndpointText input (use output));
          st_schemas := all;
          schemasImports := imported;
          schemaEndpoint :=
            SchemaEndpoint.addEndpoint (schemaEndpoint st) endpoint
              (streamRequestText schemaRef endpoint b);
          st_errors := st_errors st |}
  else
    let emitter1 :=
      Emitter.addImport (emitter st)
        ("import type {" +:+ import output +:+ "} from './outputs/" +:+
         spinalcase (name operation) +:+ "';") in
    let both :=
      fold_left (addVariant operation schemaRef b) (map fst (schemas operation))
        (emitter1, schemaEndpoint st) in
    Ok {| emitter := both.1;
          streamEmitter := streamEmitter st;
          st_schemas := all;
          schemasImports := imported;
          schemaEndpoint := both.2;
          st_errors := st_errors st ++ default [] (errors operation) |}.

(** The body of [for (const [name, operations] of Object.entries(spec.groups))]. *)
Definition processGroup `{StringCase} (st : State)
    (group : string * list Operation) : result State :=
  let featureSchemaFileName := camelcase group.1 in
  let st1 :=
    {| emitter := Emitter.addImport (emitter st) (groupImport featureSchemaFileName);
       streamEmitter :=
         Emitter.addImport (streamEmitter st) (groupImport featureSchemaFileName);
       st_schemas := obj_set featureSchemaFileName ["import z from 'zod';"] (st_schemas st);
       schemasImports := schemasImports st;
       schemaEndpoint :=
         SchemaEndpoint.addImport (schemaEndpoint st) (groupImport featureSchemaFileName);
       st_errors := st_errors st |} in
  foldM (processOperation featureSchemaFileName) st1 group.2.

Definition errorImport (errs : list string) : string :=
  "import type { " +:+ String.concat ", " (removeDuplicates errs id) +:+
  " } from './response';".

(** The state after the two loops and the final [emitter.addImport]. *)
Definition compile `{StringCase} (spec : Spec) : result State :=
  st <- foldM processGroup initial (groups spec) ;;
  Ok {| emitter := Emitter.addImport (emitter st) (errorImport (st_errors st));
        streamEmitter := streamEmitter st;
        st_schemas := st_schemas st;
        schemasImports := schemasImports st;
        schemaEndpoint := schemaEndpoint st;
        st_errors := st_errors st |}.

Definition zodImport (names : list string) : string :=
  "import {" +:+ arrayText (removeDuplicates names id) +:+ "} from '../zod';".

(** The text of one [inputs/<key>.ts]. *)
Definition schemaModule (spec : Spec) (st : State) (value : list string) : string :=
  String.concat nl
    (List.filter (fun it => negb (isEmpty it))
       (map trim
          ((match schemasImports st with
            | [] => EmptyString
            | _ :: _ => zodImport (schemasImports st)
            end)
           :: (match commonZod spec with
               | Some z =>
                   if isEmpty z then EmptyString
                   else "import * as commonZod from " +:+ dq +:+ "../zod" +:+ dq +:+ ";"
               | None => EmptyString
               end)
           :: value))) +:+ nl.

Definition schemaModules (spec : Spec) (st : State) : list (string * string) :=
  map (fun kv => ("inputs/" +:+ kv.1 +:+ ".ts", schemaModule spec st kv.2))
    (st_schemas st).

(** [Object.fromEntries] followed by the fixed keys of the object literal. *)
Definition artifacts `{Boilerplate} (spec : Spec) (st : State) : list (string * string) :=
  fold_left (fun o kv => obj_set kv.1 kv.2 o)
    (schemaModules spec st ++
     [("backend.ts", backend spec);
      ("parser.ts", parserTxt);
      ("client.ts", clientTxt);
      ("request.ts", requestTxt);
      ("schemas.ts", SchemaEndpoint.complete (schemaEndpoint st));
      ("endpoints.ts", Emitter.complete (emitter st));
      ("response.ts", responseTxt)])
    [].

Definition generateClientSdk `{StringCase} `{Boilerplate} (spec : Spec)
  : result (list (string * string)) :=
  st <- compile spec ;;
  Ok (artifacts spec st).

End Sdk.

(** * Vocabulary of the properties: the serializer and the accumulator *)

Module PathsSpec.
Import Paths.

(** The data model of a structural type node: a literal carries its
    primitive kind, a string, as first child; an object without a child list
    has no field [kind] that names one of the tagged kinds. *)
Definition literalChild (types : list DateType) : bool :=
  match types with
  | DString _ :: _ => true
  | _ => false
  end.

Definition kindIsTag (fields : list (string * DateType)) : bool :=
  match obj_get "kind" fields with
  | Some (DString k) => isTag k
  | _ => false
  end.

Fixpoint wellFormed (d : DateType) : bool :=
  match d with
  | DNull | DUndefined | DString _ => true
  | DNode kind _ _ types =>
      forallb wellFormed types &&
      (if String.eqb kind "literal" then literalChild types else true)
  | DObject fields =>
      forallb (fun kv => match kv with (_, v) => wellFormed v end) fields &&
      negb (kindIsTag fields)
  end.

(** The schema documents: every position that holds a schema holds one of
    these forms again, so that no node of the input, with its [kind] and
    [optional] tags, is part of a document. *)
Inductive SchemaDoc : json -> Prop :=
| SD_type (s : string) : SchemaDoc (JObject [("type", JString s)])
| SD_ref (s : string) : SchemaDoc (JObject [("$ref", JString s)])
| SD_literal (v : option string) (s : string) :
    SchemaDoc (JObject [("enum", JArray [optString v]); ("type", JString s)])
| SD_record (a : json) :
    SchemaDoc a ->
    SchemaDoc (JObject [("type", JString "object"); ("additionalProperties", a)])
| SD_array (a : json) :
    SchemaDoc a ->
    SchemaDoc (JObject [("type", JString "array"); ("items", a)])
| SD_anyOf (l : list json) :
    Forall SchemaDoc l -> SchemaDoc (JObject [("anyOf", JArray l)])
| SD_allOf (l : list json) :
    Forall SchemaDoc l -> SchemaDoc (JObject [("allOf", JArray l)])
| SD_empty : SchemaDoc (JObject [])
| SD_object (props : list (string * json)) :
    Forall (fun kv => SchemaDoc kv.2) props ->
    SchemaDoc (JObject [("type", JString "object"); ("properties", JObject props);
                        ("additionalProperties", JBool false)]).

(** The loop [props[key] = toSchema(value)] of the last branch. *)
Fixpoint serializeFields (l : list (string * DateType)) (props : list (string * json))
  : result (list (string * json)) :=
  match l with
  | [] => Ok props
  | (key, value) :: l' =>
      bind (toSchema value) (fun s => serializeFields l' (obj_set key s props))
  end.

(** [existing.oneOf] is not truthy. *)
Definition noUnion (j : json) : Prop :=
  match j with
  | JObject props => obj_get "oneOf" props = None
  | _ => False
  end.

(** Inputs of the examples. *)
Definition reportList : DateType :=
  DNode "array" false None [DString "#/components/schemas/Report"].

Definition reportAs (ct : string) : ResponseItem :=
  {| statusCode := "200"; response := Some reportList; contentType := ct;
     headers := [] |}.

Definition itemsNode : DateType :=
  DObject [("items", DNode "array" false None [DString "#/Item"])].

(** A runtime that rejects every expression. *)
Definition noRuntime : Evaluator := fun _ _ => Throw (Rejected "no runtime").

(** A hook that records its calls and returns a fragment for [/extra]. *)
Definition extraOperation : OperationObject :=
  {| operationId := "extra"; parameters := []; oo_tags := None;
     oo_description := None; requestBody := None; oo_responses := None |}.

Definition extraFragment : PathsObject :=
  {[ "/extra" := {[ "get" := extraOperation ]} ]}.

Definition recordingHook : OnOperation (list (string * string * string)) :=
  fun calls sourceFile method path _ =>
    (Some extraFragment, calls ++ [(sourceFile, methodName method, path)]).

(** The same accumulator without its hook. *)
Definition withoutHook {HookState : Type} (this : Paths HookState) : Paths HookState :=
  {| commonZodImport := commonZodImport this; onOperation := None;
     operations := operations this |}.

End PathsSpec.

(** * Vocabulary of the properties: the compiler *)

Module SdkSpec.
Import Sdk.

Definition isStream (operation : Operation) : bool :=
  String.eqb (type operation) "sse".

Definition allOperations (spec : Spec) : list Operation :=
  flat_map snd (groups spec).

Definition declaredErrors (operation : Operation) : list string :=
  default [] (errors operation).

(** The buckets of an operation whose inputs classify. *)
Definition bucketsOf (operation : Operation) : Buckets :=
  match classifyInputs operation with
  | Ok b => b
  | Throw _ => noBuckets
  end.

(** How often [x] occurs in a bucket. *)
Definition occurrences (x : string) (l : list string) : nat :=
  length (List.filter (String.eqb x) l).

Definition isHeaderSource (src : string) : bool :=
  String.eqb src "headers" || String.eqb src "header".

(** The quoted names of the inputs whose source satisfies [from], in
    declaration order. *)
Definition fieldsFrom (from : string -> bool) (operation : Operation) : list string :=
  map (fun e => quoted e.1) (List.filter (fun e => from (source e.2)) (inputs operation)).

Definition recognised (src : string) : bool :=
  existsb (String.eqb src) ["headers"; "header"; "query"; "body"; "path"; "internal"].

Definition schemaRefOf `{StringCase} (file : string) (operation : Operation) : string :=
  file +:+ "." +:+ camelcase (name operation +:+ " schema").

(** The content-type prefix of a key: present when the operation has more
    than one schema variant and the variant is not [json]. *)
Definition typePrefixOf (operation : Operation) (type : string) : string :=
  if (1 <? length (schemas operation)) && negb (String.eqb type "json")
  then type +:+ " " else EmptyString.

Definition variantSuffix (operation : Operation) (type : string) : string :=
  if 1 <? length (schemas operation) then "." +:+ type else EmptyString.

(** The keys of an operation: one per schema variant for a standard
    operation, a single key without prefix for a streaming one. *)
Definition endpointKeys (operation : Operation) : list string :=
  if isStream operation
  then [toUpperCase (method (trigger operation)) +:+ " " +:+ path (trigger operation)]
  else map (fun type => typePrefixOf operation type +:+
                        toUpperCase (method (trigger operation)) +:+ " " +:+
                        path (trigger operation))
         (map fst (schemas operation)).

(** The operation with another declared content type and other schema
    variants. *)
Definition withEncoding (ct : option string) (variants : list (string * string))
    (operation : Operation) : Operation :=
  {| name := name operation; errors := errors operation; type := type operation;
     imports := imports operation; trigger := trigger operation;
     contentType := ct; schemas := variants; inputs := inputs operation;
     formatOutput := formatOutput operation |}.

(** One call pair [addEndpoint(endpoint, ...)]: the registry text and the
    dispatch text pushed under the key [key]. *)
Record Entry : Type := {
  stream : bool;
  key : string;
  registryText : string;
  dispatchText : string
}.

Definition registryLine (e : Entry) : string := Emitter.entry (key e) (registryText e).
Definition dispatchLine (e : Entry) : string :=
  SchemaEndpoint.entry (key e) (dispatchText e).

Definition variantEntry `{StringCase} (file : string) (operation : Operation)
    (type : string) : Entry :=
  let input := "typeof " +:+ schemaRefOf file operation +:+ variantSuffix operation type in
  let endpoint := endpointOf (typePrefixOf operation type) operation in
  {| stream := false;
     key := endpoint;
     registryText := endpointText input (use (formatOutput operation))
                       (errorUnion operation input);
     dispatchText := requestText (schemaRefOf file operation +:+
                                  variantSuffix operation type)
                       endpoint (encoderOf operation) (bucketsOf operation) |}.

Definition streamEntry `{StringCase} (file : string) (operation : Operation) : Entry :=
  let endpoint := endpointOf EmptyString operation in
  {| stream := true;
     key := endpoint;
     registryText := streamEndpointText
                       ("z.infer<typeof " +:+ schemaRefOf file operation +:+ ">")
                       (use (formatOutput operation));
     dispatchText := streamRequestText (schemaRefOf file operation) endpoint
                       (bucketsOf operation) |}.

Definition operationEntries `{StringCase} (file : string) (operation : Operation)
  : list Entry :=
  if isStream operation then [streamEntry file operation]
  else map (variantEntry file operation) (map fst (schemas operation)).

Definition groupEntries `{StringCase} (group : string * list Operation) : list Entry :=
  flat_map (operationEntries (camelcase group.1)) group.2.

Definition specEntries `{StringCase} (spec : Spec) : list Entry :=
  flat_map groupEntries (groups spec).

Definition outputImport `{StringCase} (operation : Operation) : string :=
  "import type {" +:+ import (formatOutput operation) +:+ "} from './outputs/" +:+
  spinalcase (name operation) +:+ "';".

Definition streamImport `{StringCase} (operation : Operation) : string :=
  "import type {" +:+ pascalcase (name operation) +:+ "} from './outputs/" +:+
  spinalcase (name operation) +:+ "';".

(** The import lines a group adds to the standard registry and to the
    streaming registry. *)
Definition groupEmitterImports `{StringCase} (group : string * list Operation)
  : list string :=
  groupImport (camelcase group.1) ::
  map outputImport (List.filter (fun o => negb (isStream o)) group.2).

Definition groupStreamImports `{StringCase} (group : string * list Operation)
  : list string :=
  groupImport (camelcase group.1) :: map streamImport (List.filter isStream group.2).

Definition standardErrors (spec : Spec) : list string :=
  flat_map declaredErrors (List.filter (fun o => negb (isStream o)) (allOperations spec)).

Definition allNamedImports (spec : Spec) : list string :=
  flat_map namedImportNames (allOperations spec).

(** The specification with its streaming operations removed, and with
    them alone; the groups stay. *)
Definition dropStreams (spec : Spec) : Spec :=
  {| groups := map (fun g => (g.1, List.filter (fun o => negb (isStream o)) g.2)) (groups spec);
     commonZod := commonZod spec; spec_name := spec_name spec;
     options := options spec; securityScheme := securityScheme spec |}.

Definition onlyStreams (spec : Spec) : Spec :=
  {| groups := map (fun g => (g.1, List.filter isStream g.2)) (groups spec);
     commonZod := commonZod spec; spec_name := spec_name spec;
     options := options spec; securityScheme := securityScheme spec |}.

(** [schemas[file]] exists. *)
Definition keyPresent (file : string) (st : State) : Prop :=
  exists lines, obj_get file (st_schemas st) = Some lines.

Definition classifies (operation : Operation) : Prop :=
  classifyInputs operation = Ok (bucketsOf operation).

Definition rejected (operation : Operation) : Prop :=
  exists fieldName prop,
    In (fieldName, prop) (inputs operation) /\ recognised (source prop) = false /\
    classifyInputs operation =
    Throw (Error (unknownSourceMessage fieldName prop (name operation))).

(** The error union as the specification words it: the declared
    identifiers, the fallback when none is declared, and the parse error. *)
Definition errorUnionWithFallback (operation : Operation) (input : string)
  : list string :=
  (match declaredErrors operation with
   | [] => ["ServerError"]
   | l => l
   end) ++ ["ParseError<" +:+ input +:+ ">"].

(** Every schema module starts with the shared import line. *)
Definition sharedImportFirst (spec : Spec) (st : State) : Prop :=
  forall file text,
    In (file, text) (schemaModules spec st) ->
    exists rest, text = zodImport (allNamedImports spec) +:+ nl +:+ rest.

(** Streaming operations leave the standard registry, the dispatch table
    and the collected errors as they are without them. *)
Definition streamsApart `{StringCase} (spec : Spec) : Prop :=
  forall st st',
    compile spec = Ok st -> compile (dropStreams spec) = Ok st' ->
    emitter st = emitter st' /\ schemaEndpoint st = schemaEndpoint st' /\
    st_errors st = st_errors st'.

(** ** An instance of the case conversions for closed examples

    Words are split at spaces, dashes, underscores and dots; on the
    single-word lower-case names of the examples these agree with the
    [stringcase] package. *)
Definition isSeparator (c : ascii) : bool :=
  existsb (Ascii.eqb c) [" "; "-"; "_"; "."]%char.

Definition lowerChar (c : ascii) : ascii :=
  let n := nat_of_ascii c in
  if (65 <=? n) && (n <=? 90) then ascii_of_nat (n + 32) else c.

Fixpoint joinWords (up : bool) (s : string) : string :=
  match s with
  | EmptyString => EmptyString
  | String c s' =>
      if isSeparator c then joinWords true s'
      else String (if up then upperChar c else c) (joinWords false s')
  end.

Definition lowerFirst (s : string) : string :=
  match s with
  | EmptyString => EmptyString
  | String c s' => String (lowerChar c) s'
  end.

Fixpoint dashWords (s : string) : string :=
  match s with
  | EmptyString => EmptyString
  | String c s' =>
      if isSeparator c then String "-"%char (dashWords s')
      else String (lowerChar c) (dashWords s')
  end.

Definition asciiCase : StringCase :=
  {| camelcase := fun s => lowerFirst (joinWords false s);
     pascalcase := joinWords true;
     spinalcase := dashWords |}.

Definition plainBoilerplate : Boilerplate :=
  {| backend := fun _ => "// backend";
     clientTxt := "// client";
     parserTxt := "// parser";
     requestTxt := "// request";
     responseTxt := "// response" |}.

(** ** Inputs of the examples *)

Definition operationOf (n ty : string) (errs : option (list string))
    (ct : option string) (variants : list (string * string))
    (ins : list (string * OperationInput)) (imps : list ImportDecl) : Operation :=
  {| name := n; errors := errs; type := ty; imports := imps;
     trigger := {| method := "get"; path := "/" +:+ n |};
     contentType := ct; schemas := variants; inputs := ins;
     formatOutput := {| import := "Out"; use := "Out" |} |}.

Definition specOf (gs : list (string * list Operation)) : Spec :=
  {| groups := gs; commonZod := None; spec_name := None; options := [];
     securityScheme := None |}.

Definition jsonOnly : list (string * string) := [("json", "z.object({})")].

Definition listOp : Operation :=
  operationOf "list" "http" (Some []) None jsonOnly [] [].

Definition watchOp : Operation :=
  operationOf "watch" "sse" (Some ["Gone"]) (Some "formdata")
    [("json", "z.object({})"); ("formdata", "z.object({})")]
    [("since", {| source := "query"; schema := "z.string()" |})] [].

Definition uploadOp : Operation :=
  operationOf "upload" "http" (Some ["TooLarge"; "Denied"; "TooLarge"]) (Some "formdata")
    [("json", "z.object({})"); ("formdata", "z.object({})")]
    [("id", {| source := "path"; schema := "z.string()" |});
     ("trace", {| source := "header"; schema := "z.string()" |});
     ("tenant", {| source := "internal"; schema := "z.string()" |})]
    [{| isTypeOnly := false; moduleSpecifier := "../zod"; defaultImport := None;
        namedImports := Some [{| ni_name := "fileSchema"; ni_alias := None;
                                 ni_isTypeOnly := false |}];
        namespaceImport := None |}].

Definition brokenOp : Operation :=
  operationOf "broken" "http" None None jsonOnly
    [("page", {| source := "cookie"; schema := "z.string()" |})] [].

(** The state in which the operations of the group [users] are processed. *)
Definition usersStarted : State :=
  {| emitter := Emitter.new; streamEmitter := Emitter.new;
     st_schemas := [("users", ["import z from 'zod';"])];
     schemasImports := []; schemaEndpoint := SchemaEndpoint.new; st_errors := [] |}.

Definition pingOp : Operation :=
  operationOf "ping" "http" None None jsonOnly [] [].

Definition plainSpec : Spec := specOf [("users", [listOp])].
Definition pingSpec : Spec := specOf [("users", [pingOp])].
Definition mixedSpec : Spec := specOf [("users", [listOp; watchOp]); ("files", [uploadOp])].
Definition brokenSpec : Spec := specOf [("users", [listOp; brokenOp])].

End SdkSpec.

(** * Vocabulary of further properties: the serializer and the accumulator *)

Module PathsShapes.
Import Paths PathsSpec.

(** The nodes on which the serializer returns: every position it
    serializes is serializable.  A literal serializes no child, a record its
    first child only; an array, a union, an intersection and an untagged
    node serialize all their children, also those they do not use. *)
Fixpoint serializable (d : DateType) : bool :=
  match d with
  | DNull | DUndefined | DString _ => true
  | DNode kind _ _ types =>
      if String.eqb kind "literal" then true
      else if String.eqb kind "record" then
        match types with
        | t :: _ => serializable t
        | [] => true
        end
      else forallb serializable types
  | DObject fields =>
      negb (kindIsTag fields) &&
      forallb (fun kv => match kv with (_, v) => serializable v end) fields
  end.

(** The fields of a composite, each serialized, in order. *)
Definition serializedFields (fields : list (string * DateType))
  : result (list (string * json)) :=
  mapM (fun kv => bind (toSchema kv.2) (fun s => Ok (kv.1, s))) fields.

(** ** The schema a pair of status code and content type ends with *)

(** The schema of an item, [{}] where its serialization throws. *)
Definition schemaOf (item : ResponseItem) : json :=
  match itemSchema item with
  | Ok s => s
  | Throw _ => schemaEmpty
  end.

Definition sameJson (a b : json) : bool :=
  sameText (JSON_stringify a) (JSON_stringify b).

(** The schemas of a list that differ in their JSON text, each at its
    first occurrence. *)
Definition distinctSchemas (l : list json) : list json :=
  fold_left (fun acc s => if existsb (fun it => sameJson it s) acc then acc else acc ++ [s])
    l [].

(** One schema stands for itself, several form a union. *)
Definition unionOf (l : list json) : json :=
  match distinctSchemas l with
  | [s] => s
  | members => JObject [("oneOf", JArray members)]
  end.

(** The schemas added under the pair [(sc, ct)], in order; [seen] tells
    whether an item with status code [sc] came before.  The item that opens
    the status code adds the binary schema when its content type is
    [application/octet-stream]. *)
Fixpoint contributions (sc ct : string) (seen : bool) (items : list ResponseItem)
  : list json :=
  match items with
  | [] => []
  | item :: rest =>
      if String.eqb (statusCode item) sc then
        (if String.eqb (contentType item) ct
         then [if negb seen && isOctetStream ct then schemaBinary else schemaOf item]
         else []) ++ contributions sc ct true rest
      else contributions sc ct seen rest
  end.

Definition expectedSchema (items : list ResponseItem) (sc ct : string) : option json :=
  match contributions sc ct false items with
  | [] => None
  | added => Some (unionOf added)
  end.

(** The first item with status code [sc]. *)
Definition firstWith (sc : string) (items : list ResponseItem) : option ResponseItem :=
  find (fun item => String.eqb (statusCode item) sc) items.

(** The response type of an item serializes (an item without response
    type, or with a falsy one, gets [{}]). *)
Definition itemSerializable (item : ResponseItem) : bool :=
  match response item with
  | Some d => negb (truthyNode d) || serializable d
  | None => true
  end.

(** Neither key of the item names a member of [Object.prototype]. *)
Definition ownKeyed (item : ResponseItem) : bool :=
  negb (inherited (statusCode item)) && negb (inherited (contentType item)).

Definition responseOf (sc : string) (d : option DateType) (ct : string) (hs : list string)
  : ResponseItem :=
  {| statusCode := sc; response := d; contentType := ct; headers := hs |}.

Definition sampleResponses : list ResponseItem :=
  [responseOf "200" (Some reportList) "application/json" ["x-total"];
   responseOf "404" None "application/json" [];
   responseOf "200" (Some reportList) "application/json" ["x-other"];
   responseOf "200" (Some (DNode "text" false None [DString "string"])) "text/plain" [];
   responseOf "200" (Some (DNode "ref" false None [DString "#/components/schemas/Problem"]))
     "application/json" []].

(** ** Operations *)

Definition isBody (s : Selector) : bool :=
  match sel_source s with
  | S_body => true
  | _ => false
  end.

(** The operation object [getPaths] builds for an accumulated operation. *)
Definition operationObjectOf `{Evaluator} (commonZod : option string)
    (operation : OperationEntry) : OperationObject :=
  match selectosToParameters commonZod (op_selectors operation) with
  | Ok ps => buildOperationObject operation ps.1 ps.2
  | Throw _ => buildOperationObject operation [] []
  end.

(** The schema a selector evaluates to. *)
Definition schemaFor `{Evaluator} (commonZod : option string) (selector : Selector)
  : json :=
  match evalZod (sel_against selector) commonZod with
  | Ok s => s
  | Throw _ => JObject []
  end.

Definition evaluates `{Evaluator} (commonZod : option string) (selector : Selector)
  : bool :=
  match evalZod (sel_against selector) commonZod with
  | Ok _ => true
  | Throw _ => false
  end.

Definition parameterOf `{Evaluator} (commonZod : option string) (selector : Selector)
  : ParameterObject :=
  {| p_in := semanticSourceToOpenAPI (sel_source selector);
     p_name := sel_name selector;
     p_required := sel_required selector;
     p_schema := schemaFor commonZod selector |}.

Definition parametersOf `{Evaluator} (commonZod : option string)
    (selectors : list Selector) : list ParameterObject :=
  map (parameterOf commonZod) (List.filter (fun s => negb (isBody s)) selectors).

Definition bodyPropsOf `{Evaluator} (commonZod : option string)
    (selectors : list Selector) : list (string * json) :=
  fold_left (fun acc s => obj_set (sel_name s) (schemaFor commonZod s) acc)
    (List.filter isBody selectors) [].


Definition sameSlot (path : string) (method : Method) (operation : OperationEntry) : bool :=
  String.eqb (op_path operation) path &&
  String.eqb (methodName (op_method operation)) (methodName method).

(** A runtime that maps every expression to the same object. *)
Definition constantRuntime (props : list (string * json)) : Evaluator :=
  fun _ _ => Ok props.

Definition limitSelector : Selector :=
  {| sel_name := "limit"; sel_select := "limit"; sel_against := "z.number().optional()";
     sel_source := S_query; sel_nullable := false; sel_required := false |}.

Definition titleSelector : Selector :=
  {| sel_name := "title"; sel_select := "title"; sel_against := "z.string()";
     sel_source := S_body; sel_nullable := false; sel_required := true |}.

(** The state in which the calls of the hook of [this] leave the hook. *)
Definition hookRun `{Evaluator} {HookState : Type} (this : Paths HookState)
    (entries : list OperationEntry) (hs : HookState) : HookState :=
  fold_left
    (fun s operation =>
       match onOperation this with
       | Some hook =>
           (hook s (op_sourceFile operation) (op_method operation) (op_path operation)
              (operationObjectOf (commonZodImport this) operation)).2
       | None => s
       end)
    entries hs.

Definition silentHook : OnOperation unit :=
  fun _ _ _ _ _ => (None, tt).

Definition entryOf (name path : string) (method : Method) (selectors : list Selector)
  : OperationEntry :=
  {| op_sourceFile := "routes.ts"; op_name := name; op_path := path;
     op_method := method; op_selectors := selectors; op_responses := ∅;
     op_tags := None; op_description := None |}.

(** Three accumulated operations, two of them in the slot [GET /items]. *)
Definition sampleEntries : list OperationEntry :=
  [entryOf "listItems" "/items" M_get [limitSelector];
   entryOf "createItem" "/items" M_post [titleSelector];
   entryOf "searchItems" "/items" M_get [limitSelector; titleSelector]].

Definition samplePaths (hook : option (OnOperation unit)) : Paths unit :=
  {| commonZodImport := None; onOperation := hook; operations := sampleEntries |}.

Definition samplePaths' {HookState : Type} (hook : OnOperation HookState)
  : Paths HookState :=
  {| commonZodImport := None; onOperation := Some hook; operations := sampleEntries |}.

Definition numberRuntime : Evaluator :=
  constantRuntime [("$schema", JString "http://json-schema.org/draft-07/schema#");
                   ("type", JString "number")].

End PathsShapes.

(** * Shapes of the properties: the compiler *)

Module SdkShapes.
Import Sdk SdkSpec.

Definition unrecognisedInput (e : string * OperationInput) : bool :=
  negb (recognised (source e.2)).

(** The first input with an unrecognised source, and its operation, in
    the order of the operations and of their inputs. *)
Fixpoint firstUnrecognised (ops : list Operation)
  : option (Operation * (string * OperationInput)) :=
  match ops with
  | [] => None
  | o :: ops' =>
      match find unrecognisedInput (inputs o) with
      | Some e => Some (o, e)
      | None => firstUnrecognised ops'
      end
  end.

(** The number of [addEndpoint] call pairs of an operation. *)
Definition entryCount (operation : Operation) : nat :=
  if isStream operation then 1 else length (schemas operation).

(** What a group leaves under its file name in [schemas]. *)
Definition moduleLines `{StringCase} (group : string * list Operation) : list string :=
  "import z from 'zod';" :: map schemaDeclaration group.2.

Definition sameFile `{StringCase} (file : string) (group : string * list Operation)
  : bool :=
  String.eqb (camelcase group.1) file.

(** The strings of a list, each at its first occurrence. *)
Definition distinctKeys (l : list string) : list string :=
  fold_left (fun acc k => if existsb (String.eqb k) acc then acc else acc ++ [k]) l [].

(** [schemas] after the loop over the groups, as assignments only. *)
Definition schemaTable `{StringCase} (spec : Spec) : list (string * list string) :=
  fold_left (fun acc g => obj_set (camelcase g.1) (moduleLines g) acc) (groups spec) [].

(** The lines every schema module starts with. *)
Definition sharedLines (spec : Spec) : list string :=
  (match allNamedImports spec with
   | [] => []
   | _ :: _ => [zodImport (allNamedImports spec)]
   end) ++
  (match commonZod spec with
   | Some z =>
       if isEmpty z then []
       else ["import * as commonZod from " +:+ dq +:+ "../zod" +:+ dq +:+ ";"]
   | None => []
   end).

Definition moduleText (spec : Spec) (lines : list string) : string :=
  String.concat nl (sharedLines spec ++ lines) +:+ nl.

Definition inputsFile (file : string) : string := "inputs/" +:+ file +:+ ".ts".

Definition endpointsText `{StringCase} (spec : Spec) : string :=
  Emitter.complete
    {| Emitter.imports :=
         Emitter.imports Emitter.new ++ flat_map groupEmitterImports (groups spec) ++
         [errorImport (standardErrors spec)];
       Emitter.endpoints :=
         map registryLine (List.filter (fun e => negb (stream e)) (specEntries spec)) |}.

Definition schemasText `{StringCase} (spec : Spec) : string :=
  SchemaEndpoint.complete
    {| SchemaEndpoint.imports :=
         SchemaEndpoint.imports SchemaEndpoint.new ++
         map (fun g => groupImport (camelcase g.1)) (groups spec);
       SchemaEndpoint.endpoints := map dispatchLine (specEntries spec) |}.

Definition fixedArtifacts `{StringCase} `{Boilerplate} (spec : Spec)
  : list (string * string) :=
  [("backend.ts", backend spec);
   ("parser.ts", parserTxt);
   ("client.ts", clientTxt);
   ("request.ts", requestTxt);
   ("schemas.ts", schemasText spec);
   ("endpoints.ts", endpointsText spec);
   ("response.ts", responseTxt)].

Definition expectedArtifacts `{StringCase} `{Boilerplate} (spec : Spec)
  : list (string * string) :=
  map (fun kv => (inputsFile kv.1, moduleText spec kv.2)) (schemaTable spec) ++
  fixedArtifacts spec.

(** Two groups whose names give the same file name. *)
Definition collidingSpec : Spec :=
  specOf [("users", [listOp]); ("files", [uploadOp]); ("Users", [pingOp])].

End SdkShapes.

(** * Facts about the result monad and lists *)

Lemma bind_Ok {A B : Type} (r : result A) (k : A -> result B) (b : B) :
  bind r k = Ok b -> exists a, r = Ok a /\ k a = Ok b.
Proof. destruct r as [a|e]; simpl; [eauto | discriminate]. Qed.

(** A loop whose body appends [contrib x] to a component of the state
    appends the contributions of all elements, in order. *)
Lemma foldM_appends {S A B : Type} (body : S -> A -> result S) (proj : S -> list B)
    (contrib : A -> list B) (good : S -> Prop) :
  (forall st x st', good st -> body st x = Ok st' ->
                    good st' /\ proj st' = proj st ++ contrib x) ->
  forall xs st st', good st -> foldM body st xs = Ok st' ->
                    good st' /\ proj st' = proj st ++ flat_map contrib xs.
Proof.
  intros Hstep. induction xs as [|x xs IH]; intros st st' Hgood; simpl.
  - intros Heq. injection Heq as <-. by rewrite app_nil_r.
  - intros Hrun. apply bind_Ok in Hrun as (st1 & Hx & Hrun).
    destruct (Hstep _ _ _ Hgood Hx) as [Hgood1 Hproj1].
    destruct (IH _ _ Hgood1 Hrun) as [Hgood' Hproj'].
    split; [done|]. by rewrite Hproj', Hproj1, <- app_assoc.
Qed.

Lemma map_flat_map {A B C : Type} (f : B -> C) (g : A -> list B) (l : list A) :
  map f (flat_map g l) = flat_map (fun x => map f (g x)) l.
Proof. induction l as [|x l IH]; simpl; [done|]. by rewrite map_app, IH. Qed.

Lemma filter_flat_map {A B : Type} (p : B -> bool) (g : A -> list B) (l : list A) :
  List.filter p (flat_map g l) = flat_map (fun x => List.filter p (g x)) l.
Proof. induction l as [|x l IH]; simpl; [done|]. by rewrite List.filter_app, IH. Qed.

Lemma flat_map_flat_map {A B C : Type} (f : B -> list C) (g : A -> list B) (l : list A) :
  flat_map f (flat_map g l) = flat_map (fun x => flat_map f (g x)) l.
Proof. induction l as [|x l IH]; simpl; [done|]. by rewrite flat_map_app, IH. Qed.

(** * Facts about the serializer and the accumulator *)

Module PathsFacts.
Import Paths PathsSpec.

(** ** Induction on nodes, through the child lists *)

Section NodeInduction.
Variable P : DateType -> Prop.
Hypothesis Hnull : P DNull.
Hypothesis Hundefined : P DUndefined.
Hypothesis Hstring : forall s, P (DString s).
Hypothesis Hnode :
  forall kind optional value types,
    Forall P types -> P (DNode kind optional value types).
Hypothesis Hobject :
  forall fields, Forall (fun kv => P kv.2) fields -> P (DObject fields).

Lemma DateType_nested_ind : forall d, P d.
Proof using All.
  fix IH 1. intros [| | s | kind optional value types | fields].
  - exact Hnull.
  - exact Hundefined.
  - apply Hstring.
  - apply Hnode.
    induction types as [|t types IHt]; constructor; [apply IH | exact IHt].
  - apply Hobject.
    induction fields as [|[k v] fields IHf]; constructor; [apply IH | exact IHf].
Qed.
End NodeInduction.

(** ** The serializer on well-formed nodes *)

Lemma toSchema_node kind optional value types :
  toSchema (DNode kind optional value types) =
  if String.eqb kind "literal" then
    Ok (JObject [("enum", JArray [optString value]);
                 ("type", match types with
                          | t :: _ => rawJson t
                          | [] => JUndefined
                          end)])
  else if String.eqb kind "record" then
    bind (match types with
          | t :: _ => toSchema t
          | [] => Ok schemaAny
          end)
      (fun a => Ok (JObject [("type", JString "object"); ("additionalProperties", a)]))
  else if String.eqb kind "array" then
    bind (mapM toSchema types)
      (fun items => Ok (JObject [("type", JString "array");
                                 ("items", firstOr schemaEmpty items)]))
  else if String.eqb kind "union" then
    bind (mapM toSchema types) (fun items => Ok (JObject [("anyOf", JArray items)]))
  else if String.eqb kind "intersection" then
    bind (mapM toSchema types) (fun items => Ok (JObject [("allOf", JArray items)]))
  else
    bind (mapM toSchema types) (fun items => Ok (firstOr schemaEmpty items)).
Proof. reflexivity. Qed.

Lemma toSchema_object fields :
  toSchema (DObject fields) =
  if kindIsTag fields then Throw (TypeError "Cannot read properties of undefined")
  else bind (serializeFields fields [])
         (fun props =>
            Ok (JObject [("type", JString "object"); ("properties", JObject props);
                         ("additionalProperties", JBool false)])).
Proof.
  assert (Hloop : forall l props,
             (fix go (l : list (string * DateType)) (props : list (string * json))
                : result (list (string * json)) :=
                match l with
                | [] => Ok props
                | (key, value) :: l' =>
                    bind (toSchema value) (fun s => go l' (obj_set key s props))
                end) l props = serializeFields l props).
  { induction l as [|[k v] l IH]; intros props; simpl; [done|].
    destruct (toSchema v); simpl; [apply IH | done]. }
  unfold kindIsTag. cbn [toSchema]. rewrite Hloop.
  destruct (obj_get "kind" fields) as [[| | k | |]|]; reflexivity.
Qed.

Lemma obj_set_Forall {V : Type} (P : string * V -> Prop) k v (o : list (string * V)) :
  P (k, v) -> Forall P o -> Forall P (obj_set k v o).
Proof.
  intros Hkv Ho. induction Ho as [|[k' v'] o Hx Ho IH]; simpl.
  - by constructor.
  - destruct (String.eqb k k'); constructor; auto.
Qed.

Lemma mapM_schema types :
  Forall (fun d => wellFormed d = true -> exists j, toSchema d = Ok j /\ SchemaDoc j) types ->
  forallb wellFormed types = true ->
  exists js, mapM toSchema types = Ok js /\ Forall SchemaDoc js.
Proof.
  induction 1 as [|t types Ht _ IH]; simpl; intros Hwf.
  - exists []. split; [done | constructor].
  - apply andb_true_iff in Hwf as [Hwt Hws].
    destruct (Ht Hwt) as (j & -> & Hj). destruct (IH Hws) as (js & Hjs & HF).
    simpl. fold (mapM toSchema types). rewrite Hjs. simpl.
    exists (j :: js). split; [done | by constructor].
Qed.

Lemma serializeFields_schema fields :
  Forall (fun kv => wellFormed kv.2 = true ->
                    exists j, toSchema kv.2 = Ok j /\ SchemaDoc j) fields ->
  forallb (fun kv => match kv with (_, v) => wellFormed v end) fields = true ->
  forall props, Forall (fun kv => SchemaDoc kv.2) props ->
  exists props', serializeFields fields props = Ok props' /\
                 Forall (fun kv => SchemaDoc kv.2) props'.
Proof.
  induction 1 as [|[k v] fields Hv _ IH]; simpl; intros Hwf props Hprops.
  - eauto.
  - apply andb_true_iff in Hwf as [Hwv Hws]. simpl in Hv.
    destruct (Hv Hwv) as (j & -> & Hj). simpl.
    apply IH; [done|]. by apply obj_set_Forall.
Qed.

Lemma firstOr_schema items :
  Forall SchemaDoc items -> SchemaDoc (firstOr schemaEmpty items).
Proof. destruct 1; simpl; [constructor | done]. Qed.

Lemma toSchema_wellFormed d :
  wellFormed d = true -> exists j, toSchema d = Ok j /\ SchemaDoc j.
Proof.
  induction d as [| | s | kind optional value types IH | fields IH]
    using DateType_nested_ind; intros Hwf.
  - eexists; split; [reflexivity | constructor].
  - eexists; split; [reflexivity | constructor].
  - simpl. destruct (startsWith "#" s); eexists; split; try reflexivity; constructor.
  - cbn [wellFormed] in Hwf. apply andb_true_iff in Hwf as [Hts Hlit].
    rewrite toSchema_node.
    destruct (mapM_schema types IH Hts) as (js & Hjs & HF).
    destruct (String.eqb kind "literal").
    { destruct types as [|[| | s | |] types]; try discriminate.
      eexists; split; [reflexivity | constructor]. }
    destruct (String.eqb kind "record").
    { destruct types as [|t types].
      - eexists; split; [reflexivity|]. constructor. constructor.
      - apply andb_true_iff in Hts as [Ht _].
        apply Forall_cons in IH as [IHt _].
        destruct (IHt Ht) as (j & -> & Hj). simpl.
        eexists; split; [reflexivity | by constructor]. }
    rewrite Hjs. simpl.
    destruct (String.eqb kind "array").
    { eexists; split; [reflexivity|]. constructor. by apply firstOr_schema. }
    destruct (String.eqb kind "union").
    { eexists; split; [reflexivity | by constructor]. }
    destruct (String.eqb kind "intersection").
    { eexists; split; [reflexivity | by constructor]. }
    eexists; split; [reflexivity | by apply firstOr_schema].
  - cbn [wellFormed] in Hwf. apply andb_true_iff in Hwf as [Hfs Hkind].
    rewrite toSchema_object. apply negb_true_iff in Hkind. rewrite Hkind.
    destruct (serializeFields_schema fields IH Hfs [] (Forall_nil_2 _))
      as (props & -> & Hprops).
    simpl. eexists; split; [reflexivity | by constructor].
Qed.

(** Outside the data model the serializer is partial, and a literal hands
    its first child over as it is. *)
Example toSchema_untagged_kind_field :
  toSchema (DObject [("kind", DString "array")]) =
  Throw (TypeError "Cannot read properties of undefined").
Proof. reflexivity. Qed.

Example toSchema_literal_node_child :
  toSchema (DNode "literal" false (Some "a") [DNode "array" false None []]) =
  Ok (JObject [("enum", JArray [JString "a"]);
               ("type", JObject [("kind", JString "array"); ("optional", JBool false);
                                 ("value", JUndefined)])]).
Proof. reflexivity. Qed.

(** The example of the specification: a composite with an array of
    references. *)
Example toSchema_items :
  toSchema itemsNode =
  Ok (JObject [("type", JString "object");
               ("properties",
                JObject [("items", JObject [("type", JString "array");
                                            ("items", JObject [("$ref", JString "#/Item")])])]);
               ("additionalProperties", JBool false)]).
Proof. reflexivity. Qed.

(** C8. The serializer is total on structural type nodes: for every node
    of the data model, whatever its kind, [toSchema] returns a schema
    document, in which every nested position is a schema document again
    and no tag of an input node is left; for [null] and for [undefined] it
    returns exactly [{type: any}]. *)
Theorem toSchema_total (d : DateType) (Hwf : wellFormed d = true) :
  (exists j, toSchema d = Ok j /\ SchemaDoc j) /\
  toSchema DNull = Ok (JObject [("type", JString "any")]) /\
  toSchema DUndefined = Ok (JObject [("type", JString "any")]).
Proof.
  split; [by apply toSchema_wellFormed | split; reflexivity].
Qed.

Lemma toSchema_total_items :
  wellFormed itemsNode = true /\
  ((exists j, toSchema itemsNode = Ok j /\ SchemaDoc j) /\
   toSchema DNull = Ok (JObject [("type", JString "any")]) /\
   toSchema DUndefined = Ok (JObject [("type", JString "any")])).
Proof.
  split; [reflexivity | apply (toSchema_total itemsNode); reflexivity].
Defined.

(** ** Response merging *)

Lemma sameText_refl t : sameText t t = true.
Proof. destruct t; simpl; [apply String.eqb_refl | done]. Qed.

(** No schema the serializer returns has a [oneOf] member. *)
Lemma firstOr_noUnion items :
  Forall noUnion items -> noUnion (firstOr schemaEmpty items).
Proof. destruct 1; simpl; done. Qed.

Lemma mapM_noUnion types js :
  Forall (fun d => forall j, toSchema d = Ok j -> noUnion j) types ->
  mapM toSchema types = Ok js -> Forall noUnion js.
Proof.
  intros HF. revert js. induction HF as [|t types Ht _ IH]; simpl; intros js Hjs.
  - injection Hjs as <-. constructor.
  - fold (mapM toSchema types) in Hjs.
    apply bind_Ok in Hjs as (j & Hj & Hjs).
    apply bind_Ok in Hjs as (js' & Hjs' & Hjs). injection Hjs as <-.
    constructor; [by apply Ht | by apply IH].
Qed.

Lemma toSchema_noUnion d j : toSchema d = Ok j -> noUnion j.
Proof.
  revert j.
  induction d as [| | s | kind optional value types IH | fields IH]
    using DateType_nested_ind; intros j Hj.
  - injection Hj as <-. reflexivity.
  - injection Hj as <-. reflexivity.
  - simpl in Hj. destruct (startsWith "#" s); injection Hj as <-; reflexivity.
  - rewrite toSchema_node in Hj.
    destruct (String.eqb kind "literal"); [injection Hj as <-; reflexivity|].
    destruct (String.eqb kind "record").
    { apply bind_Ok in Hj as (a & _ & Hj). injection Hj as <-. reflexivity. }
    destruct (String.eqb kind "array").
    { apply bind_Ok in Hj as (a & _ & Hj). injection Hj as <-. reflexivity. }
    destruct (String.eqb kind "union").
    { apply bind_Ok in Hj as (a & _ & Hj). injection Hj as <-. reflexivity. }
    destruct (String.eqb kind "intersection").
    { apply bind_Ok in Hj as (a & _ & Hj). injection Hj as <-. reflexivity. }
    apply bind_Ok in Hj as (items & Hitems & Hj). injection Hj as <-.
    apply firstOr_noUnion. by eapply mapM_noUnion.
  - rewrite toSchema_object in Hj. destruct (kindIsTag fields); [discriminate|].
    apply bind_Ok in Hj as (props & _ & Hj). injection Hj as <-. reflexivity.
Qed.

Lemma itemSchema_noUnion item j : itemSchema item = Ok j -> noUnion j.
Proof.
  unfold itemSchema. destruct (response item) as [d|].
  - destruct (truthyNode d); [apply toSchema_noUnion|].
    intros Hj. injection Hj as <-. reflexivity.
  - intros Hj. injection Hj as <-. reflexivity.
Qed.

(** Equal schemas are coalesced. *)
Lemma mergeSchema_equal existing new :
  noUnion existing ->
  sameText (JSON_stringify existing) (JSON_stringify new) = true ->
  mergeSchema existing new = Ok existing.
Proof.
  destruct existing as [| | | | |props]; simpl; try done.
  intros -> ->. reflexivity.
Qed.

(** A second, different schema makes a two-element union. *)
Lemma mergeSchema_distinct existing new :
  noUnion existing ->
  sameText (JSON_stringify existing) (JSON_stringify new) = false ->
  mergeSchema existing new = Ok (JObject [("oneOf", JArray [existing; new])]).
Proof.
  destruct existing as [| | | | |props]; simpl; try done.
  intros -> ->. reflexivity.
Qed.

Lemma find_none_forallb {A : Type} (f : A -> bool) (l : list A) :
  forallb (fun x => negb (f x)) l = true -> find f l = None.
Proof.
  induction l as [|x l IH]; simpl; [done|].
  intros [Hx Hl]%andb_true_iff. apply negb_true_iff in Hx. rewrite Hx. by apply IH.
Qed.

Lemma find_some_existsb {A : Type} (f : A -> bool) (l : list A) :
  existsb f l = true -> exists x, find f l = Some x /\ In x l.
Proof.
  induction l as [|a l IH]; simpl; [discriminate|].
  destruct (f a); simpl; [eauto|].
  intros Hl. destruct (IH Hl) as (x & Hx & Hin). eauto.
Qed.

(** A further schema is appended to the union, unless its text is already
    the text of a member. *)
Lemma mergeSchema_append props l new :
  obj_get "oneOf" props = Some (JArray l) ->
  forallb (fun it => negb (sameText (JSON_stringify it) (JSON_stringify new))) l = true ->
  mergeSchema (JObject props) new =
  Ok (JObject (obj_set "oneOf" (JArray (l ++ [new])) props)).
Proof.
  intros Hget Hnew. simpl. rewrite Hget.
  rewrite (find_none_forallb _ l Hnew). reflexivity.
Qed.

Lemma mergeSchema_member props l new :
  obj_get "oneOf" props = Some (JArray l) ->
  Forall (fun it => truthy it = true) l ->
  existsb (fun it => sameText (JSON_stringify it) (JSON_stringify new)) l = true ->
  mergeSchema (JObject props) new = Ok (JObject props).
Proof.
  intros Hget Htruthy Hmem. simpl. rewrite Hget.
  destruct (find_some_existsb _ l Hmem) as (it & -> & Hin).
  rewrite Forall_forall in Htruthy. apply list_elem_of_In in Hin.
  simpl. rewrite (Htruthy it Hin). reflexivity.
Qed.

(** The three branches of the loop body. *)
Lemma addResponse_first ro item s :
  itemSchema item = Ok s ->
  ro !! statusCode item = None ->
  inherited (statusCode item) = false ->
  addResponse ro item =
  Ok (<[statusCode item :=
         {| description := "Response for " +:+ statusCode item;
            content := {[ contentType item :=
                            {| schema := if isOctetStream (contentType item)
                                         then schemaBinary else s |} ]};
            ro_headers := headerSchemas (headers item) |}]> ro).
Proof. intros Hs Hro Hown. unfold addResponse. rewrite Hs. simpl. by rewrite Hro, Hown. Qed.

Lemma addResponse_inherited_status ro item s :
  itemSchema item = Ok s ->
  ro !! statusCode item = None ->
  inherited (statusCode item) = true ->
  addResponse ro item = Throw (TypeError "Cannot read properties of undefined").
Proof. intros Hs Hro Hown. unfold addResponse. rewrite Hs. simpl. by rewrite Hro, Hown. Qed.

Lemma addResponse_sibling ro item s r :
  itemSchema item = Ok s ->
  ro !! statusCode item = Some r ->
  content r !! contentType item = None ->
  inherited (contentType item) = false ->
  addResponse ro item = Ok (<[statusCode item := setContent r (contentType item) s]> ro).
Proof.
  intros Hs Hro Hct Hown. unfold addResponse. rewrite Hs. simpl. by rewrite Hro, Hct, Hown.
Qed.

Lemma addResponse_inherited_content ro item s r :
  itemSchema item = Ok s ->
  ro !! statusCode item = Some r ->
  content r !! contentType item = None ->
  inherited (contentType item) = true ->
  addResponse ro item = Throw (TypeError "Cannot read properties of undefined").
Proof.
  intros Hs Hro Hct Hown. unfold addResponse. rewrite Hs. simpl. by rewrite Hro, Hct, Hown.
Qed.

Lemma addResponse_same_pair ro item s r m :
  itemSchema item = Ok s ->
  ro !! statusCode item = Some r ->
  content r !! contentType item = Some m ->
  addResponse ro item =
  bind (mergeSchema (schema m) s)
    (fun merged => Ok (<[statusCode item := setContent r (contentType item) merged]> ro)).
Proof.
  intros Hs Hro Hct. unfold addResponse. rewrite Hs. simpl. by rewrite Hro, Hct.
Qed.

Lemma schemaAt_setContent ro sc ct r s :
  schemaAt (<[sc := setContent r ct s]> ro) sc ct = Some s.
Proof.
  unfold schemaAt. rewrite lookup_insert_eq. simpl.
  by rewrite lookup_insert_eq.
Qed.

(** For a content type other than [application/octet-stream], the same
    item added twice leaves one schema under its pair. *)
Lemma responses_same_item_twice item s :
  isOctetStream (contentType item) = false ->
  inherited (statusCode item) = false ->
  itemSchema item = Ok s ->
  exists r, responseItemToResponses [item; item] = Ok r /\
            schemaAt r (statusCode item) (contentType item) = Some s.
Proof.
  intros Hct Hown Hs. unfold responseItemToResponses. cbn [foldM].
  rewrite (addResponse_first _ _ s Hs (lookup_empty _) Hown), Hct. cbn [bind].
  erewrite addResponse_same_pair;
    [|exact Hs | apply lookup_insert_eq | apply lookup_singleton_eq].
  cbn [schema].
  rewrite mergeSchema_equal;
    [|by eapply itemSchema_noUnion | apply sameText_refl].
  cbn [bind]. eexists. split; [reflexivity | apply schemaAt_setContent].
Qed.

(** Two items with different schemas under one pair make a union of the
    two, and a third different one is appended to it. *)
Lemma responses_three_distinct sc ct a b c sa sb sc' :
  isOctetStream ct = false -> inherited sc = false ->
  itemSchema a = Ok sa -> itemSchema b = Ok sb -> itemSchema c = Ok sc' ->
  statusCode a = sc -> statusCode b = sc -> statusCode c = sc ->
  contentType a = ct -> contentType b = ct -> contentType c = ct ->
  sameText (JSON_stringify sa) (JSON_stringify sb) = false ->
  sameText (JSON_stringify sa) (JSON_stringify sc') = false ->
  sameText (JSON_stringify sb) (JSON_stringify sc') = false ->
  exists r2 r3,
    responseItemToResponses [a; b] = Ok r2 /\
    schemaAt r2 sc ct = Some (JObject [("oneOf", JArray [sa; sb])]) /\
    responseItemToResponses [a; b; c] = Ok r3 /\
    schemaAt r3 sc ct = Some (JObject [("oneOf", JArray [sa; sb; sc'])]).
Proof.
  intros Hct Hown Ha Hb Hc <- Hsb Hsc <- Hcb Hcc Hab Hac Hbc.
  unfold responseItemToResponses. cbn [foldM].
  rewrite (addResponse_first _ _ sa Ha (lookup_empty _) Hown), Hct. cbn [bind].
  erewrite (addResponse_same_pair _ b);
    [|exact Hb | rewrite Hsb; apply lookup_insert_eq
     | rewrite Hcb; apply lookup_singleton_eq].
  cbn [schema].
  rewrite mergeSchema_distinct; [|by eapply itemSchema_noUnion | exact Hab].
  cbn [bind]. rewrite Hsb, Hcb.
  erewrite (addResponse_same_pair _ c);
    [|exact Hc | rewrite Hsc; apply lookup_insert_eq
     | rewrite Hcc; apply lookup_insert_eq].
  cbn [schema].
  erewrite mergeSchema_append; [|reflexivity|].
  2:{ cbn [forallb]. by rewrite Hac, Hbc. }
  cbn [bind]. rewrite Hsc, Hcc.
  eexists _, _. split; [reflexivity|]. split; [apply schemaAt_setContent|].
  split; [reflexivity | apply schemaAt_setContent].
Qed.

(** C3. Adding the same [(statusCode, contentType, schema)] twice does not
    always leave one schema entry: for [application/octet-stream] the first
    item stores the binary schema, the second is compared with it, and the
    entry becomes a two-element union. *)
Theorem octet_stream_item_twice :
  bind (responseItemToResponses
          [reportAs "application/octet-stream"; reportAs "application/octet-stream"])
    (fun r => Ok (schemaAt r "200" "application/octet-stream")) =
  Ok (Some (JObject
              [("oneOf",
                JArray [JObject [("type", JString "string"); ("format", JString "binary")];
                        JObject [("type", JString "array");
                                 ("items", JObject [("$ref", JString "#/components/schemas/Report")])]])])).
Proof. vm_compute. reflexivity. Qed.

(** C4. An [application/octet-stream] item that adds a sibling content
    entry to an existing status code is stored with the schema of its
    declared response type, not with the binary schema. *)
Theorem octet_stream_sibling_entry :
  bind (responseItemToResponses
          [reportAs "application/json"; reportAs "application/octet-stream"])
    (fun r => Ok (schemaAt r "200" "application/octet-stream")) =
  Ok (Some (JObject [("type", JString "array");
                      ("items", JObject [("$ref", JString "#/components/schemas/Report")])])) /\
  JObject [("type", JString "array");
           ("items", JObject [("$ref", JString "#/components/schemas/Report")])] <>
  schemaBinary.
Proof. split; [vm_compute; reflexivity | discriminate]. Qed.

(** The first item of a status code does get the binary schema. *)
Lemma octet_stream_first_entry item s :
  isOctetStream (contentType item) = true ->
  inherited (statusCode item) = false ->
  itemSchema item = Ok s ->
  exists r, responseItemToResponses [item] = Ok r /\
            schemaAt r (statusCode item) (contentType item) = Some schemaBinary.
Proof.
  intros Hct Hown Hs. unfold responseItemToResponses. cbn [foldM].
  rewrite (addResponse_first _ _ s Hs (lookup_empty _) Hown), Hct. cbn [bind].
  eexists. split; [reflexivity|].
  unfold schemaAt. rewrite lookup_insert_eq. simpl.
  rewrite lookup_singleton_eq. reflexivity.
Qed.

(** ** [getPaths] and its hook *)

Lemma getPathsStep_without_hook `{Evaluator} {HookState : Type}
    (this : Paths HookState) acc hs hs0 operation acc' hs' :
  getPathsStep this (acc, hs) operation = Ok (acc', hs') ->
  getPathsStep (withoutHook this) (acc, hs0) operation = Ok (acc', hs0).
Proof.
  unfold getPathsStep. simpl.
  destruct (selectosToParameters _ _) as [ps|e]; simpl; [|discriminate].
  destruct (onOperation this) as [hook|]; simpl.
  - destruct (hook _ _ _ _ _) as [[inner|] hs1]; simpl; [|discriminate].
    intros Heq. injection Heq as <- _. reflexivity.
  - intros Heq. injection Heq as <- _. reflexivity.
Qed.

Lemma getPaths_loop_without_hook `{Evaluator} {HookState : Type}
    (this : Paths HookState) ops acc hs hs0 paths hs' :
  foldM (getPathsStep this) (acc, hs) ops = Ok (paths, hs') ->
  foldM (getPathsStep (withoutHook this)) (acc, hs0) ops = Ok (paths, hs0).
Proof.
  revert acc hs. induction ops as [|operation ops IH]; intros acc hs; simpl.
  - intros Heq. injection Heq as <- _. reflexivity.
  - destruct (getPathsStep this (acc, hs) operation) as [[acc1 hs1]|e] eqn:Hstep;
      simpl; [|discriminate].
    rewrite (getPathsStep_without_hook _ _ _ hs0 _ _ _ Hstep). simpl. apply IH.
Qed.

(** The paths object returned with a hook is the one returned without it:
    no fragment a hook returns becomes part of the result. *)
Lemma getPaths_without_hook `{Evaluator} {HookState : Type}
    (this : Paths HookState) hs paths hs' :
  getPaths this hs = Ok (paths, hs') ->
  getPaths (withoutHook this) hs = Ok (paths, hs).
Proof. apply getPaths_loop_without_hook. Qed.

(** The hook is called once for every accumulated operation, in order. *)
Lemma recordingHook_calls `{Evaluator} (this : Paths (list (string * string * string)))
    ops acc calls0 paths calls :
  onOperation this = Some recordingHook ->
  foldM (getPathsStep this) (acc, calls0) ops = Ok (paths, calls) ->
  calls = calls0 ++
          map (fun o => (op_sourceFile o, methodName (op_method o), op_path o)) ops.
Proof.
  intros Hhook. revert acc calls0.
  induction ops as [|operation ops IH]; intros acc calls0; simpl.
  - intros Heq. injection Heq as _ <-. by rewrite app_nil_r.
  - intros Hrun. apply bind_Ok in Hrun as ([acc1 calls1] & Hstep & Hrun).
    unfold getPathsStep in Hstep. rewrite Hhook in Hstep.
    apply bind_Ok in Hstep as (ps & _ & Hstep). simpl in Hstep.
    injection Hstep as _ <-. rewrite (IH _ _ Hrun). by rewrite <- app_assoc.
Qed.

(** C2. The fragment the hook returns is not merged into the mapping that
    [getPaths] returns: with one accumulated operation [GET /items] and a
    hook that returns a fragment for [/extra], the hook is called once,
    after the insertion, and the result has [/items] and no [/extra]. *)
Theorem hook_fragment_not_merged :
  bind (addPath (new None (Some recordingHook))
          "listItems" "/items" M_get [] [] "items.ts" None None)
    (fun this =>
       bind (@getPaths noRuntime _ this [])
         (fun out => Ok (out.1 !! "/extra",
                         (out.1 !! "/items") ≫= (fun item => item !! "get"),
                         out.2))) =
  Ok (None,
      Some {| operationId := "listItems"; parameters := []; oo_tags := None;
              oo_description := None; requestBody := None; oo_responses := None |},
      [("items.ts", "get", "/items")]).
Proof. vm_compute. reflexivity. Qed.

End PathsFacts.

(** * Facts about the compiler *)

Module SdkFacts.
Import Sdk SdkSpec.

(** ** Strings *)

Lemma append_nil_l (s : string) : EmptyString +:+ s = s.
Proof. reflexivity. Qed.

Lemma append_cons (c : ascii) (s t : string) : String c s +:+ t = String c (s +:+ t).
Proof. reflexivity. Qed.

Lemma append_dq_inj (s t : string) : s +:+ dq = t +:+ dq -> s = t.
Proof.
  revert t. induction s as [|c s IH]; intros [|d t]; rewrite ?append_nil_l, ?append_cons.
  - done.
  - intros Heq. injection Heq as _ Heq. destruct t; discriminate.
  - intros Heq. injection Heq as _ Heq. destruct s; discriminate.
  - intros Heq. injection Heq as -> Heq. f_equal. by apply IH.
Qed.

Lemma quoted_inj (s t : string) : quoted s = quoted t -> s = t.
Proof.
  unfold quoted, dq. rewrite !append_cons, !append_nil_l.
  intros Heq. injection Heq as Heq. by apply append_dq_inj.
Qed.

(** ** Field buckets *)

Lemma flat_map_if {A B : Type} (p : A -> bool) (f : A -> B) (l : list A) :
  flat_map (fun x => if p x then [f x] else []) l = map f (List.filter p l).
Proof.
  induction l as [|x l IH]; simpl; [done|]. destruct (p x); simpl; by rewrite IH.
Qed.

Lemma classifyInput_cases operationName b e :
  (recognised (source e.2) = true /\
   exists b', classifyInput operationName b e = Ok b' /\
     inputHeaders b' = inputHeaders b ++
                       (if isHeaderSource (source e.2) then [quoted e.1] else []) /\
     inputQuery b' = inputQuery b ++
                     (if String.eqb (source e.2) "query" then [quoted e.1] else []) /\
     inputBody b' = inputBody b ++
                    (if String.eqb (source e.2) "body" then [quoted e.1] else []) /\
     inputParams b' = inputParams b ++
                      (if String.eqb (source e.2) "path" then [quoted e.1] else [])) \/
  (recognised (source e.2) = false /\
   classifyInput operationName b e =
   Throw (Error (unknownSourceMessage e.1 e.2 operationName))).
Proof.
  destruct e as [n p]. unfold classifyInput, recognised, isHeaderSource. simpl.
  destruct (String.eqb_spec (source p) "headers") as [->|_].
  { left. split; [done|]. eexists. split; [reflexivity|]. cbn.
    by rewrite !app_nil_r. }
  destruct (String.eqb_spec (source p) "header") as [->|_].
  { left. split; [done|]. eexists. split; [reflexivity|]. cbn.
    by rewrite !app_nil_r. }
  destruct (String.eqb_spec (source p) "query") as [->|_].
  { left. split; [done|]. eexists. split; [reflexivity|]. cbn.
    by rewrite !app_nil_r. }
  destruct (String.eqb_spec (source p) "body") as [->|_].
  { left. split; [done|]. eexists. split; [reflexivity|]. cbn.
    by rewrite !app_nil_r. }
  destruct (String.eqb_spec (source p) "path") as [->|_].
  { left. split; [done|]. eexists. split; [reflexivity|]. cbn.
    by rewrite !app_nil_r. }
  destruct (String.eqb_spec (source p) "internal") as [_|_].
  { left. split; [done|]. eexists. split; [reflexivity|]. cbn.
    by rewrite !app_nil_r. }
  right. split; reflexivity.
Qed.

(** The buckets in closed form: each holds the quoted names of the inputs
    with its source, in declaration order. *)
Lemma classifyInputs_buckets operation b :
  classifyInputs operation = Ok b ->
  inputHeaders b = fieldsFrom isHeaderSource operation /\
  inputQuery b = fieldsFrom (fun s => String.eqb s "query") operation /\
  inputBody b = fieldsFrom (fun s => String.eqb s "body") operation /\
  inputParams b = fieldsFrom (fun s => String.eqb s "path") operation.
Proof.
  unfold classifyInputs, fieldsFrom. intros Hrun.
  assert (Hstep : forall (proj : Buckets -> list string) (from : string -> bool),
             (forall b0 e b1, classifyInput (name operation) b0 e = Ok b1 ->
                              proj b1 = proj b0 ++
                                        (if from (source e.2) then [quoted e.1] else [])) ->
             proj noBuckets = [] ->
             proj b = map (fun e => quoted e.1)
                        (List.filter (fun e => from (source e.2)) (inputs operation))).
  { intros proj from Hproj Hnil.
    destruct (foldM_appends (classifyInput (name operation)) proj
                (fun e => if from (source e.2) then [quoted e.1] else [])
                (fun _ => True)) with (xs := inputs operation) (st := noBuckets) (st' := b)
      as [_ Hb]; [ | done | done | ].
    - intros st x st' _ Hx. split; [done | by apply Hproj].
    - rewrite Hb, Hnil. simpl. apply (flat_map_if (fun e => from (source e.2))). }
  refine (conj (Hstep inputHeaders isHeaderSource _ _)
            (conj (Hstep inputQuery (fun s => String.eqb s "query") _ _)
               (conj (Hstep inputBody (fun s => String.eqb s "body") _ _)
                  (Hstep inputParams (fun s => String.eqb s "path") _ _))));
    try reflexivity.
  all: intros b0 e b1 Hb1;
    destruct (classifyInput_cases (name operation) b0 e)
      as [(_ & b' & Hb' & Hh & Hq & Hbd & Hp)|[_ Hthrow]]; [|congruence];
    rewrite Hb' in Hb1; injection Hb1 as <-; assumption.
Qed.

Lemma classifyInputs_recognised operation :
  forallb (fun e => recognised (source e.2)) (inputs operation) = true ->
  exists b, classifyInputs operation = Ok b.
Proof.
  unfold classifyInputs. generalize noBuckets.
  induction (inputs operation) as [|e l IH]; intros b; simpl; [eauto|].
  intros [He Hl]%andb_true_iff.
  destruct (classifyInput_cases (name operation) b e)
    as [(_ & b' & -> & _)|[Hno _]]; [|congruence].
  simpl. by apply IH.
Qed.

Lemma classifyInputs_unrecognised operation :
  forallb (fun e => recognised (source e.2)) (inputs operation) = false ->
  exists fieldName prop,
    In (fieldName, prop) (inputs operation) /\ recognised (source prop) = false /\
    classifyInputs operation =
    Throw (Error (unknownSourceMessage fieldName prop (name operation))).
Proof.
  unfold classifyInputs. generalize noBuckets.
  induction (inputs operation) as [|[n p] l IH]; intros b; simpl; [discriminate|].
  destruct (classifyInput_cases (name operation) b (n, p))
    as [(Hyes & b' & -> & _)|[Hno ->]]; simpl in *.
  - rewrite Hyes. simpl. intros Hl.
    destruct (IH b' Hl) as (n' & p' & Hin & Hp' & Hrun). eauto 10.
  - intros _. exists n, p. eauto.
Qed.

Lemma classifyInputs_decided operation :
  (exists b, classifyInputs operation = Ok b) \/
  (exists fieldName prop,
     In (fieldName, prop) (inputs operation) /\ recognised (source prop) = false /\
     classifyInputs operation =
     Throw (Error (unknownSourceMessage fieldName prop (name operation)))).
Proof.
  destruct (forallb (fun e => recognised (source e.2)) (inputs operation)) eqn:Hall.
  - left. by apply classifyInputs_recognised.
  - right. by apply classifyInputs_unrecognised.
Qed.

Lemma occurrences_cons x y l :
  occurrences x (y :: l) = (if String.eqb x y then 1 else 0) + occurrences x l.
Proof. unfold occurrences. cbn [List.filter]. by destruct (String.eqb x y). Qed.

Lemma occurrences_absent (from : string -> bool) n (l : list (string * OperationInput)) :
  ~ In n (map fst l) ->
  occurrences (quoted n)
    (map (fun e => quoted e.1) (List.filter (fun e => from (source e.2)) l)) = 0.
Proof.
  induction l as [|[n' p'] l IH]; [done|].
  cbn [List.filter map fst snd In]. intros Hnot.
  destruct (from (source p')); cbn [map fst]; [|apply IH; tauto].
  rewrite occurrences_cons, IH by tauto.
  destruct (String.eqb_spec (quoted n) (quoted n')) as [Heq|_]; [|done].
  exfalso. apply Hnot. left. symmetry. by apply quoted_inj.
Qed.

Lemma occurrences_once (from : string -> bool) n p (l : list (string * OperationInput)) :
  NoDup (map fst l) -> In (n, p) l ->
  occurrences (quoted n)
    (map (fun e => quoted e.1) (List.filter (fun e => from (source e.2)) l)) =
  if from (source p) then 1 else 0.
Proof.
  induction l as [|[n' p'] l IH]; [done|].
  cbn [List.filter map fst snd In].
  intros [Hfresh Hnodup]%NoDup_cons [Heq|Hin].
  - injection Heq as -> ->.
    assert (Hrest := occurrences_absent from n l).
    rewrite list_elem_of_In in Hfresh. specialize (Hrest Hfresh).
    destruct (from (source p)); cbn [map fst]; [|exact Hrest].
    by rewrite occurrences_cons, Hrest, String.eqb_refl.
  - assert (n <> n') as Hne.
    { intros ->. apply Hfresh. apply list_elem_of_In.
      change n' with (fst (n', p)). by apply in_map. }
    specialize (IH Hnodup Hin).
    destruct (from (source p')); cbn [map fst]; [|exact IH].
    rewrite occurrences_cons, IH.
    destruct (String.eqb_spec (quoted n) (quoted n')) as [Heq|_]; [|done].
    by apply quoted_inj in Heq.
Qed.

Lemma occurrences_app x l1 l2 :
  occurrences x (l1 ++ l2) = occurrences x l1 + occurrences x l2.
Proof. unfold occurrences. by rewrite List.filter_app, length_app. Qed.

(** ** The effect of the loops on the accumulators *)

Lemma obj_get_set_eq {V : Type} k (v : V) o : obj_get k (obj_set k v o) = Some v.
Proof.
  induction o as [|[k' v'] o IH]; simpl.
  - by rewrite String.eqb_refl.
  - destruct (String.eqb k k') eqn:Hk; simpl; rewrite ?String.eqb_refl, ?Hk; done.
Qed.

Lemma foldM_Forall {S A : Type} (body : S -> A -> result S) (Q : A -> Prop) :
  (forall st x st', body st x = Ok st' -> Q x) ->
  forall xs st st', foldM body st xs = Ok st' -> Forall Q xs.
Proof.
  intros Hstep. induction xs as [|x xs IH]; intros st st'; simpl; [constructor|].
  intros Hrun. apply bind_Ok in Hrun as (st1 & Hx & Hrun).
  constructor; [by eapply Hstep | by eapply IH].
Qed.

Lemma flat_map_unless {A B : Type} (p : A -> bool) (g : A -> list B) (l : list A) :
  flat_map (fun x => if p x then [] else g x) l =
  flat_map g (List.filter (fun x => negb (p x)) l).
Proof.
  induction l as [|x l IH]; simpl; [done|]. destruct (p x); simpl; by rewrite IH.
Qed.

Lemma bucketsOf_classified operation b :
  classifyInputs operation = Ok b -> bucketsOf operation = b.
Proof. unfold bucketsOf. by intros ->. Qed.

(** ** [removeDuplicates] *)

Lemma removeDuplicates_loop (l acc : list string) :
  NoDup acc ->
  NoDup (fold_left
           (fun acc x => if existsb (fun y => String.eqb (id x) (id y)) acc
                         then acc else acc ++ [x]) l acc) /\
  forall x,
    In x (fold_left
            (fun acc x => if existsb (fun y => String.eqb (id x) (id y)) acc
                          then acc else acc ++ [x]) l acc) <->
    In x acc \/ In x l.
Proof.
  revert acc. induction l as [|a l IH]; intros acc Hacc; cbn [fold_left In]; [tauto|].
  destruct (existsb (fun y => String.eqb (id a) (id y)) acc) eqn:Hseen.
  - destruct (IH acc Hacc) as [Hnd Hin]. split; [exact Hnd|]. intros x. rewrite Hin.
    apply existsb_exists in Hseen as (y & Hy & Heq).
    apply String.eqb_eq in Heq. unfold id in Heq. subst y.
    split; [tauto|]. intros [?|[<-|?]]; tauto.
  - assert (~ In a acc) as Hfresh.
    { intros Hin. apply not_true_iff_false in Hseen. apply Hseen.
      apply existsb_exists. exists a. split; [done | apply String.eqb_refl]. }
    assert (NoDup (acc ++ [a])) as Hacc'.
    { apply NoDup_app. split; [done|]. split; [|apply NoDup_singleton].
      intros x Hx Hxa. apply list_elem_of_In in Hx. apply list_elem_of_In in Hxa.
      destruct Hxa as [<-|[]]. done. }
    destruct (IH _ Hacc') as [Hnd Hin]. split; [exact Hnd|]. intros x. rewrite Hin.
    rewrite in_app_iff. simpl. tauto.
Qed.

Lemma removeDuplicates_NoDup (l : list string) : NoDup (removeDuplicates l id).
Proof. apply (removeDuplicates_loop l []). constructor. Qed.

Lemma removeDuplicates_In (l : list string) x : In x (removeDuplicates l id) <-> In x l.
Proof.
  destruct (removeDuplicates_loop l [] (NoDup_nil_2 (A:=string))) as [_ Hin].
  unfold removeDuplicates. rewrite Hin. simpl. tauto.
Qed.

Lemma filter_filter {A : Type} (p : A -> bool) (l : list A) :
  List.filter p (List.filter p l) = List.filter p l.
Proof.
  induction l as [|x l IH]; simpl; [done|].
  destruct (p x) eqn:Hp; simpl; rewrite ?Hp, IH; done.
Qed.

(** ** Trimming and joining lines *)

Lemma append_assoc (s t u : string) : (s +:+ t) +:+ u = s +:+ t +:+ u.
Proof. induction s as [|c s IH]; [done|]. by rewrite !append_cons, IH. Qed.

Lemma append_nil_r (s : string) : s +:+ EmptyString = s.
Proof. induction s as [|c s IH]; [done|]. by rewrite append_cons, IH. Qed.

Lemma trimEnd_append (s t : string) :
  trimEnd t = t -> isEmpty t = false -> trimEnd (s +:+ t) = s +:+ t.
Proof.
  intros Ht Hne. induction s as [|c s IH]; [done|].
  rewrite append_cons. cbn [trimEnd]. rewrite IH.
  assert (isEmpty (s +:+ t) = false) as ->; [by destruct s|].
  by rewrite andb_false_r.
Qed.

Lemma trim_zodImport names : trim (zodImport names) = zodImport names.
Proof.
  unfold trim, zodImport. rewrite append_cons. cbn [trimStart].
  change (isWhite "i") with false. cbv iota.
  rewrite <- append_cons.
  change "} from '../zod';" with ("} from '../zod'" +:+ ";").
  rewrite <- !append_assoc. by apply trimEnd_append.
Qed.

Lemma concat_cons_nl (line : string) (lines : list string) :
  exists rest, String.concat nl (line :: lines) +:+ nl = line +:+ nl +:+ rest.
Proof.
  destruct lines as [|l lines].
  - exists EmptyString. by rewrite append_nil_r.
  - exists (String.concat nl (l :: lines) +:+ nl).
    cbn [String.concat]. by rewrite !append_assoc.
Qed.

Lemma In_obj_set {V : Type} (kv : string * V) k v o :
  In kv (obj_set k v o) -> kv = (k, v) \/ In kv o.
Proof.
  induction o as [|[k' v'] o IH]; simpl; [intuition congruence|].
  destruct (String.eqb k k'); simpl; intuition congruence.
Qed.

Lemma In_fromEntries {V : Type} (kv : string * V) l acc :
  In kv (fold_left (fun o kv => obj_set kv.1 kv.2 o) l acc) -> In kv l \/ In kv acc.
Proof.
  revert acc. induction l as [|[k v] l IH]; intros acc; simpl; [tauto|].
  intros Hin. destruct (IH _ Hin) as [?|Hacc]; [tauto|].
  apply In_obj_set in Hacc as [->|?]; tauto.
Qed.

Section Compiler.
Context `{StringCase}.

Lemma addVariant_loop file operation types e s :
  fold_left (addVariant operation (schemaRefOf file operation) (bucketsOf operation))
    types (e, s) =
  ({| Emitter.imports := Emitter.imports e;
      Emitter.endpoints :=
        Emitter.endpoints e ++ map (fun t => registryLine (variantEntry file operation t)) types |},
   {| SchemaEndpoint.imports := SchemaEndpoint.imports s;
      SchemaEndpoint.endpoints :=
        SchemaEndpoint.endpoints s ++
        map (fun t => dispatchLine (variantEntry file operation t)) types |}).
Proof.
  revert e s. induction types as [|t types IH]; intros e s.
  - simpl. rewrite !app_nil_r. by destruct e, s.
  - cbn [fold_left map]. unfold addVariant at 2. cbn [fst snd].
    unfold Emitter.addEndpoint, SchemaEndpoint.addEndpoint. rewrite IH.
    cbn [Emitter.imports Emitter.endpoints SchemaEndpoint.imports SchemaEndpoint.endpoints].
    rewrite <- !app_assoc. reflexivity.
Qed.

Lemma standard_entries file operation :
  isStream operation = false ->
  List.filter (fun e => negb (stream e)) (operationEntries file operation) =
  operationEntries file operation /\
  List.filter stream (operationEntries file operation) = [].
Proof.
  intros Hstd. unfold operationEntries. rewrite Hstd.
  induction (map fst (schemas operation)) as [|t l [IH1 IH2]]; [done|].
  cbn [map List.filter variantEntry stream negb]. by rewrite IH1, IH2.
Qed.

Lemma processOperation_effect file st operation st' :
  processOperation file st operation = Ok st' ->
  classifyInputs operation = Ok (bucketsOf operation) /\
  keyPresent file st' /\
  Emitter.endpoints (emitter st') =
    Emitter.endpoints (emitter st) ++
    map registryLine (List.filter (fun e => negb (stream e)) (operationEntries file operation)) /\
  Emitter.imports (emitter st') =
    Emitter.imports (emitter st) ++
    (if negb (isStream operation) then [outputImport operation] else []) /\
  Emitter.endpoints (streamEmitter st') =
    Emitter.endpoints (streamEmitter st) ++
    map registryLine (List.filter stream (operationEntries file operation)) /\
  SchemaEndpoint.endpoints (schemaEndpoint st') =
    SchemaEndpoint.endpoints (schemaEndpoint st) ++
    map dispatchLine (operationEntries file operation) /\
  st_errors st' =
    st_errors st ++ (if isStream operation then [] else declaredErrors operation) /\
  schemasImports st' = schemasImports st ++ namedImportNames operation.
Proof.
  unfold processOperation. intros Hrun.
  apply bind_Ok in Hrun as (all & Hall & Hrun).
  apply bind_Ok in Hrun as (b & Hb & Hrun).
  assert (keyPresent file st' /\ st_schemas st' = all) as [Hkey _].
  { unfold pushSchema in Hall.
    destruct (obj_get file (st_schemas st)) as [lines|]; [|discriminate].
    injection Hall as <-.
    destruct (String.eqb (type operation) "sse"); injection Hrun as <-;
      (split; [eexists; apply obj_get_set_eq | reflexivity]). }
  pose proof (bucketsOf_classified _ _ Hb) as Hbo. subst b.
  split; [exact Hb|]. split; [exact Hkey|].
  destruct (String.eqb (type operation) "sse") eqn:Hsse.
  - injection Hrun as <-. unfold operationEntries, isStream. rewrite Hsse.
    cbn. rewrite !app_nil_r. repeat split; reflexivity.
  - destruct (standard_entries file operation Hsse) as [-> ->].
    unfold isStream. rewrite Hsse.
    fold (schemaRefOf file operation) in Hrun.
    rewrite addVariant_loop in Hrun. injection Hrun as <-.
    unfold operationEntries, isStream. rewrite Hsse.
    cbn. rewrite !app_nil_r, !map_map. repeat split; reflexivity.
Qed.

Lemma processOperation_runs file st operation :
  keyPresent file st -> classifies operation ->
  exists st', processOperation file st operation = Ok st'.
Proof.
  intros [lines Hkey] Hcls. unfold processOperation, pushSchema.
  rewrite Hkey, Hcls. simpl.
  destruct (String.eqb (type operation) "sse"); eauto.
Qed.

Lemma processOperation_throws file st operation e :
  keyPresent file st -> classifyInputs operation = Throw e ->
  processOperation file st operation = Throw e.
Proof.
  intros [lines Hkey] Hcls. unfold processOperation, pushSchema.
  by rewrite Hkey, Hcls.
Qed.

Lemma operations_decided (ops : list Operation) :
  Forall classifies ops \/ Exists rejected ops.
Proof.
  induction ops as [|operation ops [IH|IH]].
  - left. constructor.
  - destruct (classifyInputs_decided operation) as [[b Hb]|Hrej].
    + left. constructor; [|done]. unfold classifies.
      by rewrite (bucketsOf_classified _ _ Hb).
    + right. by constructor.
  - right. by constructor 2.
Qed.

Lemma operations_loop_runs file ops st :
  keyPresent file st -> Forall classifies ops ->
  exists st', foldM (processOperation file) st ops = Ok st'.
Proof.
  intros Hkey Hall. revert st Hkey.
  induction Hall as [|operation ops Hop _ IH]; intros st Hkey; simpl; [eauto|].
  destruct (processOperation_runs file st operation Hkey Hop) as [st1 Hst1].
  rewrite Hst1. simpl. apply IH.
  by apply processOperation_effect in Hst1 as (_ & Hkey1 & _).
Qed.

Lemma operations_loop_throws file ops st :
  keyPresent file st -> Exists rejected ops ->
  exists operation fieldName prop,
    In operation ops /\ In (fieldName, prop) (inputs operation) /\
    recognised (source prop) = false /\
    foldM (processOperation file) st ops =
    Throw (Error (unknownSourceMessage fieldName prop (name operation))).
Proof.
  intros Hkey Hex. revert st Hkey.
  induction ops as [|operation ops IH]; intros st Hkey; [by inversion Hex|].
  simpl. destruct (classifyInputs_decided operation) as [[b Hb]|Hrej].
  - assert (Exists rejected ops) as Hex'.
    { inversion Hex as [? ? (n & p & _ & _ & Hthrow)|]; subst; [congruence | done]. }
    assert (classifies operation) as Hcls.
    { unfold classifies. by rewrite (bucketsOf_classified _ _ Hb). }
    destruct (processOperation_runs file st operation Hkey Hcls) as [st1 Hst1].
    rewrite Hst1. simpl.
    apply processOperation_effect in Hst1 as (_ & Hkey1 & _).
    destruct (IH Hex' st1 Hkey1) as (o & n & p & Hin & Hrest). exists o, n, p. eauto.
  - destruct Hrej as (n & p & Hin & Hno & Hthrow).
    rewrite (processOperation_throws _ _ _ _ Hkey Hthrow). simpl.
    exists operation, n, p. eauto.
Qed.

Lemma group_started st (group : string * list Operation) :
  keyPresent (camelcase group.1)
    {| emitter := Emitter.addImport (emitter st) (groupImport (camelcase group.1));
       streamEmitter :=
         Emitter.addImport (streamEmitter st) (groupImport (camelcase group.1));
       st_schemas := obj_set (camelcase group.1) ["import z from 'zod';"] (st_schemas st);
       schemasImports := schemasImports st;
       schemaEndpoint :=
         SchemaEndpoint.addImport (schemaEndpoint st) (groupImport (camelcase group.1));
       st_errors := st_errors st |}.
Proof. eexists. simpl. apply obj_get_set_eq. Qed.

Lemma processGroup_effect st group st' :
  processGroup st group = Ok st' ->
  Forall classifies group.2 /\
  Emitter.endpoints (emitter st') =
    Emitter.endpoints (emitter st) ++
    map registryLine (List.filter (fun e => negb (stream e)) (groupEntries group)) /\
  Emitter.imports (emitter st') =
    Emitter.imports (emitter st) ++ groupEmitterImports group /\
  Emitter.endpoints (streamEmitter st') =
    Emitter.endpoints (streamEmitter st) ++
    map registryLine (List.filter stream (groupEntries group)) /\
  SchemaEndpoint.endpoints (schemaEndpoint st') =
    SchemaEndpoint.endpoints (schemaEndpoint st) ++ map dispatchLine (groupEntries group) /\
  st_errors st' =
    st_errors st ++
    flat_map declaredErrors (List.filter (fun o => negb (isStream o)) group.2) /\
  schemasImports st' = schemasImports st ++ flat_map namedImportNames group.2.
Proof.
  unfold processGroup. intros Hrun.
  pose proof (group_started st group) as Hkey.
  set (file := camelcase group.1) in *.
  assert (Hloop : forall (B : Type) (proj : State -> list B) (contrib : Operation -> list B),
             (forall s o s', processOperation file s o = Ok s' ->
                             proj s' = proj s ++ contrib o) ->
             forall s0, keyPresent file s0 ->
                        foldM (processOperation file) s0 group.2 = Ok st' ->
                        proj st' = proj s0 ++ flat_map contrib group.2).
  { intros B proj contrib Hstep s0 Hs0 Hfold.
    destruct (foldM_appends (processOperation file) proj contrib (keyPresent file))
      with (xs := group.2) (st := s0) (st' := st') as [_ Hproj]; try done.
    intros s o s' _ Hs'. split; [|by apply Hstep].
    by apply processOperation_effect in Hs' as (_ & Hk & _). }
  split.
  { eapply foldM_Forall; [|exact Hrun].
    intros s o s' Hs'. by apply processOperation_effect in Hs' as (Hc & _). }
  unfold groupEntries, groupEmitterImports. fold file.
  rewrite !filter_flat_map, !map_flat_map.
  split.
  { rewrite (Hloop _ (fun s => Emitter.endpoints (emitter s)) _
               (fun s o s' Hs' => proj1 (proj2 (proj2 (processOperation_effect _ _ _ _ Hs'))))
               _ Hkey Hrun).
    reflexivity. }
  split.
  { rewrite (Hloop _ (fun s => Emitter.imports (emitter s)) _
               (fun s o s' Hs' =>
                  proj1 (proj2 (proj2 (proj2 (processOperation_effect _ _ _ _ Hs')))))
               _ Hkey Hrun).
    rewrite (flat_map_if (fun o => negb (isStream o)) outputImport).
    cbn. by rewrite <- app_assoc. }
  split.
  { rewrite (Hloop _ (fun s => Emitter.endpoints (streamEmitter s)) _
               (fun s o s' Hs' =>
                  proj1 (proj2 (proj2 (proj2 (proj2 (processOperation_effect _ _ _ _ Hs'))))))
               _ Hkey Hrun).
    reflexivity. }
  split.
  { rewrite (Hloop _ (fun s => SchemaEndpoint.endpoints (schemaEndpoint s)) _
               (fun s o s' Hs' =>
                  proj1 (proj2 (proj2 (proj2 (proj2 (proj2
                    (processOperation_effect _ _ _ _ Hs')))))))
               _ Hkey Hrun).
    reflexivity. }
  split.
  { rewrite (Hloop _ st_errors _
               (fun s o s' Hs' =>
                  proj1 (proj2 (proj2 (proj2 (proj2 (proj2 (proj2
                    (processOperation_effect _ _ _ _ Hs'))))))))
               _ Hkey Hrun).
    by rewrite (flat_map_unless isStream declaredErrors). }
  rewrite (Hloop _ schemasImports _
             (fun s o s' Hs' =>
                proj2 (proj2 (proj2 (proj2 (proj2 (proj2 (proj2
                  (processOperation_effect _ _ _ _ Hs'))))))))
             _ Hkey Hrun).
  reflexivity.
Qed.

Lemma processGroup_runs st group :
  Forall classifies group.2 -> exists st', processGroup st group = Ok st'.
Proof.
  intros Hall. unfold processGroup.
  by apply operations_loop_runs; [apply group_started|].
Qed.

Lemma processGroup_throws st group :
  Exists rejected group.2 ->
  exists operation fieldName prop,
    In operation group.2 /\ In (fieldName, prop) (inputs operation) /\
    recognised (source prop) = false /\
    processGroup st group =
    Throw (Error (unknownSourceMessage fieldName prop (name operation))).
Proof.
  intros Hex. unfold processGroup.
  by apply operations_loop_throws; [apply group_started|].
Qed.

Lemma groups_loop_runs gs st :
  Forall classifies (flat_map snd gs) -> exists st', foldM processGroup st gs = Ok st'.
Proof.
  revert st. induction gs as [|g gs IH]; intros st; simpl; [eauto|].
  intros [Hg Hgs]%Forall_app.
  destruct (processGroup_runs st g Hg) as [st1 ->]. simpl. by apply IH.
Qed.

Lemma groups_loop_throws gs st :
  Exists rejected (flat_map snd gs) ->
  exists operation fieldName prop,
    In operation (flat_map snd gs) /\ In (fieldName, prop) (inputs operation) /\
    recognised (source prop) = false /\
    foldM processGroup st gs =
    Throw (Error (unknownSourceMessage fieldName prop (name operation))).
Proof.
  revert st. induction gs as [|g gs IH]; intros st; simpl; [by inversion 1|].
  intros Hex. destruct (operations_decided g.2) as [Hall|Hrej].
  - destruct (processGroup_runs st g Hall) as [st1 Hst1]. rewrite Hst1. simpl.
    assert (Exists rejected (flat_map snd gs)) as Hex'.
    { apply Exists_app in Hex as [Hex|Hex]; [|done]. exfalso.
      apply Exists_exists in Hex as (o & Hin & (n & p & _ & _ & Hthrow)).
      rewrite Forall_forall in Hall. specialize (Hall o Hin).
      unfold classifies in Hall. congruence. }
    destruct (IH st1 Hex') as (o & n & p & Hin & Hrest).
    exists o, n, p. split; [apply in_or_app; by right | done].
  - destruct (processGroup_throws st g Hrej) as (o & n & p & Hin & Hp & Hno & ->).
    exists o, n, p. split; [apply in_or_app; by left | done].
Qed.

(** The compiler returns a state exactly when every input of every
    operation has a recognised source. *)
Lemma compile_runs spec :
  Forall classifies (allOperations spec) -> exists st, compile spec = Ok st.
Proof.
  intros Hall. unfold compile.
  destruct (groups_loop_runs (groups spec) initial Hall) as [st ->]. simpl. eauto.
Qed.

Lemma compile_throws spec :
  Exists rejected (allOperations spec) ->
  exists operation fieldName prop,
    In operation (allOperations spec) /\ In (fieldName, prop) (inputs operation) /\
    recognised (source prop) = false /\
    compile spec = Throw (Error (unknownSourceMessage fieldName prop (name operation))).
Proof.
  intros Hex. unfold compile.
  destruct (groups_loop_throws (groups spec) initial Hex)
    as (o & n & p & Hin & Hp & Hno & ->).
  exists o, n, p. eauto.
Qed.

Lemma Forall_flat_map {A B : Type} (Q : B -> Prop) (g : A -> list B) (l : list A) :
  Forall (fun x => Forall Q (g x)) l -> Forall Q (flat_map g l).
Proof. induction 1; simpl; [constructor | by apply Forall_app]. Qed.

(** The accumulators after the two loops, in closed form. *)
Lemma compile_effect spec st :
  compile spec = Ok st ->
  Forall classifies (allOperations spec) /\
  Emitter.endpoints (emitter st) =
    map registryLine (List.filter (fun e => negb (stream e)) (specEntries spec)) /\
  Emitter.imports (emitter st) =
    Emitter.imports Emitter.new ++ flat_map groupEmitterImports (groups spec) ++
    [errorImport (standardErrors spec)] /\
  Emitter.endpoints (streamEmitter st) =
    map registryLine (List.filter stream (specEntries spec)) /\
  SchemaEndpoint.endpoints (schemaEndpoint st) = map dispatchLine (specEntries spec) /\
  st_errors st = standardErrors spec /\
  schemasImports st = allNamedImports spec.
Proof.
  unfold compile. intros Hrun. apply bind_Ok in Hrun as (st0 & Hloop & Hst).
  injection Hst as <-.
  cbn [emitter streamEmitter schemaEndpoint st_errors schemasImports
       Emitter.addImport Emitter.endpoints Emitter.imports].
  assert (Hall : forall (B : Type) (proj : State -> list B)
                        (contrib : string * list Operation -> list B),
             (forall s g s', processGroup s g = Ok s' -> proj s' = proj s ++ contrib g) ->
             proj st0 = proj initial ++ flat_map contrib (groups spec)).
  { intros B proj contrib Hstep.
    destruct (foldM_appends processGroup proj contrib (fun _ => True))
      with (xs := groups spec) (st := initial) (st' := st0) as [_ Hproj]; try done.
    intros s g s' _ Hs'. split; [done | by apply Hstep]. }
  assert (Herrs : st_errors st0 = standardErrors spec).
  { rewrite (Hall _ st_errors _
               (fun s g s' Hs' =>
                  proj1 (proj2 (proj2 (proj2 (proj2 (proj2 (processGroup_effect _ _ _ Hs')))))))).
    unfold standardErrors, allOperations.
    by rewrite filter_flat_map, flat_map_flat_map. }
  split.
  { apply Forall_flat_map. eapply foldM_Forall; [|exact Hloop].
    intros s g s' Hs'. by apply processGroup_effect in Hs' as (Hc & _). }
  unfold specEntries. rewrite !filter_flat_map, !map_flat_map.
  split.
  { by rewrite (Hall _ (fun s => Emitter.endpoints (emitter s)) _
                  (fun s g s' Hs' => proj1 (proj2 (processGroup_effect _ _ _ Hs')))). }
  split.
  { rewrite Herrs.
    rewrite (Hall _ (fun s => Emitter.imports (emitter s)) _
               (fun s g s' Hs' => proj1 (proj2 (proj2 (processGroup_effect _ _ _ Hs'))))).
    by rewrite <- app_assoc. }
  split.
  { by rewrite (Hall _ (fun s => Emitter.endpoints (streamEmitter s)) _
                  (fun s g s' Hs' =>
                     proj1 (proj2 (proj2 (proj2 (processGroup_effect _ _ _ Hs')))))). }
  split.
  { by rewrite (Hall _ (fun s => SchemaEndpoint.endpoints (schemaEndpoint s)) _
                  (fun s g s' Hs' =>
                     proj1 (proj2 (proj2 (proj2 (proj2 (processGroup_effect _ _ _ Hs'))))))). }
  split; [exact Herrs|].
  rewrite (Hall _ schemasImports _
             (fun s g s' Hs' =>
                proj2 (proj2 (proj2 (proj2 (proj2 (proj2 (processGroup_effect _ _ _ Hs')))))))).
  unfold allNamedImports, allOperations. by rewrite flat_map_flat_map.
Qed.

(** ** Keys *)

Lemma operation_keys file operation :
  map key (operationEntries file operation) = endpointKeys operation.
Proof.
  unfold operationEntries, endpointKeys.
  destruct (isStream operation); [reflexivity|]. by rewrite map_map.
Qed.

(** C1. The key under which an entry is put into the endpoint registry
    (standard or streaming) is, character for character, the key under
    which it is put into the request-dispatch table: the dispatch table is
    the list of the entries of all operations, each written as two spaces,
    the quoted key, a colon, a space, its text and a comma; the two
    registries are the standard and the streaming entries of that same
    list, each written as two spaces, the same quoted key, a colon, a
    space, its text and a semicolon.  The keys are, operation by operation
    and variant by variant, the optional content-type prefix, the
    upper-cased method, one space and the path. *)
Theorem key_correlation (spec : Spec) (st : State) (Hrun : compile spec = Ok st) :
  SchemaEndpoint.endpoints (schemaEndpoint st) =
    map (fun e => "  " +:+ dq +:+ key e +:+ dq +:+ ": " +:+ dispatchText e +:+ ",")
      (specEntries spec) /\
  Emitter.endpoints (emitter st) =
    map (fun e => "  " +:+ dq +:+ key e +:+ dq +:+ ": " +:+ registryText e +:+ ";")
      (List.filter (fun e => negb (stream e)) (specEntries spec)) /\
  Emitter.endpoints (streamEmitter st) =
    map (fun e => "  " +:+ dq +:+ key e +:+ dq +:+ ": " +:+ registryText e +:+ ";")
      (List.filter stream (specEntries spec)) /\
  map key (specEntries spec) = flat_map endpointKeys (allOperations spec).
Proof.
  destruct (compile_effect spec st Hrun) as (_ & Hreg & _ & Hstream & Htable & _).
  repeat split; try done.
  unfold specEntries, allOperations, groupEntries.
  rewrite map_flat_map, flat_map_flat_map.
  induction (groups spec) as [|g gs IH]; simpl; [done|]. rewrite IH. f_equal.
  rewrite map_flat_map.
  induction g.2 as [|o os IHo]; simpl; [done|]. by rewrite IHo, operation_keys.
Qed.

(** C9. The dispatch-table entry of a streaming operation is the one entry
    written out below: its key is the upper-cased method, a space and the
    path, without a content-type prefix, and its request is encoded with
    [json]; the entry is the same whatever content type and whatever
    schema variants the operation declares. *)
Theorem stream_dispatch_entry (file : string) (st st' : State) (operation : Operation)
    (Hsse : type operation = "sse")
    (Hrun : processOperation file st operation = Ok st') :
  let endpoint :=
    toUpperCase (method (trigger operation)) +:+ " " +:+ path (trigger operation) in
  SchemaEndpoint.endpoints (schemaEndpoint st') =
    SchemaEndpoint.endpoints (schemaEndpoint st) ++
    ["  " +:+ dq +:+ endpoint +:+ dq +:+ ": " +:+
     String.concat nl
       ["{";
        "        schema: " +:+
          (file +:+ "." +:+ camelcase (name operation +:+ " schema")) +:+ ",";
        "        toRequest(input: StreamEndpoints['" +:+ endpoint +:+ "']['input'], " +:+
          "init: {baseUrl:string; headers?: Record<string, string>}" +:+ ") {";
        "          const endpoint = '" +:+ endpoint +:+ "';";
        "            return toRequest(endpoint, json(input, {";
        "            inputHeaders: [" +:+ String.concat "," (inputHeaders (bucketsOf operation)) +:+ "],";
        "            inputQuery: [" +:+ String.concat "," (inputQuery (bucketsOf operation)) +:+ "],";
        "            inputBody: [" +:+ String.concat "," (inputBody (bucketsOf operation)) +:+ "],";
        "            inputParams: [" +:+ String.concat "," (inputParams (bucketsOf operation)) +:+ "],";
        "          }), init);";
        "          },";
        "        }"] +:+ ","] /\
  forall ct variants st0 st1,
    processOperation file st0 (withEncoding ct variants operation) = Ok st1 ->
    SchemaEndpoint.endpoints (schemaEndpoint st0) = SchemaEndpoint.endpoints (schemaEndpoint st) ->
    SchemaEndpoint.endpoints (schemaEndpoint st1) = SchemaEndpoint.endpoints (schemaEndpoint st').
Proof.
  intros endpoint.
  assert (Hentry : forall o s s',
             type o = "sse" -> processOperation file s o = Ok s' ->
             SchemaEndpoint.endpoints (schemaEndpoint s') =
             SchemaEndpoint.endpoints (schemaEndpoint s) ++
             [dispatchLine (streamEntry file o)]).
  { intros o s s' Ho Hs'.
    destruct (processOperation_effect file s o s' Hs') as (_ & _ & _ & _ & _ & -> & _).
    unfold operationEntries, isStream. by rewrite Ho. }
  split; [exact (Hentry _ _ _ Hsse Hrun)|].
  intros ct variants st0 st1 Hst1 Hsame.
  rewrite (Hentry _ _ _ Hsse Hrun).
  rewrite (Hentry (withEncoding ct variants operation) _ _ Hsse Hst1), Hsame.
  reflexivity.
Qed.

(** ** Classification and abort *)

Lemma source_buckets src :
  recognised src = true ->
  (if isHeaderSource src then 1 else 0) + (if String.eqb src "query" then 1 else 0) +
  (if String.eqb src "body" then 1 else 0) + (if String.eqb src "path" then 1 else 0) =
  if String.eqb src "internal" then 0 else 1.
Proof.
  unfold recognised, isHeaderSource. cbn [existsb].
  destruct (String.eqb_spec src "headers") as [->|_]; [done|].
  destruct (String.eqb_spec src "header") as [->|_]; [done|].
  destruct (String.eqb_spec src "query") as [->|_]; [done|].
  destruct (String.eqb_spec src "body") as [->|_]; [done|].
  destruct (String.eqb_spec src "path") as [->|_]; [done|].
  destruct (String.eqb_spec src "internal") as [_|_]; done.
Qed.

Context `{Boilerplate}.

(** C6. Every declared input field of an operation whose source is one of
    [headers], [header], [query], [body], [path] occurs exactly once in the
    bucket of its source and in no other bucket, and a field with source
    [internal] occurs in none; when some field has any other source, the
    compiler throws for the whole specification an error whose message
    names a field with such a source and its operation. *)
Theorem inputs_classified (spec : Spec) (operation : Operation)
    (Hop : In operation (allOperations spec))
    (Hkeys : NoDup (map fst (inputs operation))) :
  (forallb (fun e => recognised (source e.2)) (inputs operation) = true ->
   exists b,
     classifyInputs operation = Ok b /\
     forall fieldName prop,
       In (fieldName, prop) (inputs operation) ->
       occurrences (quoted fieldName) (inputHeaders b) =
         (if isHeaderSource (source prop) then 1 else 0) /\
       occurrences (quoted fieldName) (inputQuery b) =
         (if String.eqb (source prop) "query" then 1 else 0) /\
       occurrences (quoted fieldName) (inputBody b) =
         (if String.eqb (source prop) "body" then 1 else 0) /\
       occurrences (quoted fieldName) (inputParams b) =
         (if String.eqb (source prop) "path" then 1 else 0) /\
       occurrences (quoted fieldName)
         (inputHeaders b ++ inputQuery b ++ inputBody b ++ inputParams b) =
         (if String.eqb (source prop) "internal" then 0 else 1)) /\
  (forallb (fun e => recognised (source e.2)) (inputs operation) = false ->
   exists failing fieldName prop,
     In failing (allOperations spec) /\
     In (fieldName, prop) (inputs failing) /\
     recognised (source prop) = false /\
     generateClientSdk spec =
     Throw (Error ("Unknown source " +:+ source prop +:+ " in " +:+ fieldName +:+ " " +:+
                   default "undefined" (JSON_stringify (inputJson prop)) +:+
                   " in " +:+ name failing))).
Proof.
  split.
  - intros Hall. destruct (classifyInputs_recognised operation Hall) as [b Hb].
    exists b. split; [done|]. intros n p Hin.
    destruct (classifyInputs_buckets operation b Hb) as (Hh & Hq & Hbd & Hp).
    assert (recognised (source p) = true) as Hrec.
    { rewrite forallb_forall in Hall. exact (Hall (n, p) Hin). }
    assert (H1 : occurrences (quoted n) (fieldsFrom isHeaderSource operation) =
                 if isHeaderSource (source p) then 1 else 0)
      by exact (occurrences_once isHeaderSource n p _ Hkeys Hin).
    assert (H2 : occurrences (quoted n)
                   (fieldsFrom (fun s => String.eqb s "query") operation) =
                 if String.eqb (source p) "query" then 1 else 0)
      by exact (occurrences_once (fun s => String.eqb s "query") n p _ Hkeys Hin).
    assert (H3 : occurrences (quoted n)
                   (fieldsFrom (fun s => String.eqb s "body") operation) =
                 if String.eqb (source p) "body" then 1 else 0)
      by exact (occurrences_once (fun s => String.eqb s "body") n p _ Hkeys Hin).
    assert (H4 : occurrences (quoted n)
                   (fieldsFrom (fun s => String.eqb s "path") operation) =
                 if String.eqb (source p) "path" then 1 else 0)
      by exact (occurrences_once (fun s => String.eqb s "path") n p _ Hkeys Hin).
    rewrite <- Hh in H1. rewrite <- Hq in H2. rewrite <- Hbd in H3. rewrite <- Hp in H4.
    repeat split; try assumption.
    rewrite !occurrences_app, H1, H2, H3, H4, <- (source_buckets _ Hrec). lia.
  - intros Hsome.
    assert (Exists rejected (allOperations spec)) as Hex.
    { apply List.Exists_exists. exists operation. split; [done|].
      by apply classifyInputs_unrecognised. }
    destruct (compile_throws spec Hex) as (o & n & p & Hin & Hp & Hno & Hthrow).
    exists o, n, p. repeat split; try assumption.
    unfold generateClientSdk. by rewrite Hthrow.
Qed.

(** ** Streaming operations *)

Lemma isStream_type operation : isStream operation = true <-> type operation = "sse".
Proof. apply String.eqb_eq. Qed.

Lemma isStream_not_type operation : isStream operation = false <-> type operation <> "sse".
Proof. apply String.eqb_neq. Qed.

Lemma stream_entries_of file operation :
  List.filter stream (operationEntries file operation) =
  if isStream operation then [streamEntry file operation] else [].
Proof.
  destruct (isStream operation) eqn:Hs.
  - unfold operationEntries. by rewrite Hs.
  - by destruct (standard_entries file operation Hs) as [_ ->].
Qed.

Lemma standard_entries_of file operation :
  List.filter (fun e => negb (stream e)) (operationEntries file operation) =
  if isStream operation then [] else operationEntries file operation.
Proof.
  destruct (isStream operation) eqn:Hs.
  - unfold operationEntries. by rewrite Hs.
  - by destruct (standard_entries file operation Hs) as [-> _].
Qed.

Lemma groupEntries_drop (g : string * list Operation) :
  groupEntries (g.1, List.filter (fun o => negb (isStream o)) g.2) =
  List.filter (fun e => negb (stream e)) (groupEntries g).
Proof.
  unfold groupEntries. cbn [fst snd].
  induction g.2 as [|o os IH]; [done|]. cbn [List.filter flat_map].
  rewrite List.filter_app, standard_entries_of, <- IH.
  by destruct (isStream o).
Qed.

Lemma specEntries_drop spec :
  specEntries (dropStreams spec) =
  List.filter (fun e => negb (stream e)) (specEntries spec).
Proof.
  unfold specEntries, dropStreams. cbn [groups].
  induction (groups spec) as [|g gs IH]; [done|]. cbn [map flat_map].
  by rewrite List.filter_app, IH, groupEntries_drop.
Qed.

Lemma emitterImports_drop spec :
  flat_map groupEmitterImports (groups (dropStreams spec)) =
  flat_map groupEmitterImports (groups spec).
Proof.
  unfold dropStreams. cbn [groups].
  induction (groups spec) as [|g gs IH]; [done|]. cbn [map flat_map].
  rewrite IH. unfold groupEmitterImports. cbn [fst snd]. by rewrite filter_filter.
Qed.

Lemma allOperations_drop spec :
  allOperations (dropStreams spec) =
  List.filter (fun o => negb (isStream o)) (allOperations spec).
Proof.
  unfold allOperations, dropStreams. cbn [groups].
  induction (groups spec) as [|g gs IH]; [done|]. cbn [map flat_map snd].
  by rewrite List.filter_app, IH.
Qed.

Lemma standardErrors_drop spec : standardErrors (dropStreams spec) = standardErrors spec.
Proof. unfold standardErrors. by rewrite allOperations_drop, filter_filter. Qed.

Lemma In_specEntries spec e :
  In e (specEntries spec) <->
  exists g operation,
    In g (groups spec) /\ In operation g.2 /\
    In e (operationEntries (camelcase g.1) operation).
Proof.
  unfold specEntries, groupEntries. rewrite in_flat_map. split.
  - intros (g & Hg & He). apply in_flat_map in He as (o & Ho & He). eauto.
  - intros (g & o & Hg & Ho & He). exists g. split; [done|].
    apply in_flat_map. eauto.
Qed.

Lemma In_allOperations spec operation :
  In operation (allOperations spec) <-> exists g, In g (groups spec) /\ In operation g.2.
Proof. unfold allOperations. apply in_flat_map. Qed.

(** C5, as the code has it.  Streaming operations leave no trace in the
    standard registry and in the collected error identifiers: both are
    what the compiler produces for the specification without its streaming
    operations.  Their registry entries go to the streaming registry only.
    Their dispatch entries go to the one dispatch table there is, which
    holds the entries of the standard and of the streaming operations in
    the order of the specification. *)
Theorem streams_routed (spec : Spec) (st : State) (Hrun : compile spec = Ok st) :
  (exists st', compile (dropStreams spec) = Ok st' /\
               emitter st' = emitter st /\ st_errors st' = st_errors st) /\
  Emitter.endpoints (streamEmitter st) =
    map registryLine
      (flat_map (fun g => map (streamEntry (camelcase g.1)) (List.filter isStream g.2))
         (groups spec)) /\
  SchemaEndpoint.endpoints (schemaEndpoint st) = map dispatchLine (specEntries spec) /\
  (forall g operation,
     In g (groups spec) -> In operation g.2 -> type operation = "sse" ->
     In (dispatchLine (streamEntry (camelcase g.1) operation))
        (SchemaEndpoint.endpoints (schemaEndpoint st))).
Proof.
  destruct (compile_effect spec st Hrun)
    as (Hcls & Hreg & Himp & Hstream & Htable & Herr & _).
  split.
  { destruct (compile_runs (dropStreams spec)) as [st' Hst'].
    { rewrite allOperations_drop. rewrite List.Forall_forall in *.
      intros o Ho. apply filter_In in Ho as [Ho _]. by apply Hcls. }
    exists st'. split; [done|].
    destruct (compile_effect _ st' Hst') as (_ & Hreg' & Himp' & _ & _ & Herr' & _).
    rewrite specEntries_drop, filter_filter, <- Hreg in Hreg'.
    rewrite emitterImports_drop, standardErrors_drop, <- Himp in Himp'.
    rewrite standardErrors_drop, <- Herr in Herr'.
    split; [|done]. destruct (emitter st'), (emitter st). simpl in *. congruence. }
  split.
  { rewrite Hstream. f_equal. unfold specEntries, groupEntries.
    rewrite filter_flat_map. apply flat_map_ext. intros g.
    rewrite filter_flat_map.
    rewrite <- (flat_map_if isStream (streamEntry (camelcase g.1))).
    apply flat_map_ext. intros o. apply stream_entries_of. }
  split; [done|].
  intros g o Hg Ho Hsse. rewrite Htable. apply in_map. apply In_specEntries.
  exists g, o. repeat split; try done.
  unfold operationEntries. apply isStream_type in Hsse. rewrite Hsse. by left.
Qed.

(** ** The error union and the error import *)

(** C7, as the code has it.  The registry entries are those of the
    standard operations, one per schema variant; the error type of an entry
    is the declared error identifiers, or [ServerError] when the operation
    has no [errors] field, followed by [ParseError] of the input type of
    the variant, joined with a bar.  The last import of the registry
    is the error import, and its list holds every error identifier declared
    by a standard operation exactly once. *)
Theorem error_union_and_import (spec : Spec) (st : State)
    (Hrun : compile spec = Ok st) :
  (forall line,
     In line (Emitter.endpoints (emitter st)) <->
     exists g operation t,
       In g (groups spec) /\ In operation g.2 /\ type operation <> "sse" /\
       In t (map fst (schemas operation)) /\
       let input := "typeof " +:+
                    (camelcase g.1 +:+ "." +:+ camelcase (name operation +:+ " schema")) +:+
                    variantSuffix operation t in
       line =
       Emitter.entry
         (typePrefixOf operation t +:+ toUpperCase (method (trigger operation)) +:+ " " +:+
          path (trigger operation))
         ("{input: z.infer<" +:+ input +:+ ">; output: " +:+ use (formatOutput operation) +:+
          "; error: " +:+
          String.concat "|"
            ((match errors operation with
              | Some declared => declared
              | None => ["ServerError"]
              end) ++ ["ParseError<" +:+ input +:+ ">"]) +:+ "}")) /\
  (exists before,
     Emitter.imports (emitter st) =
     before ++ ["import type { " +:+
                String.concat ", " (removeDuplicates (standardErrors spec) id) +:+
                " } from './response';"]) /\
  NoDup (removeDuplicates (standardErrors spec) id) /\
  (forall e,
     In e (removeDuplicates (standardErrors spec) id) <->
     exists operation,
       In operation (allOperations spec) /\ type operation <> "sse" /\
       In e (declaredErrors operation)).
Proof.
  destruct (compile_effect spec st Hrun) as (_ & Hreg & Himp & _).
  split.
  { intros line. rewrite Hreg, in_map_iff. split.
    - intros (e & <- & He). apply filter_In in He as [He Hstd].
      apply In_specEntries in He as (g & o & Hg & Ho & He).
      unfold operationEntries in He. destruct (isStream o) eqn:Hs.
      + destruct He as [<-|[]]. discriminate.
      + apply in_map_iff in He as (t & <- & Ht).
        exists g, o, t. apply isStream_not_type in Hs. repeat split; done.
    - intros (g & o & t & Hg & Ho & Hs & Ht & ->).
      exists (variantEntry (camelcase g.1) o t). split; [reflexivity|].
      apply filter_In. split; [|done]. apply In_specEntries. exists g, o.
      repeat split; try done. unfold operationEntries.
      apply isStream_not_type in Hs. rewrite Hs. by apply in_map. }
  split.
  { eexists. rewrite Himp, app_assoc. reflexivity. }
  split; [apply removeDuplicates_NoDup|].
  intros e. rewrite removeDuplicates_In. unfold standardErrors. rewrite in_flat_map.
  split.
  - intros (o & Ho & He). apply filter_In in Ho as [Ho Hs].
    apply negb_true_iff, isStream_not_type in Hs. eauto.
  - intros (o & Ho & Hs & He). exists o. split; [|done].
    apply filter_In. split; [done|]. by apply negb_true_iff, isStream_not_type.
Qed.

(** ** The shared import of the schema modules *)

Lemma schemaModule_import spec st value :
  schemasImports st <> [] ->
  exists rest, schemaModule spec st value = zodImport (schemasImports st) +:+ nl +:+ rest.
Proof.
  intros Hne. unfold schemaModule.
  destruct (schemasImports st) as [|n ns] eqn:Hnames; [done|].
  cbn [map]. rewrite trim_zodImport. cbn [List.filter].
  assert (isEmpty (zodImport (n :: ns)) = false) as -> by reflexivity.
  cbn [negb]. apply concat_cons_nl.
Qed.

End Compiler.

(** ** The theorems on the examples *)

Lemma key_correlation_mixed :
  exists st,
    @compile asciiCase mixedSpec = Ok st /\
    (SchemaEndpoint.endpoints (schemaEndpoint st) =
       map (fun e => "  " +:+ dq +:+ key e +:+ dq +:+ ": " +:+ dispatchText e +:+ ",")
         (@specEntries asciiCase mixedSpec) /\
     Emitter.endpoints (emitter st) =
       map (fun e => "  " +:+ dq +:+ key e +:+ dq +:+ ": " +:+ registryText e +:+ ";")
         (List.filter (fun e => negb (stream e)) (@specEntries asciiCase mixedSpec)) /\
     Emitter.endpoints (streamEmitter st) =
       map (fun e => "  " +:+ dq +:+ key e +:+ dq +:+ ": " +:+ registryText e +:+ ";")
         (List.filter stream (@specEntries asciiCase mixedSpec)) /\
     map key (@specEntries asciiCase mixedSpec) =
       flat_map endpointKeys (allOperations mixedSpec)) /\
    map key (@specEntries asciiCase mixedSpec) =
      ["GET /list"; "GET /watch"; "GET /upload"; "formdata GET /upload"] /\
    Emitter.endpoints (emitter st) =
      ["  " +:+ dq +:+ "GET /list" +:+ dq +:+
       ": {input: z.infer<typeof users.listSchema>; output: Out; " +:+
       "error: ParseError<typeof users.listSchema>};";
       "  " +:+ dq +:+ "GET /upload" +:+ dq +:+
       ": {input: z.infer<typeof files.uploadSchema.json>; output: Out; " +:+
       "error: TooLarge|Denied|TooLarge|ParseError<typeof files.uploadSchema.json>};";
       "  " +:+ dq +:+ "formdata GET /upload" +:+ dq +:+
       ": {input: z.infer<typeof files.uploadSchema.formdata>; output: Out; " +:+
       "error: TooLarge|Denied|TooLarge|ParseError<typeof files.uploadSchema.formdata>};"] /\
    Emitter.endpoints (streamEmitter st) =
      ["  " +:+ dq +:+ "GET /watch" +:+ dq +:+
       ": {input: z.infer<typeof users.watchSchema>, output: Out};"] /\
    map (fun kl => startsWith ("  " +:+ dq +:+ kl.1 +:+ dq +:+ ": {") kl.2)
      (combine ["GET /list"; "GET /watch"; "GET /upload"; "formdata GET /upload"]
         (SchemaEndpoint.endpoints (schemaEndpoint st))) = [true; true; true; true].
Proof.
  eexists. split; [vm_compute; reflexivity|].
  split; [apply (@key_correlation asciiCase mixedSpec); vm_compute; reflexivity|].
  repeat split; vm_compute; reflexivity.
Defined.

Example mixed_keys :
  flat_map endpointKeys (allOperations mixedSpec) =
  ["GET /list"; "GET /watch"; "GET /upload"; "formdata GET /upload"].
Proof. reflexivity. Qed.

Lemma stream_dispatch_entry_watch :
  exists st',
    type watchOp = "sse" /\
    @processOperation asciiCase "users" usersStarted watchOp = Ok st' /\
    (SchemaEndpoint.endpoints (schemaEndpoint st') =
       SchemaEndpoint.endpoints (schemaEndpoint usersStarted) ++
       ["  " +:+ dq +:+ "GET /watch" +:+ dq +:+ ": " +:+
        String.concat nl
          ["{";
           "        schema: users.watchSchema,";
           "        toRequest(input: StreamEndpoints['GET /watch']['input'], init: {baseUrl:string; headers?: Record<string, string>}) {";
           "          const endpoint = 'GET /watch';";
           "            return toRequest(endpoint, json(input, {";
           "            inputHeaders: [],";
           "            inputQuery: [" +:+ dq +:+ "since" +:+ dq +:+ "],";
           "            inputBody: [],";
           "            inputParams: [],";
           "          }), init);";
           "          },";
           "        }"] +:+ ","] /\
     forall ct variants st0 st1,
       @processOperation asciiCase "users" st0 (withEncoding ct variants watchOp) = Ok st1 ->
       SchemaEndpoint.endpoints (schemaEndpoint st0) =
       SchemaEndpoint.endpoints (schemaEndpoint usersStarted) ->
       SchemaEndpoint.endpoints (schemaEndpoint st1) =
       SchemaEndpoint.endpoints (schemaEndpoint st')).
Proof.
  eexists. split; [reflexivity|]. split; [vm_compute; reflexivity|].
  apply (@stream_dispatch_entry asciiCase "users" usersStarted _ watchOp);
    [reflexivity | vm_compute; reflexivity].
Defined.

Lemma inputs_classified_upload :
  In uploadOp (allOperations mixedSpec) /\
  NoDup (map fst (inputs uploadOp)) /\
  ((forallb (fun e => recognised (source e.2)) (inputs uploadOp) = true ->
    exists b,
      classifyInputs uploadOp = Ok b /\
      forall fieldName prop,
        In (fieldName, prop) (inputs uploadOp) ->
        occurrences (quoted fieldName) (inputHeaders b) =
          (if isHeaderSource (source prop) then 1 else 0) /\
        occurrences (quoted fieldName) (inputQuery b) =
          (if String.eqb (source prop) "query" then 1 else 0) /\
        occurrences (quoted fieldName) (inputBody b) =
          (if String.eqb (source prop) "body" then 1 else 0) /\
        occurrences (quoted fieldName) (inputParams b) =
          (if String.eqb (source prop) "path" then 1 else 0) /\
        occurrences (quoted fieldName)
          (inputHeaders b ++ inputQuery b ++ inputBody b ++ inputParams b) =
          (if String.eqb (source prop) "internal" then 0 else 1)) /\
   (forallb (fun e => recognised (source e.2)) (inputs uploadOp) = false ->
    exists failing fieldName prop,
      In failing (allOperations mixedSpec) /\
      In (fieldName, prop) (inputs failing) /\
      recognised (source prop) = false /\
      @generateClientSdk asciiCase plainBoilerplate mixedSpec =
      Throw (Error ("Unknown source " +:+ source prop +:+ " in " +:+ fieldName +:+ " " +:+
                    default "undefined" (JSON_stringify (inputJson prop)) +:+
                    " in " +:+ name failing)))).
Proof.
  assert (Hin : In uploadOp (allOperations mixedSpec)).
  { vm_compute. right. right. left. reflexivity. }
  assert (Hkeys : NoDup (map fst (inputs uploadOp))).
  { apply (bool_decide_unpack _). vm_compute. reflexivity. }
  split; [exact Hin|]. split; [exact Hkeys|].
  exact (@inputs_classified asciiCase plainBoilerplate mixedSpec uploadOp Hin Hkeys).
Defined.

(** The abort on the example with a [cookie] source. *)
Example broken_spec_aborts :
  @generateClientSdk asciiCase plainBoilerplate brokenSpec =
  Throw (Error ("Unknown source cookie in page {" +:+ dq +:+ "source" +:+ dq +:+ ":" +:+
                dq +:+ "cookie" +:+ dq +:+ "," +:+ dq +:+ "schema" +:+ dq +:+ ":" +:+
                dq +:+ "z.string()" +:+ dq +:+ "} in broken")).
Proof. vm_compute. reflexivity. Qed.

(** C5, as the claim states it, fails: the dispatch entry of the streaming
    operation [watch] is in the dispatch table that holds the entries of
    the standard operations, so that the table differs from the one the
    specification without [watch] gives. *)
Lemma streams_share_dispatch_table : ~ @streamsApart asciiCase mixedSpec.
Proof.
  intros Hclaim.
  destruct (@compile asciiCase mixedSpec) as [st|e] eqn:Hst; [|vm_compute in Hst; discriminate].
  destruct (@compile asciiCase (dropStreams mixedSpec)) as [st'|e] eqn:Hst';
    [|vm_compute in Hst'; discriminate].
  destruct (Hclaim st st' Hst Hst') as (_ & Htable & _).
  apply (f_equal (fun s => length (SchemaEndpoint.endpoints s))) in Htable.
  vm_compute in Hst, Hst'. injection Hst as <-. injection Hst' as <-.
  vm_compute in Htable. discriminate.
Qed.

Lemma streams_routed_mixed :
  exists st,
    @compile asciiCase mixedSpec = Ok st /\
    ((exists st', @compile asciiCase (dropStreams mixedSpec) = Ok st' /\
                  emitter st' = emitter st /\ st_errors st' = st_errors st) /\
     Emitter.endpoints (streamEmitter st) =
       map registryLine
         (flat_map (fun g => map (@streamEntry asciiCase (@camelcase asciiCase g.1))
                               (List.filter isStream g.2))
            (groups mixedSpec)) /\
     SchemaEndpoint.endpoints (schemaEndpoint st) =
       map dispatchLine (@specEntries asciiCase mixedSpec) /\
     (forall g operation,
        In g (groups mixedSpec) -> In operation g.2 -> type operation = "sse" ->
        In (dispatchLine (@streamEntry asciiCase (@camelcase asciiCase g.1) operation))
           (SchemaEndpoint.endpoints (schemaEndpoint st)))).
Proof.
  eexists. split; [vm_compute; reflexivity|].
  apply (@streams_routed asciiCase mixedSpec). vm_compute. reflexivity.
Defined.

(** C7, as the claim states it, fails: an operation that declares the empty
    list of errors gets no fallback identifier in its registry entry. *)
Lemma empty_errors_no_fallback :
  errors listOp = Some [] /\
  errorUnion listOp "typeof users.listSchema" = ["ParseError<typeof users.listSchema>"] /\
  errorUnion listOp "typeof users.listSchema" <>
  errorUnionWithFallback listOp "typeof users.listSchema" /\
  bind (@compile asciiCase plainSpec) (fun st => Ok (Emitter.endpoints (emitter st))) =
  Ok ["  " +:+ dq +:+ "GET /list" +:+ dq +:+
      ": {input: z.infer<typeof users.listSchema>; output: Out; " +:+
      "error: ParseError<typeof users.listSchema>};"].
Proof.
  split; [reflexivity|]. split; [reflexivity|].
  split; [vm_compute; discriminate | vm_compute; reflexivity].
Qed.

Lemma error_union_and_import_mixed :
  exists st,
    @compile asciiCase mixedSpec = Ok st /\
    ((forall line,
        In line (Emitter.endpoints (emitter st)) <->
        exists g operation t,
          In g (groups mixedSpec) /\ In operation g.2 /\ type operation <> "sse" /\
          In t (map fst (schemas operation)) /\
          let input := "typeof " +:+
                       (@camelcase asciiCase g.1 +:+ "." +:+
                        @camelcase asciiCase (name operation +:+ " schema")) +:+
                       variantSuffix operation t in
          line =
          Emitter.entry
            (typePrefixOf operation t +:+ toUpperCase (method (trigger operation)) +:+ " " +:+
             path (trigger operation))
            ("{input: z.infer<" +:+ input +:+ ">; output: " +:+
             use (formatOutput operation) +:+ "; error: " +:+
             String.concat "|"
               ((match errors operation with
                 | Some declared => declared
                 | None => ["ServerError"]
                 end) ++ ["ParseError<" +:+ input +:+ ">"]) +:+ "}")) /\
     (exists before,
        Emitter.imports (emitter st) =
        before ++ ["import type { " +:+
                   String.concat ", " (removeDuplicates (standardErrors mixedSpec) id) +:+
                   " } from './response';"]) /\
     NoDup (removeDuplicates (standardErrors mixedSpec) id) /\
     (forall e,
        In e (removeDuplicates (standardErrors mixedSpec) id) <->
        exists operation,
          In operation (allOperations mixedSpec) /\ type operation <> "sse" /\
          In e (declaredErrors operation))).
Proof.
  eexists. split; [vm_compute; reflexivity|].
  apply (@error_union_and_import asciiCase mixedSpec). vm_compute. reflexivity.
Defined.

(** The fallback identifier of an operation without an [errors] field is
    in its registry entry and not in the error import. *)
Example fallback_not_imported :
  bind (@compile asciiCase pingSpec)
    (fun st => Ok (Emitter.endpoints (emitter st), last (Emitter.imports (emitter st)))) =
  Ok (["  " +:+ dq +:+ "GET /ping" +:+ dq +:+
       ": {input: z.infer<typeof users.pingSchema>; output: Out; " +:+
       "error: ServerError|ParseError<typeof users.pingSchema>};"],
      Some "import type {  } from './response';").
Proof. vm_compute. reflexivity. Qed.

Example mixed_error_import :
  removeDuplicates (standardErrors mixedSpec) id = ["TooLarge"; "Denied"].
Proof. reflexivity. Qed.

(** C10, as the claim states it, fails: when no operation declares a named
    import, no schema module has the shared import line. *)
Lemma no_import_line_without_imports :
  ~ (forall st, @compile asciiCase plainSpec = Ok st -> sharedImportFirst plainSpec st).
Proof.
  intros Hclaim.
  destruct (@compile asciiCase plainSpec) as [st|e] eqn:Hst; [|vm_compute in Hst; discriminate].
  specialize (Hclaim st eq_refl).
  vm_compute in Hst. injection Hst as <-.
  destruct (Hclaim "inputs/users.ts"
              ("import z from 'zod';" +:+ nl +:+
               "export const listSchema = z.object({});" +:+ nl))
    as [rest Hrest]; [vm_compute; left; reflexivity|].
  vm_compute in Hrest. discriminate.
Qed.

End SdkFacts.

(** * Further properties of the serializer and the accumulator *)

(** ** Shared lemmas *)

Lemma bind_Throw {A B : Type} (r : result A) (k : A -> result B) (e : JsError) :
  r = Throw e -> bind r k = Throw e.
Proof. by intros ->. Qed.

Lemma obj_set_fresh {V : Type} k (v : V) o :
  ~ In k (map fst o) -> obj_set k v o = o ++ [(k, v)].
Proof.
  induction o as [|[k' v'] o IH]; simpl; [done|]. intros Hk.
  destruct (String.eqb_spec k k') as [->|_]; [tauto|]. rewrite IH; tauto.
Qed.

Lemma foldM_snoc {S A : Type} (body : S -> A -> result S) (st : S) (xs : list A) (x : A) :
  foldM body st (xs ++ [x]) = bind (foldM body st xs) (fun st' => body st' x).
Proof.
  revert st. induction xs as [|y xs IH]; intros st; simpl.
  - by destruct (body st x).
  - destruct (body st y); simpl; [apply IH | done].
Qed.

Module PathsProperties.
Import Paths PathsSpec PathsShapes PathsFacts.

Lemma mapM_serializable types :
  Forall (fun d =>
            match toSchema d with
            | Ok _ => serializable d = true
            | Throw e => serializable d = false /\
                         e = TypeError "Cannot read properties of undefined"
            end) types ->
  match mapM toSchema types with
  | Ok _ => forallb serializable types = true
  | Throw e => forallb serializable types = false /\
               e = TypeError "Cannot read properties of undefined"
  end.
Proof.
  induction 1 as [|t types Ht _ IH]; [done|].
  cbn [mapM forallb]. fold (mapM toSchema types).
  destruct (toSchema t) as [j|e]; simpl.
  - rewrite Ht. simpl. destruct (mapM toSchema types) as [js|e]; simpl; done.
  - destruct Ht as [-> ->]. done.
Qed.

Lemma serializeFields_serializable fields props :
  Forall (fun kv =>
            match toSchema kv.2 with
            | Ok _ => serializable kv.2 = true
            | Throw e => serializable kv.2 = false /\
                         e = TypeError "Cannot read properties of undefined"
            end) fields ->
  match serializeFields fields props with
  | Ok _ => forallb (fun kv => match kv with (_, v) => serializable v end) fields = true
  | Throw e => forallb (fun kv => match kv with (_, v) => serializable v end) fields = false /\
               e = TypeError "Cannot read properties of undefined"
  end.
Proof.
  intros HF. revert props. induction HF as [|[k v] fields Hv _ IH]; intros props; [done|].
  cbn [serializeFields forallb]. simpl in Hv.
  destruct (toSchema v) as [j|e]; simpl.
  - rewrite Hv. simpl. apply IH.
  - destruct Hv as [-> ->]. done.
Qed.

(** The serializer returns exactly on the serializable nodes. *)
Lemma toSchema_decided (d : DateType) :
  match toSchema d with
  | Ok _ => serializable d = true
  | Throw e => serializable d = false /\
               e = TypeError "Cannot read properties of undefined"
  end.
Proof.
  induction d as [| | s | kind optional value types IH | fields IH]
    using DateType_nested_ind.
  - done.
  - done.
  - simpl. by destruct (startsWith "#" s).
  - rewrite toSchema_node. cbn [serializable].
    pose proof (mapM_serializable types IH) as Hall.
    destruct (String.eqb kind "literal"); [done|].
    destruct (String.eqb kind "record").
    { destruct types as [|t types]; [done|].
      apply Forall_cons in IH as [Ht _]. destruct (toSchema t); done. }
    destruct (String.eqb kind "array"); [by destruct (mapM toSchema types)|].
    destruct (String.eqb kind "union"); [by destruct (mapM toSchema types)|].
    destruct (String.eqb kind "intersection"); [by destruct (mapM toSchema types)|].
    by destruct (mapM toSchema types).
  - rewrite toSchema_object. cbn [serializable].
    destruct (kindIsTag fields); [done|]. simpl.
    pose proof (serializeFields_serializable fields [] IH) as Hall.
    by destruct (serializeFields fields []).
Qed.

(** X1. The serializer returns exactly on the serializable nodes, and
    throws the one [TypeError] on all others: it fails when a position it
    serializes holds an object without child list whose field [kind] names
    a tagged kind.  All children of an array are serialized, so that a
    child the result does not use can make it fail. *)
Theorem toSchema_domain (d : DateType) :
  match toSchema d with
  | Ok _ => serializable d = true
  | Throw e => serializable d = false /\
               e = TypeError "Cannot read properties of undefined"
  end.
Proof. apply toSchema_decided. Qed.

Example array_unused_child_throws :
  toSchema (DNode "array" false None [DString "string"; DObject [("kind", DString "union")]]) =
  Throw (TypeError "Cannot read properties of undefined").
Proof. reflexivity. Qed.

(** X2. Whatever the input, a schema the serializer returns is an object
    and has no [oneOf] member. *)
Theorem toSchema_never_union (d : DateType) :
  match toSchema d with
  | Ok j => exists props, j = JObject props /\ obj_get "oneOf" props = None
  | Throw _ => True
  end.
Proof.
  destruct (toSchema d) as [j|e] eqn:Hj; [|done].
  apply toSchema_noUnion in Hj. destruct j; try done. eauto.
Qed.

Lemma serializeFields_distinct fields props :
  NoDup (map fst fields) ->
  (forall k, In k (map fst fields) -> ~ In k (map fst props)) ->
  serializeFields fields props =
  bind (serializedFields fields) (fun added => Ok (props ++ added)).
Proof.
  revert props. induction fields as [|[k v] fields IH]; intros props Hnd Hfresh.
  - simpl. by rewrite app_nil_r.
  - apply NoDup_cons in Hnd as [Hk Hnd]. rewrite list_elem_of_In in Hk.
    cbn [serializeFields]. unfold serializedFields. cbn [mapM fst snd].
    fold (serializedFields fields).
    destruct (toSchema v) as [j|e]; [|done]. cbn [bind].
    rewrite obj_set_fresh by (apply Hfresh; by left).
    rewrite IH; [|done|].
    + destruct (serializedFields fields) as [added|e]; [|done]. simpl.
      by rewrite <- app_assoc.
    + intros k' Hk' Hin. rewrite map_app, in_app_iff in Hin. simpl in Hin.
      destruct Hin as [Hin|[<-|[]]]; [|done].
      apply (Hfresh k'); [by right | done].
Qed.

(** X3. A composite whose field names are distinct serializes to an object
    schema whose properties are its fields, in their order, each
    serialized; a field that fails makes the whole fail. *)
Theorem toSchema_composite (fields : list (string * DateType))
    (Hkeys : NoDup (map fst fields)) (Hkind : kindIsTag fields = false) :
  toSchema (DObject fields) =
  bind (serializedFields fields)
    (fun props =>
       Ok (JObject [("type", JString "object"); ("properties", JObject props);
                    ("additionalProperties", JBool false)])).
Proof.
  rewrite toSchema_object, Hkind, serializeFields_distinct by (done || by intros ? ? []).
  by destruct (serializedFields fields).
Qed.

Lemma toSchema_composite_address :
  NoDup (map fst [("street", DString "string"); ("tags", DNode "array" false None [DString "string"])]) /\
  kindIsTag [("street", DString "string"); ("tags", DNode "array" false None [DString "string"])] = false /\
  toSchema (DObject [("street", DString "string");
                     ("tags", DNode "array" false None [DString "string"])]) =
  bind (serializedFields [("street", DString "string");
                          ("tags", DNode "array" false None [DString "string"])])
    (fun props =>
       Ok (JObject [("type", JString "object"); ("properties", JObject props);
                    ("additionalProperties", JBool false)])).
Proof.
  assert (Hkeys : NoDup (map fst [("street", DString "string");
                                  ("tags", DNode "array" false None [DString "string"])])).
  { apply (bool_decide_unpack _). vm_compute. reflexivity. }
  split; [exact Hkeys|]. split; [reflexivity|].
  exact (toSchema_composite _ Hkeys eq_refl).
Defined.

(** ** The content of the responses object *)

Lemma contributions_snoc sc ct seen items item :
  contributions sc ct seen (items ++ [item]) =
  contributions sc ct seen items ++
  (if String.eqb (statusCode item) sc && String.eqb (contentType item) ct
   then [if negb (seen || existsb (fun i => String.eqb (statusCode i) sc) items) &&
            isOctetStream ct
         then schemaBinary else schemaOf item]
   else []).
Proof.
  revert seen. induction items as [|i items IH]; intros seen; cbn [contributions app existsb].
  - rewrite orb_false_r, app_nil_r.
    destruct (String.eqb (statusCode item) sc); [|done].
    by destruct (String.eqb (contentType item) ct).
  - destruct (String.eqb (statusCode i) sc); cbn [orb].
    + rewrite IH, <- app_assoc. by rewrite orb_true_r.
    + by rewrite IH.
Qed.

Lemma contributions_unseen sc ct seen items :
  existsb (fun i => String.eqb (statusCode i) sc) items = false ->
  contributions sc ct seen items = [].
Proof.
  revert seen. induction items as [|i items IH]; intros seen; cbn [contributions existsb]; [done|].
  intros [-> Hrest]%orb_false_iff. by apply IH.
Qed.

Lemma schemaOf_noUnion item : noUnion (schemaOf item).
Proof.
  unfold schemaOf. destruct (itemSchema item) eqn:Hs; [|reflexivity].
  by eapply itemSchema_noUnion.
Qed.

Lemma contributions_noUnion sc ct seen items :
  Forall noUnion (contributions sc ct seen items).
Proof.
  revert seen. induction items as [|i items IH]; intros seen; cbn [contributions];
    [constructor|].
  destruct (String.eqb (statusCode i) sc); [|apply IH].
  apply Forall_app. split; [|apply IH].
  destruct (String.eqb (contentType i) ct); [|constructor].
  constructor; [|constructor].
  destruct (negb seen && isOctetStream ct); [reflexivity | apply schemaOf_noUnion].
Qed.

Lemma distinctSchemas_snoc l s :
  distinctSchemas (l ++ [s]) =
  if existsb (fun it => sameJson it s) (distinctSchemas l)
  then distinctSchemas l else distinctSchemas l ++ [s].
Proof. unfold distinctSchemas. by rewrite fold_left_app. Qed.

Lemma distinctSchemas_loop (P : json -> Prop) l acc :
  Forall P acc -> Forall P l ->
  Forall P (fold_left (fun acc s => if existsb (fun it => sameJson it s) acc
                                    then acc else acc ++ [s]) l acc) /\
  (acc <> [] \/ l <> [] ->
   fold_left (fun acc s => if existsb (fun it => sameJson it s) acc
                           then acc else acc ++ [s]) l acc <> []).
Proof.
  intros Hacc Hl. revert acc Hacc.
  induction Hl as [|s l Hs _ IH]; intros acc Hacc; cbn [fold_left].
  - split; [done|]. intros [?|?]; done.
  - destruct (existsb (fun it => sameJson it s) acc) eqn:Hseen.
    + destruct (IH acc Hacc) as [HP Hne]. split; [done|]. intros _. apply Hne. left.
      intros ->. discriminate.
    + destruct (IH (acc ++ [s])) as [HP Hne]; [apply Forall_app; by split; [|constructor]|].
      split; [done|]. intros _. apply Hne. left. by destruct acc.
Qed.

Lemma noUnion_truthy j : noUnion j -> truthy j = true.
Proof. by destruct j. Qed.

(** Merging a further schema into the schema that stands for those added
    before gives the schema that stands for all of them. *)
Lemma mergeSchema_unionOf added s :
  Forall noUnion added -> added <> [] -> noUnion s ->
  mergeSchema (unionOf added) s = Ok (unionOf (added ++ [s])).
Proof.
  intros Hplain Hne Hs. unfold unionOf. rewrite distinctSchemas_snoc.
  destruct (distinctSchemas_loop noUnion added [] (Forall_nil_2 _) Hplain) as [Hd Hdne].
  fold (distinctSchemas added) in Hd, Hdne.
  destruct (distinctSchemas added) as [|a [|b rest]] eqn:Hdist.
  - exfalso. apply Hdne; [by right | done].
  - apply Forall_cons in Hd as [Ha _]. cbn [existsb]. rewrite orb_false_r.
    destruct (sameJson a s) eqn:Has.
    + by apply mergeSchema_equal.
    + by apply mergeSchema_distinct.
  - destruct (existsb (fun it => sameJson it s) (a :: b :: rest)) eqn:Hseen.
    + apply mergeSchema_member with (l := a :: b :: rest); [done| |done].
      eapply Forall_impl; [exact Hd|]. apply noUnion_truthy.
    + rewrite mergeSchema_append with (l := a :: b :: rest); [done|done|].
      clear -Hseen. induction (a :: b :: rest) as [|x l IH]; [done|].
      cbn [existsb forallb] in *. apply orb_false_iff in Hseen as [Hx Hl].
      unfold sameJson in Hx. rewrite Hx. simpl. by apply IH.
Qed.

Lemma unionOf_single s : unionOf [s] = s.
Proof. reflexivity. Qed.

Lemma schemaAt_other_status ro sc sc' ct r :
  sc <> sc' -> schemaAt (<[sc' := r]> ro) sc ct = schemaAt ro sc ct.
Proof. intros Hne. unfold schemaAt. by rewrite lookup_insert_ne. Qed.

Lemma schemaAt_other_content ro sc ct ct' r s :
  ro !! sc = Some r -> ct <> ct' ->
  schemaAt (<[sc := setContent r ct' s]> ro) sc ct = schemaAt ro sc ct.
Proof.
  intros Hr Hne. unfold schemaAt. rewrite lookup_insert_eq, Hr. simpl.
  by rewrite lookup_insert_ne.
Qed.

Lemma firstWith_snoc sc items item :
  firstWith sc (items ++ [item]) =
  match firstWith sc items with
  | Some first => Some first
  | None => if String.eqb (statusCode item) sc then Some item else None
  end.
Proof.
  unfold firstWith. induction items as [|i items IH]; simpl; [done|].
  by destruct (String.eqb (statusCode i) sc).
Qed.

Lemma firstWith_existsb sc items :
  existsb (fun i => String.eqb (statusCode i) sc) items =
  match firstWith sc items with Some _ => true | None => false end.
Proof.
  unfold firstWith. induction items as [|i items IH]; simpl; [done|].
  by destruct (String.eqb (statusCode i) sc).
Qed.

Lemma addResponse_schema ro item r :
  addResponse ro item = Ok r -> itemSchema item = Ok (schemaOf item).
Proof.
  unfold addResponse, schemaOf. destruct (itemSchema item); [done | discriminate].
Qed.

(** The invariant of the loop of [#responseItemToResponses]. *)
Lemma responses_invariant items r :
  responseItemToResponses items = Ok r ->
  (forall sc,
     match firstWith sc items with
     | None => r !! sc = None
     | Some first =>
         exists ro, r !! sc = Some ro /\
                    description ro = "Response for " +:+ sc /\
                    ro_headers ro = headerSchemas (headers first)
     end) /\
  (forall sc ct, schemaAt r sc ct = expectedSchema items sc ct).
Proof.
  unfold responseItemToResponses. revert r.
  induction items as [|item items IH] using rev_ind; intros r Hrun.
  { injection Hrun as <-. split; [intros sc; apply lookup_empty|].
    intros sc ct. unfold schemaAt. by rewrite lookup_empty. }
  rewrite foldM_snoc in Hrun. apply bind_Ok in Hrun as (r0 & Hr0 & Hadd).
  destruct (IH r0 Hr0) as [Hstatus Hcontent]. clear IH Hr0.
  pose proof (addResponse_schema _ _ _ Hadd) as Hs.
  set (s := schemaOf item) in *.
  set (sc0 := statusCode item) in *. set (ct0 := contentType item) in *.
  assert (Hexp : forall sc ct,
             expectedSchema (items ++ [item]) sc ct =
             match contributions sc ct false items ++
                   (if String.eqb sc0 sc && String.eqb ct0 ct
                    then [if negb (existsb (fun i => String.eqb (statusCode i) sc) items) &&
                             isOctetStream ct
                          then schemaBinary else s]
                    else []) with
             | [] => None
             | added => Some (unionOf added)
             end).
  { intros sc ct. unfold expectedSchema. by rewrite contributions_snoc. }
  destruct (r0 !! sc0) as [ro|] eqn:Hro.
  - assert (Hseen : existsb (fun i => String.eqb (statusCode i) sc0) items = true).
    { rewrite firstWith_existsb. specialize (Hstatus sc0).
      destruct (firstWith sc0 items); [done | congruence]. }
    destruct (content ro !! ct0) as [m|] eqn:Hm.
    + rewrite (addResponse_same_pair _ _ _ _ _ Hs Hro Hm) in Hadd.
      apply bind_Ok in Hadd as (merged & Hmerged & Hr). injection Hr as <-.
      split.
      * intros sc. rewrite firstWith_snoc. change (statusCode item) with sc0.
        specialize (Hstatus sc).
        destruct (String.eqb_spec sc0 sc) as [<-|Hne].
        -- destruct (firstWith sc0 items) as [first|]; [|congruence].
           destruct Hstatus as (ro' & Hro' & Hd & Hh). rewrite Hro in Hro'.
           injection Hro' as <-. eexists. rewrite lookup_insert_eq. split; [done|].
           by split.
        -- rewrite lookup_insert_ne by done. by destruct (firstWith sc items).
      * intros sc ct. rewrite Hexp.
        destruct (String.eqb_spec sc0 sc) as [<-|Hne]; cbn [andb].
        -- destruct (String.eqb_spec ct0 ct) as [<-|Hct].
           ++ rewrite schemaAt_setContent, Hseen. cbn [negb andb].
              assert (schemaAt r0 sc0 ct0 = Some (schema m)) as Hold.
              { unfold schemaAt. rewrite Hro. simpl. by rewrite Hm. }
              rewrite Hcontent in Hold. unfold expectedSchema in Hold.
              pose proof (contributions_noUnion sc0 ct0 false items) as Hplain.
              destruct (contributions sc0 ct0 false items) as [|a added] eqn:Hc;
                [discriminate|].
              injection Hold as Hold. rewrite <- Hold in Hmerged.
              rewrite mergeSchema_unionOf in Hmerged;
                [|done|done|apply schemaOf_noUnion].
              injection Hmerged as <-. by destruct added.
           ++ rewrite schemaAt_other_content by done. rewrite app_nil_r.
              apply Hcontent.
        -- rewrite schemaAt_other_status by done. rewrite app_nil_r. apply Hcontent.
    + destruct (inherited ct0) eqn:Hown;
        [by rewrite (addResponse_inherited_content _ _ _ _ Hs Hro Hm Hown) in Hadd|].
      rewrite (addResponse_sibling _ _ _ _ Hs Hro Hm Hown) in Hadd. injection Hadd as <-.
      split.
      * intros sc. rewrite firstWith_snoc. change (statusCode item) with sc0.
        specialize (Hstatus sc).
        destruct (String.eqb_spec sc0 sc) as [<-|Hne].
        -- destruct (firstWith sc0 items) as [first|]; [|congruence].
           destruct Hstatus as (ro' & Hro' & Hd & Hh). rewrite Hro in Hro'.
           injection Hro' as <-. eexists. rewrite lookup_insert_eq. split; [done|].
           by split.
        -- rewrite lookup_insert_ne by done. by destruct (firstWith sc items).
      * intros sc ct. rewrite Hexp.
        destruct (String.eqb_spec sc0 sc) as [<-|Hne]; cbn [andb].
        -- destruct (String.eqb_spec ct0 ct) as [<-|Hct].
           ++ rewrite schemaAt_setContent, Hseen. cbn [negb andb].
              assert (schemaAt r0 sc0 ct0 = None) as Hold.
              { unfold schemaAt. rewrite Hro. simpl. by rewrite Hm. }
              rewrite Hcontent in Hold. unfold expectedSchema in Hold.
              destruct (contributions sc0 ct0 false items); [|discriminate].
              reflexivity.
           ++ rewrite schemaAt_other_content by done. rewrite app_nil_r.
              apply Hcontent.
        -- rewrite schemaAt_other_status by done. rewrite app_nil_r. apply Hcontent.
  - assert (Hseen : existsb (fun i => String.eqb (statusCode i) sc0) items = false).
    { rewrite firstWith_existsb. specialize (Hstatus sc0).
      destruct (firstWith sc0 items) as [first|]; [|done].
      destruct Hstatus as (? & ? & _). congruence. }
    destruct (inherited sc0) eqn:Hown;
      [by rewrite (addResponse_inherited_status _ _ _ Hs Hro Hown) in Hadd|].
    rewrite (addResponse_first _ _ _ Hs Hro Hown) in Hadd. injection Hadd as <-.
    split.
    * intros sc. rewrite firstWith_snoc. change (statusCode item) with sc0.
        specialize (Hstatus sc).
      destruct (String.eqb_spec sc0 sc) as [<-|Hne].
      -- rewrite firstWith_existsb in Hseen.
         destruct (firstWith sc0 items); [done|].
         eexists. rewrite lookup_insert_eq. by repeat split.
      -- rewrite lookup_insert_ne by done. by destruct (firstWith sc items).
    * intros sc ct. rewrite Hexp.
      destruct (String.eqb_spec sc0 sc) as [<-|Hne]; cbn [andb].
      -- rewrite (contributions_unseen _ _ _ _ Hseen), Hseen. cbn [negb andb app].
         unfold schemaAt. rewrite lookup_insert_eq. cbn.
         destruct (String.eqb_spec ct0 ct) as [<-|Hct].
         ++ rewrite lookup_singleton_eq, unionOf_single. reflexivity.
         ++ by rewrite lookup_singleton_ne.
      -- rewrite schemaAt_other_status by done. rewrite app_nil_r. apply Hcontent.
Qed.

(** X4. The responses object has one response per status code of the
    items and no other: its description is [Response for <statusCode>], and
    its headers are those of the first item with that status code; the
    headers of later items with the same status code are dropped. *)
Theorem responses_status_entry (items : list ResponseItem)
    (r : gmap string ResponseObject)
    (Hrun : responseItemToResponses items = Ok r) (sc : string) :
  match firstWith sc items with
  | None => r !! sc = None
  | Some first =>
      exists ro, r !! sc = Some ro /\
                 description ro = "Response for " +:+ sc /\
                 ro_headers ro = headerSchemas (headers first)
  end.
Proof. by apply responses_invariant. Qed.

Lemma responses_status_entry_sample :
  exists r,
    responseItemToResponses sampleResponses = Ok r /\
    match firstWith "200" sampleResponses with
    | None => r !! "200" = None
    | Some first =>
        exists ro, r !! "200" = Some ro /\
                   description ro = "Response for " +:+ "200" /\
                   ro_headers ro = headerSchemas (headers first)
    end.
Proof.
  eexists. split; [vm_compute; reflexivity|].
  apply (responses_status_entry sampleResponses). vm_compute. reflexivity.
Defined.

(** X5. The schema stored under a status code and a content type is
    determined by the schemas added under that pair, in order: a single one
    when they all have the same JSON text, else the union of those with
    different text, each at its first occurrence; a pair no item names has
    no entry.  The item that opens its status code adds the binary schema
    when its content type is [application/octet-stream]; every other item
    adds the schema of its response type. *)
Theorem responses_content (items : list ResponseItem)
    (r : gmap string ResponseObject)
    (Hrun : responseItemToResponses items = Ok r) (sc ct : string) :
  schemaAt r sc ct = expectedSchema items sc ct.
Proof. by apply responses_invariant. Qed.

Lemma responses_content_sample :
  exists r,
    responseItemToResponses sampleResponses = Ok r /\
    schemaAt r "200" "application/json" =
    expectedSchema sampleResponses "200" "application/json".
Proof.
  eexists. split; [vm_compute; reflexivity|].
  apply (responses_content sampleResponses). vm_compute. reflexivity.
Defined.

Example sample_union :
  expectedSchema sampleResponses "200" "application/json" =
  Some (JObject
          [("oneOf",
            JArray [JObject [("type", JString "array");
                             ("items", JObject [("$ref", JString "#/components/schemas/Report")])];
                    JObject [("$ref", JString "#/components/schemas/Problem")]])]).
Proof. vm_compute. reflexivity. Qed.

Lemma itemSchema_domain item :
  match itemSchema item with
  | Ok _ => itemSerializable item = true
  | Throw e => itemSerializable item = false /\
               e = TypeError "Cannot read properties of undefined"
  end.
Proof.
  unfold itemSchema, itemSerializable. destruct (response item) as [d|]; [|done].
  destruct (truthyNode d); [|done]. cbn [negb orb]. apply toSchema_decided.
Qed.

Lemma addResponse_decided items r0 item :
  responseItemToResponses items = Ok r0 ->
  match addResponse r0 item with
  | Ok _ => itemSerializable item = true
  | Throw e =>
      e = TypeError "Cannot read properties of undefined" /\
      (itemSerializable item = false \/ inherited (statusCode item) = true \/
       inherited (contentType item) = true)
  end.
Proof.
  intros Hr0. pose proof (itemSchema_domain item) as Hitem.
  destruct (itemSchema item) as [s|e] eqn:Hs.
  - destruct (r0 !! statusCode item) as [ro|] eqn:Hro.
    + destruct (content ro !! contentType item) as [m|] eqn:Hm.
      * rewrite (addResponse_same_pair _ _ _ _ _ Hs Hro Hm).
        assert (schemaAt r0 (statusCode item) (contentType item) = Some (schema m)) as Hold.
        { unfold schemaAt. rewrite Hro. simpl. by rewrite Hm. }
        rewrite (proj2 (responses_invariant items r0 Hr0)) in Hold.
        unfold expectedSchema in Hold.
        pose proof (contributions_noUnion (statusCode item) (contentType item) false items)
          as Hplain.
        destruct (contributions (statusCode item) (contentType item) false items)
          as [|a added]; [discriminate|].
        injection Hold as <-.
        rewrite mergeSchema_unionOf; [done|done|done|by eapply itemSchema_noUnion].
      * destruct (inherited (contentType item)) eqn:Hown.
        -- rewrite (addResponse_inherited_content _ _ _ _ Hs Hro Hm Hown). tauto.
        -- by rewrite (addResponse_sibling _ _ _ _ Hs Hro Hm Hown).
    + destruct (inherited (statusCode item)) eqn:Hown.
      * rewrite (addResponse_inherited_status _ _ _ Hs Hro Hown). tauto.
      * by rewrite (addResponse_first _ _ _ Hs Hro Hown).
  - unfold addResponse. rewrite Hs. cbn [bind]. destruct Hitem as [-> ->]. tauto.
Qed.

(** X6. When no status code and no content type of the items names a
    member of [Object.prototype], building the responses object fails only
    through the serializer: it returns exactly when the response type of
    every item serializes, and throws the serializer's [TypeError]
    otherwise; merging never fails. *)
Theorem responses_domain (items : list ResponseItem)
    (Hkeys : forallb ownKeyed items = true) :
  match responseItemToResponses items with
  | Ok _ => forallb itemSerializable items = true
  | Throw e => forallb itemSerializable items = false /\
               e = TypeError "Cannot read properties of undefined"
  end.
Proof.
  induction items as [|item items IH] using rev_ind; [done|].
  rewrite forallb_app in Hkeys. apply andb_true_iff in Hkeys as [Hitems Hitem].
  cbn [forallb] in Hitem. rewrite andb_true_r in Hitem.
  apply andb_true_iff in Hitem as [Hsc Hct]. apply negb_true_iff in Hsc, Hct.
  specialize (IH Hitems).
  rewrite forallb_app. cbn [forallb]. rewrite andb_true_r.
  pose proof (addResponse_decided items) as Hstep.
  unfold responseItemToResponses in *. rewrite foldM_snoc.
  destruct (foldM addResponse ∅ items) as [r0|e] eqn:Hr0; cbn [bind].
  - rewrite IH. cbn [andb]. specialize (Hstep r0 item eq_refl).
    destruct (addResponse r0 item) as [r|e]; [done|].
    destruct Hstep as [-> [Hno|[Hown|Hown]]]; [done|congruence|congruence].
  - destruct IH as [-> ->]. done.
Qed.

Lemma responses_domain_sample :
  forallb ownKeyed sampleResponses = true /\
  match responseItemToResponses sampleResponses with
  | Ok _ => forallb itemSerializable sampleResponses = true
  | Throw e => forallb itemSerializable sampleResponses = false /\
               e = TypeError "Cannot read properties of undefined"
  end.
Proof.
  assert (Hkeys : forallb ownKeyed sampleResponses = true) by (vm_compute; reflexivity).
  split; [exact Hkeys|]. exact (responses_domain sampleResponses Hkeys).
Defined.

Lemma responses_error items e :
  responseItemToResponses items = Throw e ->
  e = TypeError "Cannot read properties of undefined".
Proof.
  induction items as [|item items IH] using rev_ind; [done|].
  pose proof (addResponse_decided items) as Hstep.
  unfold responseItemToResponses in *. rewrite foldM_snoc.
  destruct (foldM addResponse ∅ items) as [r0|e0] eqn:Hr0; cbn [bind].
  - specialize (Hstep r0 item eq_refl). intros Hadd. rewrite Hadd in Hstep. tauto.
  - intros [= <-]. by apply IH.
Qed.

Lemma responses_own_status items r :
  responseItemToResponses items = Ok r ->
  forallb (fun item => negb (inherited (statusCode item))) items = true.
Proof.
  revert r. induction items as [|item items IH] using rev_ind; intros r Hrun; [done|].
  unfold responseItemToResponses in *. rewrite foldM_snoc in Hrun.
  apply bind_Ok in Hrun as (r0 & Hr0 & Hadd).
  rewrite forallb_app, (IH r0 Hr0). cbn [forallb andb]. rewrite andb_true_r.
  destruct (inherited (statusCode item)) eqn:Hown; [exfalso|done].
  pose proof (addResponse_schema _ _ _ Hadd) as Hs.
  pose proof (proj1 (responses_invariant items r0 Hr0) (statusCode item)) as Hentry.
  destruct (firstWith (statusCode item) items) as [first|] eqn:Hfirst.
  - apply find_some in Hfirst as [Hin Hsame]. apply String.eqb_eq in Hsame.
    pose proof (IH r0 Hr0) as Hall. rewrite forallb_forall in Hall.
    specialize (Hall first Hin). rewrite Hsame, Hown in Hall. discriminate.
  - by rewrite (addResponse_inherited_status _ _ _ Hs Hentry Hown) in Hadd.
Qed.

(** X22. An item whose status code names a member of [Object.prototype]
    ([toString], [constructor], [__proto__], ...) makes the whole call
    throw a [TypeError], whatever the other items are: the responses object
    has no own entry of that name, the test of line 113 finds the inherited
    member, and its [content] is read from [undefined]. *)
Theorem responses_inherited_status (items : list ResponseItem)
    (Hsome : existsb (fun item => inherited (statusCode item)) items = true) :
  responseItemToResponses items = Throw (TypeError "Cannot read properties of undefined").
Proof.
  destruct (responseItemToResponses items) as [r|e] eqn:Hrun.
  - exfalso. apply responses_own_status in Hrun. rewrite forallb_forall in Hrun.
    apply existsb_exists in Hsome as (item & Hin & Hown).
    specialize (Hrun item Hin). rewrite Hown in Hrun. discriminate.
  - by rewrite (responses_error _ _ Hrun).
Qed.

Lemma responses_inherited_status_sample :
  existsb (fun item => inherited (statusCode item))
    (sampleResponses ++ [responseOf "toString" None "application/json" []]) = true /\
  responseItemToResponses
    (sampleResponses ++ [responseOf "toString" None "application/json" []]) =
  Throw (TypeError "Cannot read properties of undefined").
Proof.
  assert (Hsome : existsb (fun item => inherited (statusCode item))
                    (sampleResponses ++ [responseOf "toString" None "application/json" []]) =
                  true) by (vm_compute; reflexivity).
  split; [exact Hsome|]. exact (responses_inherited_status _ Hsome).
Defined.

(** ** Selectors and operations *)

Lemma obj_get_remove_eq {V : Type} k (o : list (string * V)) :
  obj_get k (obj_remove k o) = None.
Proof.
  induction o as [|[k' v] o IH]; [done|]. cbn [obj_remove].
  destruct (String.eqb k k') eqn:E; [done|]. cbn [obj_get]. by rewrite E.
Qed.

Lemma obj_get_remove_ne {V : Type} k k' (o : list (string * V)) :
  k' <> k -> obj_get k' (obj_remove k o) = obj_get k' o.
Proof.
  intros Hne. induction o as [|[k0 v] o IH]; [done|]. cbn [obj_remove obj_get].
  destruct (String.eqb k k0) eqn:E.
  - apply String.eqb_eq in E. subst k0.
    destruct (String.eqb k' k) eqn:E'; [by apply String.eqb_eq in E'|done].
  - cbn [obj_get]. by rewrite IH.
Qed.

(** X7. A schema [evalZod] returns is the object the evaluated module
    exports without its [$schema] member: that key is absent, and every
    other key has the value the module gave it. *)
Theorem evalZod_drops_marker `{Evaluator} (schema : string)
    (commonZod : option string) (j : json)
    (Hrun : evalZod schema commonZod = Ok j) :
  exists props members,
    runModule (replaceFirst ".optional()" EmptyString schema)
      (match commonZod with
       | Some s => if isEmpty s then None else Some s
       | None => None
       end) = Ok props /\
    j = JObject members /\
    obj_get "$schema" members = None /\
    forall k, k <> "$schema" -> obj_get k members = obj_get k props.
Proof.
  unfold evalZod in Hrun.
  destruct (runModule _ _) as [props|e] eqn:Hprops; [|discriminate].
  injection Hrun as <-. exists props, (obj_remove "$schema" props).
  split; [done|]. split; [done|]. split; [apply obj_get_remove_eq|].
  intros k Hk. by apply obj_get_remove_ne.
Qed.

Lemma evalZod_drops_marker_number :
  exists j,
    @evalZod numberRuntime "z.number().optional()" None = Ok j /\
    exists props members,
      @runModule numberRuntime
        (replaceFirst ".optional()" EmptyString "z.number().optional()") None = Ok props /\
      j = JObject members /\
      obj_get "$schema" members = None /\
      forall k, k <> "$schema" -> obj_get k members = obj_get k props.
Proof.
  eexists. split; [vm_compute; reflexivity|].
  apply (@evalZod_drops_marker numberRuntime "z.number().optional()" None).
  vm_compute. reflexivity.
Defined.

Section Operations.
Context `{Evaluator}.

Lemma selectors_loop commonZod selectors :
  match selectosToParameters commonZod selectors with
  | Ok ps => forallb (evaluates commonZod) selectors = true /\
             ps = (parametersOf commonZod selectors, bodyPropsOf commonZod selectors)
  | Throw _ => forallb (evaluates commonZod) selectors = false
  end.
Proof.
  induction selectors as [|s selectors IH] using rev_ind; [done|].
  unfold selectosToParameters in *. rewrite foldM_snoc, forallb_app.
  cbn [forallb]. rewrite andb_true_r.
  destruct (foldM _ _ selectors) as [ps|e]; cbn [bind].
  - destruct IH as [-> ->]. cbn [andb fst snd].
    assert (match evalZod (sel_against s) commonZod with
            | Ok j => evaluates commonZod s = true /\ schemaFor commonZod s = j
            | Throw _ => evaluates commonZod s = false
            end) as Hs
      by (unfold evaluates, schemaFor; by destruct (evalZod _ _)).
    assert (parametersOf commonZod (selectors ++ [s]) =
            parametersOf commonZod selectors ++
            (if isBody s then [] else [parameterOf commonZod s])) as ->.
    { unfold parametersOf. rewrite List.filter_app, map_app. cbn [List.filter].
      by destruct (isBody s). }
    assert (bodyPropsOf commonZod (selectors ++ [s]) =
            if isBody s
            then obj_set (sel_name s) (schemaFor commonZod s) (bodyPropsOf commonZod selectors)
            else bodyPropsOf commonZod selectors) as ->.
    { unfold bodyPropsOf. rewrite List.filter_app, fold_left_app. cbn [List.filter].
      by destruct (isBody s). }
    unfold isBody, parameterOf.
    destruct (sel_source s);
      (destruct (evalZod (sel_against s) commonZod) as [j|e]; cbn [bind];
       [destruct Hs as [-> <-]|done]); rewrite ?app_nil_r; done.
  - rewrite IH. done.
Qed.


(** X9. No parameter is built from a [body] selector, so the location
    [in] of a parameter is never undefined, although the location table
    has no entry for [body]. *)
Theorem parameters_located (commonZod : option string) (selectors : list Selector)
    (ps : list ParameterObject * list (string * json))
    (Hrun : selectosToParameters commonZod selectors = Ok ps) :
  Forall (fun p => p_in p <> None) ps.1.
Proof.
  pose proof (selectors_loop commonZod selectors) as Hloop. rewrite Hrun in Hloop.
  destruct Hloop as [_ ->]. cbn [fst]. unfold parametersOf.
  apply List.Forall_forall. intros p Hp. apply in_map_iff in Hp as (s & <- & Hs).
  apply List.filter_In in Hs as [_ Hs]. unfold isBody in Hs. cbn.
  by destruct (sel_source s).
Qed.


Lemma methodName_inj m1 m2 : methodName m1 = methodName m2 -> m1 = m2.
Proof. by destruct m1, m2. Qed.




Lemma getPathsStep_hook {HookState : Type} (this : Paths HookState)
    acc hs operation acc' hs' :
  getPathsStep this (acc, hs) operation = Ok (acc', hs') ->
  hs' = hookRun this [operation] hs.
Proof.
  unfold getPathsStep, hookRun, operationObjectOf. cbn [fold_left].
  destruct (selectosToParameters _ _) as [ps|e]; cbn [bind]; [|discriminate].
  destruct (onOperation this) as [hook|]; cbn [fst snd].
  - destruct (hook _ _ _ _ _) as [[inner|] hs1]; cbn [fst snd]; [|discriminate].
    by intros [= _ <-].
  - by intros [= _ <-].
Qed.

(** X11. The hook is called once for every accumulated operation, in
    the order of accumulation, each time with the source file, the method,
    the path and the operation object just built for that operation: the
    state the calls leave the hook in is that of this sequence of calls. *)
Theorem getPaths_hook_calls {HookState : Type} (this : Paths HookState)
    (hs hs' : HookState) (ops : PathsObject)
    (Hrun : getPaths this hs = Ok (ops, hs')) :
  hs' = hookRun this (operations this) hs.
Proof.
  unfold getPaths in Hrun. revert ops hs' Hrun.
  induction (operations this) as [|entry entries IH] using rev_ind; intros ops hs' Hrun.
  - by injection Hrun as _ <-.
  - rewrite foldM_snoc in Hrun.
    destruct (foldM _ _ entries) as [[ops0 hs0]|e] eqn:Hloop; [|discriminate].
    cbn [bind] in Hrun. apply getPathsStep_hook in Hrun.
    unfold hookRun in *. rewrite fold_left_app. by rewrite <- (IH ops0 hs0).
Qed.

(** X12. A hook that returns [undefined] makes [getPaths] throw at the
    first accumulated operation whose selectors evaluate: the result of the
    hook is the target of [Object.assign]. *)
Theorem getPaths_hook_undefined {HookState : Type} (this : Paths HookState)
    (hs : HookState) (hook : OnOperation HookState) (first : OperationEntry)
    (others : list OperationEntry) (ps : list ParameterObject * list (string * json))
    (Hhook : onOperation this = Some hook)
    (Hfirst : operations this = first :: others)
    (Hselectors : selectosToParameters (commonZodImport this) (op_selectors first) = Ok ps)
    (Hundefined : (hook hs (op_sourceFile first) (op_method first) (op_path first)
                     (buildOperationObject first ps.1 ps.2)).1 = None) :
  getPaths this hs = Throw (TypeError "Cannot convert undefined or null to object").
Proof.
  unfold getPaths. rewrite Hfirst. cbn [foldM]. unfold getPathsStep at 1.
  rewrite Hselectors. cbn [bind fst snd]. rewrite Hhook, Hundefined. done.
Qed.



End Operations.

Lemma parameters_located_sample :
  exists ps,
    @selectosToParameters numberRuntime None [limitSelector; titleSelector] = Ok ps /\
    Forall (fun p => p_in p <> None) ps.1.
Proof.
  eexists. split; [vm_compute; reflexivity|].
  apply (@parameters_located numberRuntime None [limitSelector; titleSelector]).
  vm_compute. reflexivity.
Defined.


Example sample_slot :
  option_map operationId
    (option_map (@operationObjectOf numberRuntime None)
       (last (List.filter (sameSlot "/items" M_get) sampleEntries))) =
  Some "searchItems".
Proof. vm_compute. reflexivity. Qed.

Lemma getPaths_hook_calls_sample :
  exists ops calls,
    @getPaths numberRuntime _ (samplePaths' recordingHook) [] = Ok (ops, calls) /\
    calls = @hookRun numberRuntime _ (samplePaths' recordingHook) sampleEntries [].
Proof.
  eexists. eexists. split; [vm_compute; reflexivity|].
  eapply (@getPaths_hook_calls numberRuntime _ (samplePaths' recordingHook) []).
  vm_compute. reflexivity.
Defined.

Example sample_calls :
  @hookRun numberRuntime _ (samplePaths' recordingHook) sampleEntries [] =
  [("routes.ts", "get", "/items"); ("routes.ts", "post", "/items");
   ("routes.ts", "get", "/items")].
Proof. vm_compute. reflexivity. Qed.

Lemma getPaths_hook_undefined_sample :
  @getPaths numberRuntime _ (samplePaths (Some silentHook)) tt =
  Throw (TypeError "Cannot convert undefined or null to object").
Proof.
  apply (@getPaths_hook_undefined numberRuntime _ (samplePaths (Some silentHook)) tt
           silentHook (entryOf "listItems" "/items" M_get [limitSelector])
           (tl sampleEntries)
           ([parameterOf (H := numberRuntime) None limitSelector], []));
    vm_compute; reflexivity.
Defined.


(** X14. [isHttpMethod] accepts the names of the methods of [methods]
    other than [trace] and [head], and no other string. *)
Theorem isHttpMethod_methods (name : string) :
  isHttpMethod name = true <->
  exists m, In m methods /\ methodName m = name /\ m <> M_trace /\ m <> M_head.
Proof.
  unfold isHttpMethod. rewrite existsb_exists. split.
  - intros (x & Hx & Hname). apply String.eqb_eq in Hname. subst x.
    cbn [In] in Hx.
    destruct Hx as [<-|[<-|[<-|[<-|[<-|[]]]]]];
      [exists M_get|exists M_post|exists M_put|exists M_delete|exists M_patch];
      (split; [cbn; tauto|]); (split; [done|]); split; discriminate.
  - intros (m & _ & <- & Htrace & Hhead). exists (methodName m).
    split; [|apply String.eqb_refl].
    destruct m; cbn; try tauto; contradiction.
Qed.

End PathsProperties.

(** * Further properties of the compiler *)

Lemma length_append (s t : string) :
  String.length (s +:+ t) = String.length s + String.length t.
Proof.
  induction s as [|c s IH]; [done|].
  change (S (String.length (s +:+ t)) = S (String.length s + String.length t)).
  by rewrite IH.
Qed.

Lemma append_inj_r (s t r : string) : s +:+ r = t +:+ r -> s = t.
Proof.
  revert t. induction s as [|c s IH]; intros [|d t] Heq.
  - reflexivity.
  - exfalso. apply (f_equal String.length) in Heq.
    rewrite !length_append in Heq. simpl in Heq. lia.
  - exfalso. apply (f_equal String.length) in Heq.
    rewrite !length_append in Heq. simpl in Heq. lia.
  - change (String c (s +:+ r) = String d (t +:+ r)) in Heq.
    injection Heq as -> Heq. f_equal. by apply IH.
Qed.

Lemma append_inj_l (p s t : string) : p +:+ s = p +:+ t -> s = t.
Proof.
  induction p as [|c p IH]; [done|].
  change (String c (p +:+ s) = String c (p +:+ t) -> s = t).
  intros Heq. injection Heq as Heq. by apply IH.
Qed.

Lemma filter_lengths {A : Type} (p : A -> bool) (l : list A) :
  length l = length (List.filter (fun x => negb (p x)) l) + length (List.filter p l).
Proof.
  induction l as [|x l IH]; [done|]. cbn [List.filter]. destruct (p x); cbn; lia.
Qed.

Lemma length_flat_map {A B : Type} (g : A -> list B) (l : list A) :
  length (flat_map g l) = list_sum (map (fun x => length (g x)) l).
Proof.
  induction l as [|x l IH]; [done|]. cbn. by rewrite length_app, IH.
Qed.

Lemma NoDup_map_on {A B : Type} (f : A -> B) (l : list A) :
  (forall x y, In x l -> In y l -> f x = f y -> x = y) ->
  NoDup l -> NoDup (map f l).
Proof.
  intros Hinj Hl. induction Hl as [|x l Hx Hl IH]; cbn [map]; [constructor|].
  constructor.
  - intros Hin. apply list_elem_of_In, in_map_iff in Hin as (y & Hy & Hin).
    apply Hx, list_elem_of_In.
    rewrite (Hinj x y); [done|by left|by right|done].
  - apply IH. intros a b Ha Hb. apply Hinj; by right.
Qed.

Lemma obj_set_set {V : Type} k (v w : V) o :
  obj_set k v (obj_set k w o) = obj_set k v o.
Proof.
  induction o as [|[k' v'] o IH]; cbn [obj_set].
  - by rewrite String.eqb_refl.
  - destruct (String.eqb k k') eqn:E; cbn [obj_set].
    + by rewrite String.eqb_refl.
    + by rewrite E, IH.
Qed.

Lemma obj_set_get {V : Type} k (v : V) o : obj_get k o = Some v -> obj_set k v o = o.
Proof.
  induction o as [|[k' v'] o IH]; cbn [obj_get obj_set]; [done|].
  destruct (String.eqb k k') eqn:E.
  - apply String.eqb_eq in E. subst k'. by intros [= ->].
  - intros Hget. by rewrite IH.
Qed.

Lemma obj_get_set {V : Type} k k' (v : V) o :
  obj_get k' (obj_set k v o) = if String.eqb k k' then Some v else obj_get k' o.
Proof.
  induction o as [|[k0 v0] o IH]; cbn [obj_get obj_set].
  - by rewrite (String.eqb_sym k' k).
  - destruct (String.eqb k k0) eqn:E; cbn [obj_get].
    + apply String.eqb_eq in E. subst k0. rewrite (String.eqb_sym k' k).
      by destruct (String.eqb k k').
    + rewrite IH. destruct (String.eqb k' k0) eqn:E'; [|done].
      apply String.eqb_eq in E'. subst k0. by rewrite E.
Qed.

Lemma keys_obj_set {V : Type} k (v : V) o :
  map fst (obj_set k v o) =
  if existsb (String.eqb k) (map fst o) then map fst o else map fst o ++ [k].
Proof.
  induction o as [|[k' v'] o IH]; cbn [obj_set map existsb fst]; [done|].
  destruct (String.eqb k k') eqn:E; cbn [orb map fst].
  - apply String.eqb_eq in E. by subst k'.
  - rewrite IH. by destruct (existsb (String.eqb k) (map fst o)).
Qed.

Lemma fromEntries_distinct {V : Type} (l acc : list (string * V)) :
  NoDup (map fst (acc ++ l)) ->
  fold_left (fun o kv => obj_set kv.1 kv.2 o) l acc = acc ++ l.
Proof.
  revert acc. induction l as [|[k v] l IH]; intros acc Hnd; cbn [fold_left].
  - by rewrite app_nil_r.
  - cbn [fst snd]. rewrite obj_set_fresh.
    + rewrite IH; rewrite <- app_assoc; done.
    + rewrite map_app in Hnd. apply NoDup_app in Hnd as (_ & Hdisj & _).
      intros Hin. apply (Hdisj k); [by apply list_elem_of_In|]. cbn. left.
Qed.

Module SdkProperties.
Import Sdk SdkSpec SdkShapes SdkFacts.

Section Generator.
Context `{StringCase} `{Boilerplate}.

Lemma classifyInputs_loop_first operationName l : forall b,
  match find unrecognisedInput l with
  | Some e => foldM (classifyInput operationName) b l =
              Throw (Error (unknownSourceMessage e.1 e.2 operationName))
  | None => exists b', foldM (classifyInput operationName) b l = Ok b'
  end.
Proof.
  induction l as [|e l IH]; intros b; cbn [find foldM]; [eauto|].
  unfold unrecognisedInput at 1.
  destruct (classifyInput_cases operationName b e)
    as [(Hyes & b' & -> & _)|[Hno ->]].
  - rewrite Hyes. cbn [negb bind]. apply IH.
  - rewrite Hno. done.
Qed.

Lemma classifyInputs_first operation :
  match find unrecognisedInput (inputs operation) with
  | Some e => classifyInputs operation =
              Throw (Error (unknownSourceMessage e.1 e.2 (name operation)))
  | None => classifies operation
  end.
Proof.
  pose proof (classifyInputs_loop_first (name operation) (inputs operation) noBuckets)
    as Hloop.
  destruct (find unrecognisedInput (inputs operation)); [done|].
  destruct Hloop as [b Hb]. unfold classifies.
  fold (classifyInputs operation) in Hb. by rewrite (bucketsOf_classified _ _ Hb).
Qed.

Lemma firstUnrecognised_app l1 l2 :
  firstUnrecognised (l1 ++ l2) =
  match firstUnrecognised l1 with
  | Some x => Some x
  | None => firstUnrecognised l2
  end.
Proof.
  induction l1 as [|o l1 IH]; [done|]. cbn [app firstUnrecognised].
  by destruct (find unrecognisedInput (inputs o)).
Qed.

Lemma operations_loop_first file ops : forall st,
  keyPresent file st ->
  match firstUnrecognised ops with
  | Some oe => foldM (processOperation file) st ops =
               Throw (Error (unknownSourceMessage oe.2.1 oe.2.2 (name oe.1)))
  | None => exists st', foldM (processOperation file) st ops = Ok st'
  end.
Proof.
  induction ops as [|o ops IH]; intros st Hkey; cbn [firstUnrecognised foldM]; [eauto|].
  pose proof (classifyInputs_first o) as Hfirst.
  destruct (find unrecognisedInput (inputs o)) as [e|].
  - by rewrite (processOperation_throws _ _ _ _ Hkey Hfirst).
  - destruct (processOperation_runs file st o Hkey Hfirst) as [st1 Hst1].
    rewrite Hst1. cbn [bind]. apply IH.
    by apply processOperation_effect in Hst1 as (_ & Hkey1 & _).
Qed.

Lemma groups_loop_first gs : forall st,
  match firstUnrecognised (flat_map snd gs) with
  | Some oe => foldM processGroup st gs =
               Throw (Error (unknownSourceMessage oe.2.1 oe.2.2 (name oe.1)))
  | None => exists st', foldM processGroup st gs = Ok st'
  end.
Proof.
  induction gs as [|g gs IH]; intros st; [cbn; eauto|].
  change (flat_map snd (g :: gs)) with (g.2 ++ flat_map snd gs).
  cbn [foldM]. rewrite firstUnrecognised_app.
  pose proof (operations_loop_first (camelcase g.1) g.2 _ (group_started st g)) as Hg.
  fold (processGroup st g) in Hg.
  destruct (firstUnrecognised g.2) as [oe|].
  - by rewrite Hg.
  - destruct Hg as [st1 ->]. cbn [bind]. apply IH.
Qed.

(** X15. The compiler returns its artifacts exactly when the source of
    every input of every operation is one of [headers], [header], [query],
    [body], [path], [internal]; otherwise it throws the [Error] of the first
    input with another source, in the order of the groups, of their
    operations and of their inputs.  Nothing else is ever thrown: the [push]
    onto the schema list of a group never meets a missing list. *)
Theorem generateClientSdk_first_failure (spec : Spec) :
  match firstUnrecognised (allOperations spec) with
  | Some oe =>
      generateClientSdk spec =
      Throw (Error (unknownSourceMessage oe.2.1 oe.2.2 (name oe.1)))
  | None => exists generated, generateClientSdk spec = Ok generated
  end.
Proof.
  pose proof (groups_loop_first (groups spec) initial) as Hloop.
  unfold generateClientSdk, compile. fold (allOperations spec) in Hloop.
  destruct (firstUnrecognised (allOperations spec)) as [oe|].
  - by rewrite Hloop.
  - destruct Hloop as [st ->]. cbn [bind]. eauto.
Qed.

(** X16. The four field lists of an operation keep the declaration order
    of its inputs: each is the list of the quoted names of the inputs with
    the source of that list, in the order of [operation.inputs]. *)
Theorem buckets_in_declaration_order (operation : Operation) (b : Buckets)
    (Hrun : classifyInputs operation = Ok b) :
  inputHeaders b = fieldsFrom isHeaderSource operation /\
  inputQuery b = fieldsFrom (fun s => String.eqb s "query") operation /\
  inputBody b = fieldsFrom (fun s => String.eqb s "body") operation /\
  inputParams b = fieldsFrom (fun s => String.eqb s "path") operation.
Proof. by apply classifyInputs_buckets. Qed.

(** X17. The keys of one operation never collide: when the variant tags
    of its schemas are pairwise different, so are its endpoint keys. *)
Theorem variant_keys_distinct (operation : Operation)
    (Htags : NoDup (map fst (schemas operation))) :
  NoDup (endpointKeys operation).
Proof.
  unfold endpointKeys. destruct (isStream operation); [apply NoDup_singleton|].
  apply NoDup_map_on; [|done].
  intros t1 t2 Ht1 Ht2 Heq. apply append_inj_r in Heq. unfold typePrefixOf in Heq.
  destruct (1 <? length (schemas operation)) eqn:Hmany; cbn [andb] in Heq.
  - destruct (String.eqb_spec t1 "json") as [->|H1], (String.eqb_spec t2 "json") as [->|H2];
      cbn [negb] in Heq.
    + done.
    + exfalso. apply (f_equal String.length) in Heq.
      rewrite length_append in Heq. simpl in Heq. lia.
    + exfalso. apply (f_equal String.length) in Heq.
      rewrite length_append in Heq. simpl in Heq. lia.
    + by apply append_inj_r in Heq.
  - apply Nat.ltb_ge in Hmany. rewrite <- (length_map fst) in Hmany.
    destruct (map fst (schemas operation)) as [|a [|b l]]; cbn in *; [done| |lia].
    by destruct Ht1 as [<-|[]], Ht2 as [<-|[]].
Qed.

Lemma length_operationEntries file operation :
  length (operationEntries file operation) = entryCount operation.
Proof.
  unfold operationEntries, entryCount. destruct (isStream operation); [done|].
  by rewrite !length_map.
Qed.

Lemma length_specEntries spec :
  length (specEntries spec) = list_sum (map entryCount (allOperations spec)).
Proof.
  unfold specEntries, allOperations.
  induction (groups spec) as [|g gs IH]; [done|]. cbn [flat_map].
  rewrite length_app, map_app, list_sum_app, IH. f_equal.
  unfold groupEntries. rewrite length_flat_map. f_equal.
  apply map_ext. intros o. apply length_operationEntries.
Qed.

(** X18. The dispatch table has one entry per streaming operation and
    one per schema variant of every other operation, and it has as many
    entries as the two registries together. *)
Theorem dispatch_count (spec : Spec) (st : State) (Hrun : compile spec = Ok st) :
  length (SchemaEndpoint.endpoints (schemaEndpoint st)) =
    list_sum (map entryCount (allOperations spec)) /\
  length (SchemaEndpoint.endpoints (schemaEndpoint st)) =
    length (Emitter.endpoints (emitter st)) +
    length (Emitter.endpoints (streamEmitter st)).
Proof.
  destruct (compile_effect spec st Hrun) as (_ & -> & _ & -> & -> & _).
  rewrite !length_map. split; [apply length_specEntries | apply filter_lengths].
Qed.

(** ** Import lines and schema lists *)

Lemma processOperation_rest file st operation st' :
  processOperation file st operation = Ok st' ->
  Emitter.imports (streamEmitter st') =
    Emitter.imports (streamEmitter st) ++
    (if isStream operation then [streamImport operation] else []) /\
  SchemaEndpoint.imports (schemaEndpoint st') = SchemaEndpoint.imports (schemaEndpoint st) /\
  exists lines,
    obj_get file (st_schemas st) = Some lines /\
    st_schemas st' = obj_set file (lines ++ [schemaDeclaration operation]) (st_schemas st).
Proof.
  unfold processOperation. intros Hrun.
  apply bind_Ok in Hrun as (all & Hall & Hrun).
  apply bind_Ok in Hrun as (b & Hb & Hrun).
  unfold pushSchema in Hall.
  destruct (obj_get file (st_schemas st)) as [lines|]; [|discriminate].
  injection Hall as <-.
  pose proof (bucketsOf_classified _ _ Hb) as Hbo. subst b.
  unfold isStream. destruct (String.eqb (type operation) "sse") eqn:Hsse.
  - injection Hrun as <-. cbn. split; [done|]. split; [done|]. by exists lines.
  - fold (schemaRefOf file operation) in Hrun.
    rewrite addVariant_loop in Hrun. injection Hrun as <-.
    cbn. rewrite app_nil_r. split; [done|]. split; [done|]. by exists lines.
Qed.

Lemma operations_loop_rest file ops : forall st st' lines,
  obj_get file (st_schemas st) = Some lines ->
  foldM (processOperation file) st ops = Ok st' ->
  Emitter.imports (streamEmitter st') =
    Emitter.imports (streamEmitter st) ++ map streamImport (List.filter isStream ops) /\
  SchemaEndpoint.imports (schemaEndpoint st') = SchemaEndpoint.imports (schemaEndpoint st) /\
  st_schemas st' = obj_set file (lines ++ map schemaDeclaration ops) (st_schemas st).
Proof.
  induction ops as [|o ops IH]; intros st st' lines Hlines Hrun.
  - injection Hrun as <-. cbn. rewrite !app_nil_r.
    split; [done|]. split; [done|]. symmetry. by apply obj_set_get.
  - cbn [foldM] in Hrun. apply bind_Ok in Hrun as (st1 & Ho & Hrun).
    apply processOperation_rest in Ho as (Hs1 & He1 & lines0 & Hl0 & Ht1).
    rewrite Hlines in Hl0. injection Hl0 as <-.
    assert (obj_get file (st_schemas st1) = Some (lines ++ [schemaDeclaration o]))
      as Hlines1 by (rewrite Ht1; apply obj_get_set_eq).
    destruct (IH _ _ _ Hlines1 Hrun) as (Hs & He & Ht).
    rewrite Hs, He, Ht, Hs1, He1, Ht1, obj_set_set, <- !app_assoc.
    cbn [List.filter map app]. by destruct (isStream o).
Qed.

Lemma processGroup_rest st group st' :
  processGroup st group = Ok st' ->
  Emitter.imports (streamEmitter st') =
    Emitter.imports (streamEmitter st) ++ groupStreamImports group /\
  SchemaEndpoint.imports (schemaEndpoint st') =
    SchemaEndpoint.imports (schemaEndpoint st) ++ [groupImport (camelcase group.1)] /\
  st_schemas st' = obj_set (camelcase group.1) (moduleLines group) (st_schemas st).
Proof.
  unfold processGroup. intros Hrun.
  eapply operations_loop_rest in Hrun as (Hs & He & Ht);
    [|cbn [st_schemas]; apply obj_get_set_eq].
  rewrite Hs, He, Ht. cbn. rewrite obj_set_set, <- app_assoc. done.
Qed.

Lemma groups_loop_rest gs : forall st st',
  foldM processGroup st gs = Ok st' ->
  Emitter.imports (streamEmitter st') =
    Emitter.imports (streamEmitter st) ++ flat_map groupStreamImports gs /\
  SchemaEndpoint.imports (schemaEndpoint st') =
    SchemaEndpoint.imports (schemaEndpoint st) ++
    map (fun g => groupImport (camelcase g.1)) gs /\
  st_schemas st' =
    fold_left (fun acc g => obj_set (camelcase g.1) (moduleLines g) acc) gs (st_schemas st).
Proof.
  induction gs as [|g gs IH]; intros st st' Hrun.
  - injection Hrun as <-. cbn. by rewrite !app_nil_r.
  - cbn [foldM] in Hrun. apply bind_Ok in Hrun as (st1 & Hg & Hrun).
    apply processGroup_rest in Hg as (Hs1 & He1 & Ht1).
    destruct (IH _ _ Hrun) as (Hs & He & Ht).
    rewrite Hs, He, Ht, Hs1, He1, Ht1, <- !app_assoc. done.
Qed.

Lemma compile_rest spec st :
  compile spec = Ok st ->
  Emitter.imports (streamEmitter st) =
    Emitter.imports Emitter.new ++ flat_map groupStreamImports (groups spec) /\
  SchemaEndpoint.imports (schemaEndpoint st) =
    SchemaEndpoint.imports SchemaEndpoint.new ++
    map (fun g => groupImport (camelcase g.1)) (groups spec) /\
  st_schemas st = schemaTable spec.
Proof.
  unfold compile. intros Hrun. apply bind_Ok in Hrun as (st0 & Hloop & Hst).
  injection Hst as <-. cbn [streamEmitter schemaEndpoint st_schemas].
  by apply groups_loop_rest in Hloop.
Qed.

(** X19. Every group adds the import of its schema module to the three
    generated modules alike, whatever its operations are: the dispatch table
    imports one schema module per group and nothing else beyond its four
    fixed lines, and the streaming registry imports, group by group, the
    schema module and then the output type of each streaming operation. *)
Theorem group_imports (spec : Spec) (st : State) (Hrun : compile spec = Ok st) :
  SchemaEndpoint.imports (schemaEndpoint st) =
    SchemaEndpoint.imports SchemaEndpoint.new ++
    map (fun g => groupImport (camelcase g.1)) (groups spec) /\
  Emitter.imports (streamEmitter st) =
    Emitter.imports Emitter.new ++ flat_map groupStreamImports (groups spec) /\
  forall g, In g (groups spec) ->
    In (groupImport (camelcase g.1)) (SchemaEndpoint.imports (schemaEndpoint st)) /\
    In (groupImport (camelcase g.1)) (Emitter.imports (emitter st)) /\
    In (groupImport (camelcase g.1)) (Emitter.imports (streamEmitter st)).
Proof.
  destruct (compile_rest spec st Hrun) as (Hs & He & _).
  destruct (compile_effect spec st Hrun) as (_ & _ & Hi & _).
  split; [done|]. split; [done|]. intros g Hg. rewrite Hs, He, Hi.
  split; [|split].
  - apply in_or_app. right. by apply (in_map (fun g => groupImport (camelcase g.1))).
  - apply in_or_app. right. apply in_or_app. left. apply in_flat_map.
    exists g. split; [done|]. by left.
  - apply in_or_app. right. apply in_flat_map. exists g. split; [done|]. by left.
Qed.

(** ** The schema table *)

Lemma distinctKeys_snoc l k :
  distinctKeys (l ++ [k]) =
  if existsb (String.eqb k) (distinctKeys l) then distinctKeys l
  else distinctKeys l ++ [k].
Proof. unfold distinctKeys. by rewrite fold_left_app. Qed.

Lemma distinctKeys_NoDup l : NoDup (distinctKeys l).
Proof. exact (removeDuplicates_NoDup l). Qed.

Lemma table_shape {X V : Type} (kf : X -> string) (vf : X -> V) (l : list X) :
  map fst (fold_left (fun acc x => obj_set (kf x) (vf x) acc) l []) =
    distinctKeys (map kf l) /\
  (forall k, obj_get k (fold_left (fun acc x => obj_set (kf x) (vf x) acc) l []) =
             option_map vf (last (List.filter (fun x => String.eqb (kf x) k) l))) /\
  (forall kv, In kv (fold_left (fun acc x => obj_set (kf x) (vf x) acc) l []) ->
              exists x, In x l /\ kv = (kf x, vf x)).
Proof.
  induction l as [|x l (Hkeys & Hget & Hin)] using rev_ind.
  - split; [done|]. split; [done|]. intros kv [].
  - rewrite fold_left_app. cbn [fold_left]. split; [|split].
    + rewrite keys_obj_set, Hkeys, map_app. cbn [map]. by rewrite distinctKeys_snoc.
    + intros k. rewrite obj_get_set, Hget, List.filter_app. cbn [List.filter].
      destruct (String.eqb (kf x) k); [by rewrite last_snoc | by rewrite app_nil_r].
    + intros kv Hkv. apply In_obj_set in Hkv as [->|Hkv].
      * exists x. split; [apply in_or_app; right; by left | done].
      * destruct (Hin kv Hkv) as (y & Hy & ->). exists y.
        split; [apply in_or_app; by left | done].
Qed.

(** X20. The schema list kept for a file name is that of the last group
    with this file name: the line [import z from 'zod';] followed by one
    declaration per operation of that group, in order.  The file names are
    those of the groups, each at its first occurrence.  When the names of
    two groups give the same file name, the declarations of the earlier
    group are discarded. *)
Theorem schema_lists_last_group (spec : Spec) (st : State)
    (Hrun : compile spec = Ok st) :
  map fst (st_schemas st) = distinctKeys (map (fun g => camelcase g.1) (groups spec)) /\
  forall file,
    obj_get file (st_schemas st) =
    option_map moduleLines (last (List.filter (sameFile file) (groups spec))).
Proof.
  destruct (compile_rest spec st Hrun) as (_ & _ & ->). unfold schemaTable.
  destruct (table_shape (fun g => camelcase g.1) moduleLines (groups spec))
    as (Hkeys & Hget & _).
  split; [exact Hkeys | exact Hget].
Qed.

(** ** The artifacts *)

Lemma trim_declaration operation :
  trim (schemaDeclaration operation) = schemaDeclaration operation.
Proof.
  unfold trim, schemaDeclaration. rewrite append_cons. cbn [trimStart].
  change (isWhite "e") with false. cbv iota.
  rewrite <- append_cons, <- !append_assoc. by apply trimEnd_append.
Qed.

Lemma moduleLines_kept group :
  List.filter (fun it => negb (isEmpty it)) (map trim (moduleLines group)) =
  moduleLines group.
Proof.
  unfold moduleLines. cbn [map List.filter].
  change (trim "import z from 'zod';") with "import z from 'zod';". cbn [isEmpty negb].
  f_equal. induction group.2 as [|o ops IH]; [done|].
  cbn [map List.filter]. rewrite trim_declaration, IH.
  unfold schemaDeclaration at 1. by rewrite append_cons.
Qed.

Lemma schemaModule_text spec st group :
  schemasImports st = allNamedImports spec ->
  schemaModule spec st (moduleLines group) = moduleText spec (moduleLines group).
Proof.
  intros Hnames. unfold schemaModule, moduleText, sharedLines. rewrite Hnames.
  f_equal. f_equal. cbn [map List.filter]. rewrite moduleLines_kept.
  assert (List.filter (fun it => negb (isEmpty it))
            [trim match commonZod spec with
                  | Some z =>
                      if isEmpty z then EmptyString
                      else "import * as commonZod from " +:+ dq +:+ "../zod" +:+ dq +:+ ";"
                  | None => EmptyString
                  end] =
          match commonZod spec with
          | Some z =>
              if isEmpty z then []
              else ["import * as commonZod from " +:+ dq +:+ "../zod" +:+ dq +:+ ";"]
          | None => []
          end) as Hcommon.
  { destruct (commonZod spec) as [z|]; [destruct (isEmpty z)|]; reflexivity. }
  cbn [List.filter] in Hcommon.
  destruct (allNamedImports spec) as [|n ns].
  - change (trim EmptyString) with EmptyString. cbn [isEmpty negb app].
    destruct (negb (isEmpty (trim _))); by rewrite <- Hcommon.
  - rewrite trim_zodImport.
    assert (isEmpty (zodImport (n :: ns)) = false) as -> by reflexivity.
    cbn [negb app].
    destruct (negb (isEmpty (trim _))); by rewrite <- Hcommon.
Qed.

Lemma inputsFile_inj a b : inputsFile a = inputsFile b -> a = b.
Proof. unfold inputsFile. intros Heq. apply append_inj_l in Heq. by apply append_inj_r in Heq. Qed.

Lemma inputsFile_prefix file : startsWith "inputs/" (inputsFile file) = true.
Proof. unfold inputsFile, startsWith. rewrite !append_cons. cbn. by destruct (_ +:+ _). Qed.

(** C10, as the code has it.  When at least one named import has been
    collected, every generated [inputs/...] module begins with one and the
    same line: the import of the deduplicated named imports of the
    operations of all groups of the specification.  When none has been
    collected, no such line is emitted: the module of a group holds the
    [commonZod] import (if the specification names one), the line
    [import z from 'zod';] and the declarations of the group, and none of
    these lines begins with [import {]. *)
Theorem shared_import_line (spec : Spec) (generated : list (string * string))
    (Hrun : generateClientSdk spec = Ok generated) :
  (forall file text,
     In (file, text) generated -> startsWith "inputs/" file = true ->
     match allNamedImports spec with
     | _ :: _ =>
         exists rest,
           text = "import {" +:+
                  String.concat "," (removeDuplicates (allNamedImports spec) id) +:+
                  "} from '../zod';" +:+ nl +:+ rest
     | [] =>
         exists g lines,
           In g (groups spec) /\
           lines =
             (match commonZod spec with
              | Some z =>
                  if isEmpty z then []
                  else ["import * as commonZod from " +:+ dq +:+ "../zod" +:+ dq +:+ ";"]
              | None => []
              end) ++ "import z from 'zod';" :: map schemaDeclaration g.2 /\
           text = String.concat nl lines +:+ nl /\
           Forall (fun line => startsWith "import {" line = false) lines /\
           startsWith "import {" text = false
     end) /\
  NoDup (removeDuplicates (allNamedImports spec) id) /\
  (forall n,
     In n (removeDuplicates (allNamedImports spec) id) <->
     exists g operation,
       In g (groups spec) /\ In operation g.2 /\ In n (namedImportNames operation)).
Proof.
  split; [|split; [apply removeDuplicates_NoDup|]].
  2:{ intros n. rewrite removeDuplicates_In. unfold allNamedImports.
      rewrite in_flat_map. split.
      - intros (o & Ho & Hn). apply In_allOperations in Ho as (g & Hg & Ho). eauto.
      - intros (g & o & Hg & Ho & Hn). exists o. split; [|done].
        apply In_allOperations. eauto. }
  intros file text Hin Hfile. unfold generateClientSdk in Hrun.
  apply bind_Ok in Hrun as (st & Hst & Hgen). injection Hgen as <-.
  destruct (compile_effect spec st Hst) as (_ & _ & _ & _ & _ & _ & Hnames).
  destruct (compile_rest spec st Hst) as (_ & _ & Hschemas).
  destruct (table_shape (fun g => camelcase g.1) moduleLines (groups spec))
    as (_ & _ & Hvalues).
  fold (schemaTable spec) in Hvalues.
  unfold artifacts in Hin. apply In_fromEntries in Hin as [Hin|[]].
  apply in_app_or in Hin as [Hin|Hin].
  - unfold schemaModules in Hin. apply in_map_iff in Hin as ([k value] & Heq & Hkv).
    injection Heq as _ <-. rewrite Hschemas in Hkv.
    destruct (Hvalues _ Hkv) as (g & Hg & Hvalue). injection Hvalue as _ ->.
    destruct (allNamedImports spec) as [|n ns] eqn:Hall.
    + rewrite schemaModule_text by (by rewrite Hnames).
      unfold moduleText, sharedLines, moduleLines. rewrite Hall. cbn [app].
      eexists g, _. split; [exact Hg|]. split; [reflexivity|]. split; [reflexivity|].
      assert (Hdecls : Forall (fun line => startsWith "import {" line = false)
                         (map schemaDeclaration g.2)).
      { apply List.Forall_forall. intros line Hline.
        apply in_map_iff in Hline as (o & <- & _). reflexivity. }
      destruct (commonZod spec) as [z|]; [destruct (isEmpty z)|]; cbn [app].
      * split; [by constructor|]. by destruct (map schemaDeclaration g.2).
      * split; [by repeat constructor|]. reflexivity.
      * split; [by constructor|]. by destruct (map schemaDeclaration g.2).
    + destruct (schemaModule_import spec st (moduleLines g)) as [rest ->];
        [by rewrite Hnames|].
      exists rest. rewrite Hnames. unfold zodImport, arrayText.
      by rewrite !append_assoc.
  - exfalso. cbn [In] in Hin.
    repeat (destruct Hin as [Heq|Hin];
            [injection Heq as <- _; vm_compute in Hfile; discriminate|]).
    done.
Qed.

(** X21. The result of [generateClientSdk], in full: one module
    [inputs/<file>.ts] per file name, in the order of the first group of
    each name, holding the shared import line (when a named import has been
    collected), the [commonZod] import (when the specification names one) and
    the schema list of the file, one line each, with a final newline; then
    [backend.ts], [parser.ts], [client.ts], [request.ts], [schemas.ts],
    [endpoints.ts] and [response.ts], the four boilerplate texts passed
    through unchanged.  The streaming registry is in no artifact. *)
Theorem generated_artifacts (spec : Spec) (generated : list (string * string))
    (Hrun : generateClientSdk spec = Ok generated) :
  generated =
  map (fun kv => (inputsFile kv.1, moduleText spec kv.2)) (schemaTable spec) ++
  [("backend.ts", backend spec);
   ("parser.ts", parserTxt);
   ("client.ts", clientTxt);
   ("request.ts", requestTxt);
   ("schemas.ts", schemasText spec);
   ("endpoints.ts", endpointsText spec);
   ("response.ts", responseTxt)].
Proof.
  unfold generateClientSdk in Hrun. apply bind_Ok in Hrun as (st & Hst & Hgen).
  injection Hgen as <-.
  destruct (compile_effect spec st Hst) as (_ & Hreg & Himports & _ & Htable & _ & Hnames).
  destruct (compile_rest spec st Hst) as (_ & Hsimports & Hschemas).
  destruct (table_shape (fun g => camelcase g.1) moduleLines (groups spec))
    as (Hkeys & _ & Hvalues).
  fold (schemaTable spec) in Hkeys, Hvalues.
  assert (schemaModules spec st =
          map (fun kv => (inputsFile kv.1, moduleText spec kv.2)) (schemaTable spec))
    as Hmodules.
  { unfold schemaModules. rewrite Hschemas. apply map_ext_in. intros kv Hkv.
    destruct (Hvalues kv Hkv) as (g & _ & ->). cbn [fst snd]. unfold inputsFile.
    by rewrite schemaModule_text. }
  assert (SchemaEndpoint.complete (schemaEndpoint st) = schemasText spec) as Hschemastext.
  { unfold schemasText, SchemaEndpoint.complete.
    cbn [SchemaEndpoint.imports SchemaEndpoint.endpoints]. by rewrite Hsimports, Htable. }
  assert (Emitter.complete (emitter st) = endpointsText spec) as Hendpoints.
  { unfold endpointsText, Emitter.complete.
    cbn [Emitter.imports Emitter.endpoints]. by rewrite Himports, Hreg. }
  unfold artifacts. rewrite Hmodules, Hschemastext, Hendpoints.
  apply (fromEntries_distinct _ []). cbn [app]. rewrite map_app, map_map. cbn [fst map].
  apply NoDup_app. split; [|split].
  - rewrite <- (map_map fst inputsFile). apply NoDup_map_on.
    + intros a b _ _. apply inputsFile_inj.
    + rewrite Hkeys. apply distinctKeys_NoDup.
  - intros x Hx Hfixed. apply list_elem_of_In, in_map_iff in Hx as (kv & <- & _).
    pose proof (inputsFile_prefix kv.1) as Hprefix.
    apply list_elem_of_In in Hfixed. cbn [In] in Hfixed.
    repeat (destruct Hfixed as [Heq|Hfixed];
            [rewrite <- Heq in Hprefix; vm_compute in Hprefix; discriminate|]).
    done.
  - apply (bool_decide_unpack _). vm_compute. reflexivity.
Qed.

End Generator.

Lemma buckets_in_declaration_order_upload :
  exists b,
    classifyInputs uploadOp = Ok b /\
    inputHeaders b = fieldsFrom isHeaderSource uploadOp /\
    inputQuery b = fieldsFrom (fun s => String.eqb s "query") uploadOp /\
    inputBody b = fieldsFrom (fun s => String.eqb s "body") uploadOp /\
    inputParams b = fieldsFrom (fun s => String.eqb s "path") uploadOp.
Proof.
  eexists. split; [vm_compute; reflexivity|].
  apply (buckets_in_declaration_order uploadOp). vm_compute. reflexivity.
Defined.

Lemma variant_keys_distinct_upload :
  NoDup (map fst (schemas uploadOp)) /\ NoDup (endpointKeys uploadOp).
Proof.
  assert (Htags : NoDup (map fst (schemas uploadOp))).
  { apply (bool_decide_unpack _). vm_compute. reflexivity. }
  split; [exact Htags|]. exact (variant_keys_distinct uploadOp Htags).
Defined.

Lemma dispatch_count_mixed :
  exists st,
    @compile asciiCase mixedSpec = Ok st /\
    length (SchemaEndpoint.endpoints (schemaEndpoint st)) =
      list_sum (map entryCount (allOperations mixedSpec)) /\
    length (SchemaEndpoint.endpoints (schemaEndpoint st)) =
      length (Emitter.endpoints (emitter st)) +
      length (Emitter.endpoints (streamEmitter st)).
Proof.
  eexists. split; [vm_compute; reflexivity|].
  apply (@dispatch_count asciiCase mixedSpec). vm_compute. reflexivity.
Defined.

Lemma group_imports_mixed :
  exists st,
    @compile asciiCase mixedSpec = Ok st /\
    (SchemaEndpoint.imports (schemaEndpoint st) =
       SchemaEndpoint.imports SchemaEndpoint.new ++
       map (fun g => groupImport (@camelcase asciiCase g.1)) (groups mixedSpec) /\
     Emitter.imports (streamEmitter st) =
       Emitter.imports Emitter.new ++
       flat_map (@groupStreamImports asciiCase) (groups mixedSpec) /\
     forall g, In g (groups mixedSpec) ->
       In (groupImport (@camelcase asciiCase g.1))
         (SchemaEndpoint.imports (schemaEndpoint st)) /\
       In (groupImport (@camelcase asciiCase g.1)) (Emitter.imports (emitter st)) /\
       In (groupImport (@camelcase asciiCase g.1)) (Emitter.imports (streamEmitter st))).
Proof.
  eexists. split; [vm_compute; reflexivity|].
  apply (@group_imports asciiCase mixedSpec). vm_compute. reflexivity.
Defined.

Lemma schema_lists_last_group_colliding :
  exists st,
    @compile asciiCase collidingSpec = Ok st /\
    (map fst (st_schemas st) =
       distinctKeys (map (fun g => @camelcase asciiCase g.1) (groups collidingSpec)) /\
     forall file,
       obj_get file (st_schemas st) =
       option_map (@moduleLines asciiCase)
         (last (List.filter (@sameFile asciiCase file) (groups collidingSpec)))).
Proof.
  eexists. split; [vm_compute; reflexivity|].
  apply (@schema_lists_last_group asciiCase collidingSpec). vm_compute. reflexivity.
Defined.

(** The declaration of [list] is lost to the group [Users]. *)
Example colliding_users_module :
  option_map (@moduleLines asciiCase)
    (last (List.filter (@sameFile asciiCase "users") (groups collidingSpec))) =
  Some ["import z from 'zod';"; "export const pingSchema = z.object({});"].
Proof. vm_compute. reflexivity. Qed.

Lemma shared_import_line_mixed :
  (exists generated,
     @generateClientSdk asciiCase plainBoilerplate mixedSpec = Ok generated /\
     ((forall file text,
         In (file, text) generated -> startsWith "inputs/" file = true ->
         exists rest,
           text = "import {" +:+
                  String.concat "," (removeDuplicates (allNamedImports mixedSpec) id) +:+
                  "} from '../zod';" +:+ nl +:+ rest) /\
      NoDup (removeDuplicates (allNamedImports mixedSpec) id) /\
      (forall n,
         In n (removeDuplicates (allNamedImports mixedSpec) id) <->
         exists g operation,
           In g (groups mixedSpec) /\ In operation g.2 /\
           In n (namedImportNames operation))) /\
     obj_get "inputs/users.ts" generated =
       Some (String.concat nl
               ["import {fileSchema} from '../zod';";
                "import z from 'zod';";
                "export const listSchema = z.object({});";
                "export const watchSchema = {json: z.object({}), formdata: z.object({})};"]
             +:+ nl)) /\
  (exists generated,
     @generateClientSdk asciiCase plainBoilerplate plainSpec = Ok generated /\
     ((forall file text,
         In (file, text) generated -> startsWith "inputs/" file = true ->
         exists g lines,
           In g (groups plainSpec) /\
           lines = "import z from 'zod';" :: map (@schemaDeclaration asciiCase) g.2 /\
           text = String.concat nl lines +:+ nl /\
           Forall (fun line => startsWith "import {" line = false) lines /\
           startsWith "import {" text = false) /\
      NoDup (removeDuplicates (allNamedImports plainSpec) id) /\
      (forall n,
         In n (removeDuplicates (allNamedImports plainSpec) id) <->
         exists g operation,
           In g (groups plainSpec) /\ In operation g.2 /\
           In n (namedImportNames operation))) /\
     obj_get "inputs/users.ts" generated =
       Some (String.concat nl
               ["import z from 'zod';"; "export const listSchema = z.object({});"]
             +:+ nl)).
Proof.
  split.
  - eexists. split; [vm_compute; reflexivity|].
    split; [|vm_compute; reflexivity].
    apply (@shared_import_line asciiCase plainBoilerplate mixedSpec).
    vm_compute. reflexivity.
  - eexists. split; [vm_compute; reflexivity|].
    split; [|vm_compute; reflexivity].
    apply (@shared_import_line asciiCase plainBoilerplate plainSpec).
    vm_compute. reflexivity.
Defined.

Lemma generated_artifacts_colliding :
  exists generated,
    @generateClientSdk asciiCase plainBoilerplate collidingSpec = Ok generated /\
    generated =
    map (fun kv => (inputsFile kv.1, moduleText collidingSpec kv.2))
      (@schemaTable asciiCase collidingSpec) ++
    [("backend.ts", @backend plainBoilerplate collidingSpec);
     ("parser.ts", @parserTxt plainBoilerplate);
     ("client.ts", @clientTxt plainBoilerplate);
     ("request.ts", @requestTxt plainBoilerplate);
     ("schemas.ts", @schemasText asciiCase collidingSpec);
     ("endpoints.ts", @endpointsText asciiCase collidingSpec);
     ("response.ts", @responseTxt plainBoilerplate)].
Proof.
  eexists. split; [vm_compute; reflexivity|].
  apply (@generated_artifacts asciiCase plainBoilerplate collidingSpec).
  vm_compute. reflexivity.
Defined.

Example colliding_files :
  option_map (map fst) (match @generateClientSdk asciiCase plainBoilerplate collidingSpec with
                        | Ok generated => Some generated
                        | Throw _ => None
                        end) =
  Some ["inputs/users.ts"; "inputs/files.ts"; "backend.ts"; "parser.ts"; "client.ts";
        "request.ts"; "schemas.ts"; "endpoints.ts"; "response.ts"].
Proof. vm_compute. reflexivity. Qed.

End SdkProperties.
